(** * ABRoot: the upgrade transaction of package [core]

    A shallow embedding of the Go sources

    - [core/atomic-io.go]  ([AtomicSwap]),
    - the [ABSystem] file  ([RunCleanUpQueue], [AddToCleanUpQueue],
      [ResetQueue], [CheckUpdate], [SyncEtc], [Upgrade]),
    - the [Chroot] file    ([NewChroot], [Close], [Execute], [ExecuteCmds]),
    - the grub file        ([generateGrubRecipe], [getKernelVersion]),

    together with the properties the specification states about them.

    Go functions that return [error] are computations in a state-and-error
    monad over the program state: the package-level variable [queue], the
    host's path namespace, the table of open files and the trace of the
    operations the program has asked of the host and of the collaborators
    whose code lives elsewhere.  [PrintVerbose] and [fmt.Println] only
    print and are left out. *)

From Stdlib Require Import String Ascii ZArith List Bool Lia.
From stdpp Require Import gmap strings list.

Local Open Scope string_scope.
Local Open Scope list_scope.

(** ** The parts of the Go standard library the code calls *)

Module GoLib.

Definition is_sep (c : ascii) : bool := Ascii.eqb c "/".

(** [strings.Join(elems, sep)] *)
Fixpoint strings_Join (elems : list string) (sep : string) : string :=
  match elems with
  | [] => ""
  | [e] => e
  | e :: rest => e +:+ sep +:+ strings_Join rest sep
  end.

(** [strings.ReplaceAll(s, old, new)] for a non-empty [old]: the
    occurrences are replaced from the left and do not overlap.  [skip]
    counts the bytes of a matched [old] still to be dropped. *)
Fixpoint replaceAll_from (old new : string) (skip : nat) (s : string) : string :=
  match s with
  | EmptyString => EmptyString
  | String c s' =>
      match skip with
      | S k => replaceAll_from old new k s'
      | O =>
          if String.prefix old s
          then new +:+ replaceAll_from old new (String.length old - 1) s'
          else String c (replaceAll_from old new 0 s')
      end
  end.

Definition strings_ReplaceAll (s old new : string) : string :=
  replaceAll_from old new 0 s.

(** The elements of a path between separators (empty ones included). *)
Fixpoint split_on (c : ascii) (s : string) : list string :=
  match s with
  | EmptyString => [EmptyString]
  | String a s' =>
      if Ascii.eqb a c then EmptyString :: split_on c s'
      else match split_on c s' with
           | [] => [String a EmptyString]
           | w :: ws => String a w :: ws
           end
  end.

(** One element of [filepath.Clean]'s scan; [stk] holds the elements kept
    so far, innermost first. *)
Definition clean_step (rooted : bool) (stk : list string) (c : string) : list string :=
  if String.eqb c "" || String.eqb c "." then stk
  else if String.eqb c ".." then
    match stk with
    | top :: rest => if String.eqb top ".." then c :: stk else rest
    | [] => if rooted then [] else [c]
    end
  else c :: stk.

(** [filepath.Clean(path)] on Unix. *)
Definition filepath_Clean (path : string) : string :=
  match path with
  | EmptyString => "."
  | String c0 _ =>
      let rooted := is_sep c0 in
      let body :=
        strings_Join (rev (fold_left (clean_step rooted) (split_on "/" path) [])) "/" in
      if rooted then "/" +:+ body
      else if String.eqb body "" then "." else body
  end.

(** [filepath.Join(elem...)]: leading empty elements are dropped, the rest
    is joined with the separator and cleaned. *)
Fixpoint filepath_Join (elem : list string) : string :=
  match elem with
  | [] => ""
  | e :: rest =>
      if String.eqb e "" then filepath_Join rest
      else filepath_Clean (strings_Join elem "/")
  end.

Fixpoint drop_seps (l : list ascii) : list ascii :=
  match l with
  | c :: l' => if is_sep c then drop_seps l' else l
  | [] => []
  end.

Fixpoint take_elem (l : list ascii) : list ascii :=
  match l with
  | c :: l' => if is_sep c then [] else c :: take_elem l'
  | [] => []
  end.

(** [filepath.Base(path)]: trailing separators are stripped, then the last
    element is taken; the scan runs over the reversed path. *)
Definition filepath_Base (path : string) : string :=
  match path with
  | EmptyString => "."
  | _ =>
      match drop_seps (rev (list_ascii_of_string path)) with
      | [] => "/"
      | r => string_of_list_ascii (rev (take_elem r))
      end
  end.

(** [fmt.Sprintf(format, args...)] for a format whose only verb is [%s]
    and string operands. *)
Fixpoint fmt_Sprintf (format : string) (args : list string) : string :=
  match format with
  | EmptyString => EmptyString
  | String c rest =>
      if Ascii.eqb c "%" then
        match rest with
        | String d rest' =>
            if Ascii.eqb d "s" then
              match args with
              | a :: args' => a +:+ fmt_Sprintf rest' args'
              | [] => "%!s(MISSING)" +:+ fmt_Sprintf rest' []
              end
            else String c (fmt_Sprintf rest args)
        | EmptyString => "%!(NOVERB)"
        end
      else String c (fmt_Sprintf rest args)
  end.

(** Go compares strings byte by byte: [a > b]. *)
Definition string_gt (a b : string) : bool := String.ltb b a.

End GoLib.
Import GoLib.

(** ** Data model *)

(** Error numbers a failing system call may carry. *)
Inductive Errno : Set :=
  ENOENT | EEXIST | EXDEV | EINVAL | EBUSY | ENOTDIR | EACCES | EIO | EBADF.

(** Go [error] values, by the place that makes them. *)
Inductive error : Type :=
| errors_New (text : string)                  (* errors.New(text) *)
| PathError (Op Path : string) (Err : Errno)  (* *fs.PathError of package os *)
| SyscallErrno (e : Errno)                    (* syscall.Errno, from package unix *)
| ExitError (code : Z)                        (* *exec.ExitError *)
| CollabError (text : string).                (* made by a collaborator outside these files *)

(** [Partition], [ABRootPartition], [ABImage], the image the puller
    returns and the container file are declared outside these files; the
    records carry the fields the code reads. *)
Record Partition : Type := {
  MountPoint : string;
  Uuid : string;
  Device : string
}.

Record ABRootPartition : Type := {
  IdentifiedAs : string;
  Partition_ : Partition
}.

Record ABImage : Type := {
  Digest : string;
  Image : string
}.

Record PodmanImage : Type := { ImageDigest : string }.

Record ContainerFile : Type := {
  cfImage : string;
  cfLabels : gmap string string;
  cfArgs : gmap string string;
  cfContent : string
}.

Record Chroot : Type := {
  root : string;
  rootUuid : string;
  rootDevice : string
}.

(** [ABSystem]: [Checks], [RootM] and [Registry] are handles on
    collaborators, which the host interface below answers for. *)
Record ABSystem : Type := { CurImage : ABImage }.

(** The dynamic values stored in [QueuedFunction.Values]
    ([[]interface{}]). *)
Inductive Value : Type :=
| VABRootPartition (p : ABRootPartition)
| VChroot (c : Chroot)
| VString (s : string).

Record QueuedFunction : Type := {
  Name : string;
  Values : list Value
}.

Definition ReservedMounts : list string :=
  ["/dev"; "/dev/pts"; "/proc"; "/run"; "/sys"].

Definition RENAME_EXCHANGE : Z := 2.

Definition AT_FDCWD : Z := -100.

(** ** The host interface

    Every operation the program asks of the host or of a collaborator
    whose code is elsewhere is one [Event]; the trace records them in the
    order they are issued. *)
Inductive Event : Type :=
| EvHasUpdate (digest : string)
| EvGetFuture
| EvGetBoot
| EvMount (p : Partition) (destination : string)
| EvUnmount (p : Partition)
| EvPull (image : string)
| EvGetFinalCmd
| EvGenerateRootfs (image : string) (cf : ContainerFile) (transDir dest : string)
| EvWriteTo (img : ABImage) (dest suffix : string)
| EvOpen (name : string)
| EvRenameat2 (olddirfd : Z) (oldpath : string) (newdirfd : Z) (newpath : string) (flags : Z)
| EvGlob (pattern : string)
| EvMkdirAll (path : string) (perm : Z)
| EvWriteFile (path : string) (data : string) (perm : Z)
| EvStat (name : string)
| EvExec (name : string) (args : list string)
| EvMergeDiff (source dest : string)
| EvUuidNew
| EvMkdir (path : string) (perm : Z).

Definition Inode : Set := nat.

(** What the world outside the program answers.  Each answer may depend on
    the operations issued before it. *)
Record Env : Type := {
  Cnf_Registry : string;                      (* settings.Cnf.Registry *)
  Cnf_Name : string;                          (* settings.Cnf.Name *)
  Cnf_Tag : string;                           (* settings.Cnf.Tag *)
  registry_digest : list Event -> string;     (* digest the registry serves *)
  host_err : list Event -> Event -> option error;
  host_fs : list Event -> Event -> gmap string Inode -> gmap string Inode;
  is_dir : Inode -> bool;                     (* the inode is a directory *)
  first_fd : nat;                             (* lowest descriptor free at the start *)
  future_partition : list Event -> ABRootPartition;
  boot_partition : list Event -> Partition;
  mounted : list Event -> Partition -> string -> Partition;
  pulled_image : list Event -> PodmanImage;
  final_cmd : list Event -> string;
  glob_files : list Event -> string -> list string;
  new_uuid : list Event -> string
}.

(** The program state.  [fs] gives the inode each cleaned path name
    denotes; what lies beneath an exchanged directory travels with its
    inode and is not tracked.  [fds] is the table of the files the
    program has opened, by the name each was opened under and in the
    order of opening.  The kernel hands out the lowest free descriptor
    and the program closes nothing, so entry [i] is descriptor
    [first_fd + i], [first_fd] being what the process held open before,
    which is the world's. *)
Record State : Type := {
  queue : list QueuedFunction;
  fs : gmap string Inode;
  fds : list string;
  trace : list Event
}.

Definition set_queue (q : list QueuedFunction) (st : State) : State :=
  {| queue := q; fs := fs st; fds := fds st; trace := trace st |}.

Definition set_fs (m : gmap string Inode) (st : State) : State :=
  {| queue := queue st; fs := m; fds := fds st; trace := trace st |}.

Definition log (ev : Event) (st : State) : State :=
  {| queue := queue st; fs := fs st; fds := fds st; trace := trace st ++ [ev] |}.

(** ** The monad: state passing with Go's early return on [err != nil] *)

Definition M (A : Type) : Type := State -> (error + A) * State.

Definition ret {A : Type} (a : A) : M A := fun st => (inr a, st).

Definition throw {A : Type} (e : error) : M A := fun st => (inl e, st).

Definition bind {A B : Type} (m : M A) (k : A -> M B) : M B :=
  fun st =>
    match m st with
    | (inl e, st') => (inl e, st')
    | (inr a, st') => k a st'
    end.

Notation "'do' x <- m ;; k" := (bind m (fun x => k))
  (at level 10, x name, m at level 99, k at level 200).

Notation "'run_' m ;; k" := (bind m (fun _ => k))
  (at level 10, m at level 99, k at level 200).

(** A [for ... range] loop whose body returns on the first error. *)
Fixpoint forM_ {A : Type} (l : list A) (body : A -> M unit) : M unit :=
  match l with
  | [] => ret tt
  | x :: rest => run_ body x ;; forM_ rest body
  end.

(** The value a Go function of result type [error] hands back. *)
Definition as_error (r : error + unit) : option error :=
  match r with
  | inl e => Some e
  | inr _ => None
  end.

Definition run (m : M unit) (st : State) : option error * State :=
  (as_error (m st).1, (m st).2).

Section Program.

Variable env : Env.

(** A call answered by the world: it is recorded, may change the
    namespace, and fails when the world says so. *)
Definition host_val {A : Type} (ev : Event) (answer : list Event -> A) : M A :=
  fun st =>
    let st' := log ev (set_fs (host_fs env (trace st) ev (fs st)) st) in
    match host_err env (trace st) ev with
    | Some e => (inl e, st')
    | None => (inr (answer (trace st)), st')
    end.

Definition host (ev : Event) : M unit := host_val ev (fun _ => tt).

(** A call that hands back a value and no error. *)
Definition query {A : Type} (ev : Event) (answer : list Event -> A) : M A :=
  fun st =>
    (inr (answer (trace st)),
     log ev (set_fs (host_fs env (trace st) ev (fs st)) st)).

(** *** core/atomic-io.go *)

(** *** The path namespace, as the kernel reads it *)

Definition is_abs (path : string) : bool := String.prefix "/" path.

(** A path that ends in a separator asks for a directory. *)
Definition ends_in_sep (path : string) : bool :=
  match rev (list_ascii_of_string path) with
  | c :: _ => is_sep c
  | [] => false
  end.

(** The names above a cleaned path name, outermost first. *)
Definition dirs_above (k : string) : list string :=
  let elems := split_on "/" k in
  List.filter (fun d => negb (String.eqb d ""))
    (map (fun n => strings_Join (take n elems) "/") (seq 1 (length elems - 1))).

(** Path lookup: the empty path denotes nothing; a name beneath
    something that is not a directory, or a path that asks for a
    directory and finds something else, is answered [ENOTDIR]; a name
    nothing is known under is answered [ENOENT]. *)
Definition namei (m : gmap string Inode) (name : string) : Errno + Inode :=
  if String.eqb name "" then inl ENOENT
  else
    let k := filepath_Clean name in
    if existsb
         (fun d => match m !! d with
                   | Some i => negb (is_dir env i)
                   | None => false
                   end)
         (dirs_above k)
    then inl ENOTDIR
    else
      match m !! k with
      | None => inl ENOENT
      | Some i =>
          if ends_in_sep name && negb (is_dir env i) then inl ENOTDIR else inr i
      end.

(** The error of [os.Open(name)], if it fails: the world's refusal
    (permissions, too many open files), or that of the path lookup. *)
Definition open_error (st : State) (name : string) : option error :=
  match host_err env (trace st) (EvOpen name) with
  | Some e => Some e
  | None =>
      match namei (fs st) name with
      | inl errno => Some (PathError "open" name errno)
      | inr _ => None
      end
  end.

(** The state once [name] has been opened. *)
Definition opened (name : string) (st : State) : State :=
  {| queue := queue st; fs := fs st; fds := fds st ++ [name];
     trace := trace st ++ [EvOpen name] |}.

(** [os.Open(name)]; the descriptor stays open (the code never closes
    it). *)
Definition os_Open (name : string) : M Z :=
  fun st =>
    match open_error st name with
    | Some e => (inl e, log (EvOpen name) st)
    | None => (inr (Z.of_nat (first_fd env + length (fds st))), opened name st)
    end.

(** The exchange of two names. *)
Definition exchange (a b : string) (m : gmap string Inode) : gmap string Inode :=
  match m !! a, m !! b with
  | Some i, Some j => <[a := j]> (<[b := i]> m)
  | _, _ => m
  end.

(** The name [path] stands for in a call that takes a directory
    descriptor: an absolute path stands for itself and the descriptor is
    ignored; a relative path is read beneath the directory the
    descriptor stands for, so the descriptor must be an open file
    ([EBADF]) that is a directory ([ENOTDIR]).  A descriptor is followed
    through the name it was opened under. *)
Definition at_dir (st : State) (dirfd : Z) (path : string) : Errno + string :=
  if String.eqb path "" then inl ENOENT
  else if is_abs path then inr path
  else if Z.eqb dirfd AT_FDCWD then inr path
  else
    match (if Z.ltb dirfd (Z.of_nat (first_fd env)) then None
           else fds st !! Z.to_nat (dirfd - Z.of_nat (first_fd env))) with
    | None => inl EBADF
    | Some dir =>
        match namei (fs st) dir with
        | inl errno => inl errno
        | inr i => if is_dir env i then inr (dir +:+ "/" +:+ path) else inl ENOTDIR
        end
    end.

(** [unix.Renameat2] with [RENAME_EXCHANGE]: each path is read against
    its directory descriptor; the kernel may then refuse (another mount:
    [EXDEV]; no exchange-rename on this filesystem: [EINVAL]), which is
    the world's answer for the event; otherwise both names must denote
    something and are exchanged in one step.  Other flag values are
    answered [EINVAL]: the program passes none. *)
Definition unix_Renameat2 (olddirfd : Z) (oldpath : string)
    (newdirfd : Z) (newpath : string) (flags : Z) : M unit :=
  fun st =>
    let ev := EvRenameat2 olddirfd oldpath newdirfd newpath flags in
    if negb (Z.eqb flags RENAME_EXCHANGE) then (inl (SyscallErrno EINVAL), log ev st)
    else
      match at_dir st olddirfd oldpath, at_dir st newdirfd newpath with
      | inl errno, _ => (inl (SyscallErrno errno), log ev st)
      | inr _, inl errno => (inl (SyscallErrno errno), log ev st)
      | inr a, inr b =>
          match host_err env (trace st) ev with
          | Some e => (inl e, log ev st)
          | None =>
              match namei (fs st) a, namei (fs st) b with
              | inl errno, _ => (inl (SyscallErrno errno), log ev st)
              | inr _, inl errno => (inl (SyscallErrno errno), log ev st)
              | inr _, inr _ =>
                  (inr tt,
                   log ev
                     (set_fs (exchange (filepath_Clean a) (filepath_Clean b) (fs st)) st))
              end
          end
      end.

Definition AtomicSwap_m (src dst : string) : M unit :=
  do orig <- os_Open src ;;
  do newfile <- os_Open dst ;;
  unix_Renameat2 orig src newfile dst RENAME_EXCHANGE.

Definition AtomicSwap (src dst : string) (st : State) : option error * State :=
  run (AtomicSwap_m src dst) st.

End Program.

(** ** The grub file: the recipe template *)

Definition nl : string := String (ascii_of_nat 10) EmptyString.
Definition tab : string := String (ascii_of_nat 9) EmptyString.
Definition dq : string := String (ascii_of_nat 34) EmptyString.

(** The lines of the raw string literal [template] of
    [generateGrubRecipe]; [tab] and [dq] stand for the tabulation and
    the double quote of the source text. *)
Definition template_lines : list string :=
  [ "#!/bin/sh";
    "# ABRoot GRUB configuration file";
    "# This file is automatically generated by ABRoot";
    "# Do not edit this file manually";
    "";
    "exec tail -n +3 $0";
    "";
    "set menu_color_normal=white/black";
    "set menu_color_highlight=black/light-gray";
    "";
    "function gfxmode {";
    tab +:+ "set gfxpayload=" +:+ dq +:+ "${1}" +:+ dq;
    tab +:+ "if [ " +:+ dq +:+ "${1}" +:+ dq +:+ " = " +:+ dq +:+ "keep" +:+ dq +:+ " ]; then";
    tab +:+ tab +:+ tab +:+ tab +:+ tab +:+ "set vt_handoff=vt.handoff=7";
    tab +:+ "else";
    tab +:+ tab +:+ tab +:+ tab +:+ tab +:+ "set vt_handoff=";
    tab +:+ "fi";
    "}";
    "if [ " +:+ dq +:+ "${recordfail}" +:+ dq +:+ " != 1 ]; then";
    "if [ -e ${prefix}/gfxblacklist.txt ]; then";
    "if [ ${grub_platform} != pc ]; then";
    "  set linux_gfx_mode=keep";
    "elif hwmatch ${prefix}/gfxblacklist.txt 3; then";
    "  if [ ${match} = 0 ]; then";
    tab +:+ "set linux_gfx_mode=keep";
    "  else";
    tab +:+ "set linux_gfx_mode=text";
    "  fi";
    "else";
    "  set linux_gfx_mode=text";
    "fi";
    "else";
    "set linux_gfx_mode=keep";
    "fi";
    "else";
    "set linux_gfx_mode=text";
    "fi";
    "export linux_gfx_mode";
    "";
    "menuentry '%s' --class gnu-linux --class gnu --class os {";
    tab +:+ "recordfail";
    tab +:+ "load_video";
    tab +:+ "gfxmode $linux_gfx_mode";
    tab +:+ "insmod gzio";
    tab +:+ "if [ x$grub_platform = xxen ]; then insmod xzio; insmod lzopio; fi";
    tab +:+ "insmod part_gpt";
    tab +:+ "insmod ext2";
    tab +:+ "search --no-floppy --fs-uuid --set=root %s";
    tab +:+ "linux   /.system/boot/vmlinuz-%s root=UUID=%s quiet splash bgrt_disable $vt_handoff";
    tab +:+ "initrd  /.system/boot/initrd.img-%s" ].

Definition template : string := strings_Join template_lines nl.

Section Transaction.

Variable env : Env.

(** *** The Chroot file *)

(** [exec.Command(name, args...).Run()] *)
Definition exec_Run (name : string) (args : list string) : M unit :=
  host env (EvExec name args).

(** The error of [os.Stat(name)], [nil] when the name denotes something:
    the world's refusal (permissions), or the error of the path
    lookup. *)
Definition stat_error (st : State) (name : string) : option error :=
  match host_err env (trace st) (EvStat name) with
  | Some e => Some e
  | None =>
      match namei env (fs st) name with
      | inl errno => Some (PathError "stat" name errno)
      | inr _ => None
      end
  end.

(** [os.Stat(name)], of which the code reads the error only. *)
Definition os_Stat (name : string) : M (option error) :=
  fun st => (inr (stat_error st name), log (EvStat name) st).

Definition os_IsNotExist (err : option error) : bool :=
  match err with
  | Some (PathError _ _ ENOENT) => true
  | Some (SyscallErrno ENOENT) => true
  | _ => false
  end.

Definition Chroot_Execute (c : Chroot) (cmd : string) (args : list string) : M unit :=
  let cmd := strings_Join (cmd :: args) " " in
  exec_Run "chroot" [root c; "/bin/sh"; "-c"; cmd].

Definition Chroot_ExecuteCmds (c : Chroot) (cmds : list string) : M unit :=
  forM_ cmds (fun cmd => Chroot_Execute c cmd []).

Definition NewChroot (root rootUuid rootDevice : string) : M Chroot :=
  let root := strings_ReplaceAll root "//" "/" in
  do err <- os_Stat root ;;
  match (if os_IsNotExist err then err else None) with
  | Some e => throw e
  | None =>
      let chroot := {| root := root; rootUuid := rootUuid; rootDevice := rootDevice |} in
      run_ Chroot_Execute chroot "mount" ["--bind"; "/"; "/"] ;;
      run_ forM_ ReservedMounts
             (fun mount => exec_Run "mount" ["--bind"; mount; root +:+ mount]) ;;
      ret chroot
  end.

Definition Chroot_Close (c : Chroot) : M unit :=
  forM_ ReservedMounts (fun mount => exec_Run "umount" [root c +:+ mount]).

(** *** The grub file *)

(** The loop of [getKernelVersion] over the files found. *)
Definition max_version (files : list string) : string :=
  fold_left
    (fun maxVersion file =>
       let version := filepath_Base file in
       if string_gt version maxVersion then version else maxVersion)
    files "".

Definition getKernelVersion (rootPath : string) : M string :=
  fun st =>
    let kernelDir := filepath_Join [rootPath; "boot"; "vmlinuz-*"] in
    let st' := log (EvGlob kernelDir) st in
    match host_err env (trace st) (EvGlob kernelDir) with
    | Some _ => (inr "", st')
    | None =>
        let files := glob_files env (trace st) kernelDir in
        if Nat.eqb (length files) 0 then (inr "", st')
        else (inr (max_version files), st')
    end.

Definition generateGrubRecipe (rootPath rootUuid entryName : string) : M unit :=
  let recipePath := filepath_Join [rootPath; "etc"; "grub.d"; "10_abroot"] in
  do kernelVersion <- getKernelVersion rootPath ;;
  if String.eqb kernelVersion "" then throw (errors_New "could not get kernel version")
  else
    let grubDir := filepath_Join [rootPath; "etc"; "grub.d"] in
    run_ host env (EvMkdirAll grubDir 493) ;;
    host env
      (EvWriteFile recipePath
         (fmt_Sprintf template
            [entryName; rootUuid; kernelVersion; rootUuid; kernelVersion])
         420).

(** *** The ABSystem file *)

(** Modelled from the spec: [Registry.HasUpdate], whose code is not in
    these files.  Stage S0 "consults the image backend for a newer digest
    than the descriptor of the present root" and has "no side effects":
    there is an update exactly when the digest the registry serves differs
    from the one given. *)
Definition Registry_HasUpdate (digest : string) : M bool :=
  fun st =>
    (inr (negb (String.eqb (registry_digest env (trace st)) digest)),
     log (EvHasUpdate digest) st).

(** Modelled from the spec: [Partition.Mount], whose code is not in
    these files.  The spec has "`mount` creates `target` if absent and
    establishes the filesystem mount", gives a partition "a mount point
    (possibly empty)" with "A partition's mount point is non-empty iff
    the partition is currently mounted by this process", and has stage 4
    write to "`<futureMount>/.system.new/`" once stage 1 has mounted
    future "at a stable scratch path (e.g. `/part-future/`)".  So the
    call is one on the host, [Mount] has a pointer receiver, and once it
    has succeeded the mount point of the partition it was called on is
    the target.  What it leaves in the other fields is the world's
    answer [mounted]. *)
Definition after_mount (h : list Event) (p : Partition) (destination : string) :
    Partition :=
  {| MountPoint := destination;
     Uuid := Uuid (mounted env h p destination);
     Device := Device (mounted env h p destination) |}.

Definition Partition_Mount (p : Partition) (destination : string) : M Partition :=
  host_val env (EvMount p destination) (fun h => after_mount h p destination).

(** [Partition.Unmount], whose code is not in these files either, is a
    call on the host. *)
Definition Partition_Unmount (p : Partition) : M unit :=
  host env (EvUnmount p).

Definition CheckUpdate (s : ABSystem) : M bool :=
  Registry_HasUpdate (Digest (CurImage s)).

Definition etcFiles : list string :=
  ["passwd"; "group"; "shells"; "shadow"; "subuid"; "subgid"].

Definition SyncEtc (systemEtc : string) : M unit :=
  forM_ etcFiles
    (fun file =>
       let sourceFile := "/var/lib/abroot/etc/" +:+ file in
       let destFile := systemEtc +:+ "/" +:+ file in
       host env (EvMergeDiff sourceFile destFile)).

Definition AddToCleanUpQueue (name : string) (values : list Value) : M unit :=
  fun st =>
    (inr tt, set_queue (queue st ++ [{| Name := name; Values := values |}]) st).

Definition ResetQueue : M unit :=
  fun st => (inr tt, set_queue [] st).

(** What a call of [RunCleanUpQueue] ends in: it returns an [error]
    (possibly [nil]), or a type assertion on [f.Values[0]] panics. *)
Inductive Outcome : Type :=
| Returned (err : option error)
| Panicked.

(** The [for _, f := range queue] loop of [RunCleanUpQueue]. *)
Fixpoint run_entries (q : list QueuedFunction) (st : State) : Outcome * State :=
  match q with
  | [] => (Returned None, st)
  | f :: rest =>
      if String.eqb (Name f) "umountFuture" then
        match Values f with
        | VABRootPartition futurePart :: _ =>
            match Partition_Unmount (Partition_ futurePart) st with
            | (inl err, st') => (Returned (Some err), st')
            | (inr _, st') => run_entries rest st'
            end
        | _ => (Panicked, st)
        end
      else if String.eqb (Name f) "closeChroot" then
        match Values f with
        | VChroot chroot :: _ =>
            match Chroot_Close chroot st with
            | (inl err, st') => (Returned (Some err), st')
            | (inr _, st') => run_entries rest st'
            end
        | _ => (Panicked, st)
        end
      else run_entries rest st
  end.

Definition RunCleanUpQueue (st : State) : Outcome * State :=
  match run_entries (queue st) st with
  | (Returned None, st') => (Returned None, (ResetQueue st').2)
  | r => r
  end.

(** *** [Upgrade], stage by stage *)

Definition fullImageName : string :=
  Cnf_Registry env +:+ "/" +:+ Cnf_Name env +:+ ":" +:+ Cnf_Tag env.

Definition NewContainerFile (image : string) (labels args : gmap string string)
    (content : string) : ContainerFile :=
  {| cfImage := image; cfLabels := labels; cfArgs := args; cfContent := content |}.

Definition NewABImage (digest image : string) : ABImage :=
  {| Digest := digest; Image := image |}.

(** Stage 0: is there an update? *)
Definition Upgrade_S0 (s : ABSystem) : M unit :=
  do update <- CheckUpdate s ;;
  if negb update then throw (errors_New "no update available") else ret tt.

(** Stage 1: the future and boot partitions; future is mounted on
    [/part-future/] and its unmount registered. *)
Definition Upgrade_S1 : M (ABRootPartition * Partition) :=
  do partFuture <- host_val env EvGetFuture (future_partition env) ;;
  do partBoot <- host_val env EvGetBoot (boot_partition env) ;;
  do mounted <- Partition_Mount (Partition_ partFuture) "/part-future/" ;;
  let partFuture :=
    {| IdentifiedAs := IdentifiedAs partFuture; Partition_ := mounted |} in
  run_ AddToCleanUpQueue "umountFuture" [VABRootPartition partFuture] ;;
  ret (partFuture, partBoot).

(** Stage 2: pull the new image. *)
Definition Upgrade_S2 : M PodmanImage :=
  host_val env (EvPull fullImageName) (pulled_image env).

(** Stage 3: the container file with the user packages. *)
Definition Upgrade_S3 : M ContainerFile :=
  do pkgsFinal <- query env EvGetFinalCmd (final_cmd env) ;;
  let labels : gmap string string := {[ "maintainer" := "'Generated by ABRoot'" ]} in
  let args : gmap string string := ∅ in
  let pkgsFinal := if String.eqb pkgsFinal "" then "true" else pkgsFinal in
  let content := "RUN " +:+ pkgsFinal in
  ret (NewContainerFile fullImageName labels args content).

(** Stage 4: extract the rootfs. *)
Definition Upgrade_S4 (partFuture : ABRootPartition) (containerFile : ContainerFile) : M unit :=
  host env
    (EvGenerateRootfs fullImageName containerFile
       (MountPoint (Partition_ partFuture))
       (MountPoint (Partition_ partFuture) +:+ "/.system.new/")).

(** Stage 5: write the new image descriptor. *)
Definition Upgrade_S5 (partFuture : ABRootPartition) (podmanImage : PodmanImage) : M unit :=
  let abimage := NewABImage (ImageDigest podmanImage) fullImageName in
  host env (EvWriteTo abimage (MountPoint (Partition_ partFuture)) "new").

(** Stage 6: swap the rootfs, then the image descriptor. *)
Definition Upgrade_S6 (partFuture : ABRootPartition) : M unit :=
  run_ AtomicSwap_m env
         (MountPoint (Partition_ partFuture) +:+ "/.system/")
         (MountPoint (Partition_ partFuture) +:+ "/.system.new/") ;;
  let oldABImage := MountPoint (Partition_ partFuture) +:+ "/abimage.abr" in
  let newABImage := MountPoint (Partition_ partFuture) +:+ "/abimage-new.abr" in
  AtomicSwap_m env oldABImage newABImage.

(** Stage 7: the bootloader recipe and [grub-mkconfig] in a chroot. *)
Definition Upgrade_S7 (partFuture : ABRootPartition) : M unit :=
  run_ generateGrubRecipe
         (MountPoint (Partition_ partFuture) +:+ "/.system/")
         (Uuid (Partition_ partFuture))
         (IdentifiedAs partFuture) ;;
  do chroot <- NewChroot
                 (MountPoint (Partition_ partFuture) +:+ "/.system/")
                 (Uuid (Partition_ partFuture))
                 (Device (Partition_ partFuture)) ;;
  run_ AddToCleanUpQueue "closeChroot" [VChroot chroot] ;;
  Chroot_ExecuteCmds chroot ["grub-mkconfig -o /boot/grub/grub.cfg"; "exit"].

(** Stage 8: sync [/etc]. *)
Definition Upgrade_S8 (partFuture : ABRootPartition) : M unit :=
  SyncEtc (MountPoint (Partition_ partFuture) +:+ "/.system/etc/").

(** Stage 9: mount the boot partition on a fresh directory. *)
Definition Upgrade_S9 (partBoot : Partition) : M string :=
  do uuid <- query env EvUuidNew (new_uuid env) ;;
  run_ host env (EvMkdir ("/tmp/" +:+ uuid) 493) ;;
  run_ Partition_Mount partBoot ("/tmp/" +:+ uuid) ;;
  ret uuid.

(** Stage 10: swap the bootloader configuration. *)
Definition Upgrade_S10 (uuid : string) : M unit :=
  AtomicSwap_m env
    ("/tmp/" +:+ uuid +:+ "/grub.cfg")
    ("/tmp/" +:+ uuid +:+ "/grub.cfg.future").

Definition Upgrade_m (s : ABSystem) : M unit :=
  run_ ResetQueue ;;
  run_ Upgrade_S0 s ;;
  do parts <- Upgrade_S1 ;;
  do podmanImage <- Upgrade_S2 ;;
  do containerFile <- Upgrade_S3 ;;
  run_ Upgrade_S4 parts.1 containerFile ;;
  run_ Upgrade_S5 parts.1 podmanImage ;;
  run_ Upgrade_S6 parts.1 ;;
  run_ Upgrade_S7 parts.1 ;;
  run_ Upgrade_S8 parts.1 ;;
  do uuid <- Upgrade_S9 parts.2 ;;
  Upgrade_S10 uuid.

Definition Upgrade (s : ABSystem) (st : State) : option error * State :=
  run (Upgrade_m s) st.

End Transaction.

(** ** Reading a trace *)

(** The rename system calls in a trace. *)
Definition rename_calls (t : list Event) : list Event :=
  List.filter
    (fun ev => match ev with EvRenameat2 _ _ _ _ _ => true | _ => false end) t.

(** The [umount] command [Close] runs for one reserved mount. *)
Definition umount_call (c : Chroot) (mount : string) : Event :=
  EvExec "umount" [root c +:+ mount].

(** The host operations one queue entry stands for, in the order
    [RunCleanUpQueue] issues them when none fails. *)
Definition entry_events (f : QueuedFunction) : list Event :=
  if String.eqb (Name f) "umountFuture" then
    match Values f with
    | VABRootPartition futurePart :: _ => [EvUnmount (Partition_ futurePart)]
    | _ => []
    end
  else if String.eqb (Name f) "closeChroot" then
    match Values f with
    | VChroot chroot :: _ => map (umount_call chroot) ReservedMounts
    | _ => []
    end
  else [].

(** An entry whose first value has the type the drain asserts. *)
Definition well_typed_entry (f : QueuedFunction) : bool :=
  if String.eqb (Name f) "umountFuture" then
    match Values f with VABRootPartition _ :: _ => true | _ => false end
  else if String.eqb (Name f) "closeChroot" then
    match Values f with VChroot _ :: _ => true | _ => false end
  else true.

(** The world accepts each of [calls], asked one after the other once
    [h] has happened. *)
Fixpoint accepted (env : Env) (h : list Event) (calls : list Event) : bool :=
  match calls with
  | [] => true
  | ev :: rest =>
      match host_err env h ev with
      | Some _ => false
      | None => accepted env (h ++ [ev]) rest
      end
  end.

(** What the kernel makes of a path [AtomicSwap] hands it.  The
    descriptor that goes with the path is the one of the path itself: an
    absolute path stands for itself, a relative one is read beneath what
    was opened under it, which must be a directory. *)
Definition swap_target (env : Env) (m : gmap string Inode) (path : string) :
    Errno + string :=
  if is_abs path then inr path
  else
    match namei env m path with
    | inl errno => inl errno
    | inr i => if is_dir env i then inr (path +:+ "/" +:+ path) else inl ENOTDIR
    end.

(** Pushing entries one after the other, as [Upgrade] does. *)
Definition push_all (entries : list (string * list Value)) : M unit :=
  forM_ entries (fun nv => AddToCleanUpQueue nv.1 nv.2).

(** The mounts of partitions among [new], asked once [h] has happened,
    that the world accepted. *)
Fixpoint mounts_made (env : Env) (h : list Event) (new : list Event) : list Event :=
  match new with
  | [] => []
  | ev :: rest =>
      let later := mounts_made env (h ++ [ev]) rest in
      match ev with
      | EvMount _ _ =>
          match host_err env h ev with
          | None => ev :: later
          | Some _ => later
          end
      | _ => later
      end
  end.

(** Operations that release a mount: [Partition.Unmount] and the
    [umount] command. *)
Definition is_release (ev : Event) : bool :=
  match ev with
  | EvUnmount _ => true
  | EvExec name _ => String.eqb name "umount"
  | _ => false
  end.

(** What the loop of [RunCleanUpQueue] does, by its three ways of
    ending.  It runs to the end when every entry is well typed and the
    world accepts every operation; it returns the error of the first
    operation the world refuses, having asked for nothing after it; it
    panics at the first entry whose value has the wrong type.  In each
    case the entries before have run in full, in queue order. *)
Inductive drained (env : Env) (q : list QueuedFunction) (st : State) :
    Outcome -> State -> Prop :=
| drained_all st' :
    Forall (fun f => well_typed_entry f = true) q ->
    accepted env (trace st) (flat_map entry_events q) = true ->
    trace st' = trace st ++ flat_map entry_events q ->
    drained env q st (Returned None) st'
| drained_error st' e done f rest pre ev post :
    q = done ++ f :: rest ->
    Forall (fun f => well_typed_entry f = true) done ->
    entry_events f = pre ++ ev :: post ->
    accepted env (trace st) (flat_map entry_events done ++ pre) = true ->
    host_err env (trace st ++ flat_map entry_events done ++ pre) ev = Some e ->
    trace st' = trace st ++ flat_map entry_events done ++ pre ++ [ev] ->
    drained env q st (Returned (Some e)) st'
| drained_panic st' done f rest :
    q = done ++ f :: rest ->
    Forall (fun f => well_typed_entry f = true) done ->
    well_typed_entry f = false ->
    accepted env (trace st) (flat_map entry_events done) = true ->
    trace st' = trace st ++ flat_map entry_events done ->
    drained env q st Panicked st'.

(** The first host operation a drain of [q] issues, if it issues any: it
    depends on the queue alone. *)
Fixpoint first_action (q : list QueuedFunction) : option Event :=
  match q with
  | [] => None
  | f :: rest =>
      if String.eqb (Name f) "umountFuture" then
        match Values f with
        | VABRootPartition futurePart :: _ => Some (EvUnmount (Partition_ futurePart))
        | _ => None
        end
      else if String.eqb (Name f) "closeChroot" then
        match Values f with
        | VChroot chroot :: _ => Some (umount_call chroot "/dev")
        | _ => None
        end
      else first_action rest
  end.

(** ** Concrete worlds

    The machine of the specification's scenarios: present holds the image
    of digest [sha:A], future is [/dev/sda3] with UUID [abc-123]. *)

Definition demo_future : ABRootPartition :=
  {| IdentifiedAs := "b";
     Partition_ := {| MountPoint := ""; Uuid := "abc-123"; Device := "/dev/sda3" |} |}.

Definition demo_boot : Partition :=
  {| MountPoint := ""; Uuid := "b007"; Device := "/dev/sda1" |}.

(** What the collaborators leave in the namespace when they succeed:
    mounting future shows its [.system] and [abimage.abr], the rootfs
    generator makes [.system.new], the descriptor writer
    [abimage-new.abr], and mounting boot shows the two grub files.  The
    two root trees, inodes 10 and 20, are directories; everything else
    is a regular file. *)
Definition demo_effect (ev : Event) (m : gmap string Inode) : gmap string Inode :=
  match ev with
  | EvMount _ dest =>
      if String.eqb dest "/part-future/"
      then <["/part-future/.system" := 10]> (<["/part-future/abimage.abr" := 11]> m)
      else <[filepath_Join [dest; "grub.cfg"] := 30]>
             (<[filepath_Join [dest; "grub.cfg.future"] := 31]> m)
  | EvGenerateRootfs _ _ _ dest => <[filepath_Clean dest := 20]> m
  | EvWriteTo _ dest suffix =>
      <[filepath_Join [dest; "abimage-" +:+ suffix +:+ ".abr"] := 21]> m
  | _ => m
  end.

(** A world with the registry serving [digest], the package manager
    answering [cmd], the files [kernels] in the directory the glob
    pattern names, and the calls chosen by [bad] failing with [e]. *)
Definition demo_env (digest cmd : string) (kernels : list string)
    (bad : Event -> bool) (e : error) : Env :=
  {| Cnf_Registry := "ghcr.io";
     Cnf_Name := "vanilla-os/desktop";
     Cnf_Tag := "main";
     registry_digest := fun _ => digest;
     host_err := fun _ ev => if bad ev then Some e else None;
     host_fs := fun _ ev m => if bad ev then m else demo_effect ev m;
     is_dir := fun i => Nat.eqb i 10 || Nat.eqb i 20;
     first_fd := 3;
     future_partition := fun _ => demo_future;
     boot_partition := fun _ => demo_boot;
     mounted := fun _ p destination =>
       {| MountPoint := destination; Uuid := Uuid p; Device := Device p |};
     pulled_image := fun _ => {| ImageDigest := digest |};
     final_cmd := fun _ => cmd;
     glob_files := fun _ pattern =>
       map (fun name => filepath_Join [pattern; ".."] +:+ "/" +:+ name) kernels;
     new_uuid := fun _ => "3f6c" |}.

Definition nothing_fails (ev : Event) : bool := false.

Definition pull_fails (ev : Event) : bool :=
  match ev with EvPull _ => true | _ => false end.

Definition unmount_fails (ev : Event) : bool :=
  match ev with EvUnmount _ => true | _ => false end.

(** The [umount] of [target]. *)
Definition umount_of (target : string) (ev : Event) : bool :=
  match ev with
  | EvExec name [path] => String.eqb name "umount" && String.eqb path target
  | _ => false
  end.

(** The exchange-rename whose first path is [path]. *)
Definition exchange_of (path : string) (ev : Event) : bool :=
  match ev with
  | EvRenameat2 _ oldpath _ _ _ => String.eqb oldpath path
  | _ => false
  end.

Definition demo_system : ABSystem :=
  {| CurImage := {| Digest := "sha:A"; Image := "ghcr.io/vanilla-os/desktop:main" |} |}.

Definition empty_state : State :=
  {| queue := []; fs := ∅; fds := []; trace := [] |}.

Definition demo_chroot : Chroot :=
  {| root := "/part-future/.system/"; rootUuid := "abc-123"; rootDevice := "/dev/sda3" |}.

(** The queue as [Upgrade] fills it: the unmount first, the chroot
    second. *)
Definition demo_entries : list (string * list Value) :=
  [("umountFuture", [VABRootPartition demo_future]);
   ("closeChroot", [VChroot demo_chroot])].

Definition demo_queued : State :=
  (push_all demo_entries empty_state).2.

(** Worlds in which one kind of call fails and everything else succeeds. *)
Definition calm_world : Env :=
  demo_env "sha:B" "" ["vmlinuz-6.5.0-1"] nothing_fails (CollabError "").

Definition busy_unmount_world : Env :=
  demo_env "sha:B" "" ["vmlinuz-6.5.0-1"] unmount_fails (SyscallErrno EBUSY).

Definition busy_dev_world : Env :=
  demo_env "sha:B" "" ["vmlinuz-6.5.0-1"] (umount_of "/part-future/.system//dev") (ExitError 32).

Definition busy_proc_world : Env :=
  demo_env "sha:B" "" ["vmlinuz-6.5.0-1"] (umount_of "/part-future/.system//proc") (ExitError 32).

(** Two regular files in the working directory, and the same two under
    the root. *)
Definition cwd_files : State :=
  set_fs (<["a" := 1]> (<["b" := 2]> ∅)) empty_state.

Definition root_files : State :=
  set_fs (<["/a" := 1]> (<["/b" := 2]> ∅)) empty_state.

(** A filesystem that has no exchange-rename. *)
Definition is_rename (ev : Event) : bool :=
  match ev with EvRenameat2 _ _ _ _ _ => true | _ => false end.

Definition no_exchange_world : Env :=
  demo_env "sha:B" "" ["vmlinuz-6.5.0-1"] is_rename (SyscallErrno EINVAL).

(** A root whose name is not a well-formed glob pattern: [filepath.Glob]
    answers [ErrBadPattern] for every pattern with an unclosed bracket. *)
Definition has_bracket (s : string) : bool :=
  existsb (fun c => Ascii.eqb c "[") (list_ascii_of_string s).

Definition bad_pattern (ev : Event) : bool :=
  match ev with EvGlob pattern => has_bracket pattern | _ => false end.

Definition bracket_world : Env :=
  demo_env "sha:B" "" ["vmlinuz-6.5.0-1"] bad_pattern (errors_New "syntax error in pattern").

(** The root [/tmp/abv/r[] with one kernel under [boot]. *)
Definition bracket_root : State :=
  set_fs (<["/tmp/abv/r[/boot/vmlinuz-6.5.0-1" := 40]> ∅) empty_state.

(** ** Invariants of a run *)

(** [st'] comes after [st] if the trace only grew, and by operations that
    release nothing. *)
Definition steady_step (st st' : State) : Prop :=
  exists new,
    trace st' = trace st ++ new /\ Forall (fun ev => is_release ev = false) new.

(** A computation that releases nothing. *)
Definition Steady {A : Type} (m : M A) : Prop :=
  forall st, steady_step st (m st).2.

(** A computation that releases nothing and leaves the queue alone. *)
Definition Calm {A : Type} (m : M A) : Prop :=
  forall st, queue (m st).2 = queue st /\ steady_step st (m st).2.

(** Stages 0 and 1, after which future is mounted. *)
Definition Upgrade_S0_S1 (env : Env) (s : ABSystem) : M (ABRootPartition * Partition) :=
  run_ ResetQueue ;;
  run_ Upgrade_S0 env s ;;
  Upgrade_S1 env.

(** From the pull of stage 2 to the chroot that stage 7 opens. *)
Definition Upgrade_S2_chroot (env : Env) (parts : ABRootPartition * Partition) : M Chroot :=
  do podmanImage <- Upgrade_S2 env ;;
  do containerFile <- Upgrade_S3 env ;;
  run_ Upgrade_S4 env parts.1 containerFile ;;
  run_ Upgrade_S5 env parts.1 podmanImage ;;
  run_ Upgrade_S6 env parts.1 ;;
  run_ generateGrubRecipe env
         (MountPoint (Partition_ parts.1) +:+ "/.system/")
         (Uuid (Partition_ parts.1))
         (IdentifiedAs parts.1) ;;
  NewChroot env
    (MountPoint (Partition_ parts.1) +:+ "/.system/")
    (Uuid (Partition_ parts.1))
    (Device (Partition_ parts.1)).

(** What [Upgrade] does once the chroot is open. *)
Definition Upgrade_after_chroot (env : Env) (parts : ABRootPartition * Partition)
    (chroot : Chroot) : M unit :=
  run_ AddToCleanUpQueue "closeChroot" [VChroot chroot] ;;
  run_ Chroot_ExecuteCmds env chroot ["grub-mkconfig -o /boot/grub/grub.cfg"; "exit"] ;;
  run_ Upgrade_S8 env parts.1 ;;
  do uuid <- Upgrade_S9 env parts.2 ;;
  Upgrade_S10 env uuid.

(** The stages of [Upgrade] before the container file is composed. *)
Definition Upgrade_S0_S2 (env : Env) (s : ABSystem) :
    M (ABRootPartition * Partition * PodmanImage) :=
  run_ ResetQueue ;;
  run_ Upgrade_S0 env s ;;
  do parts <- Upgrade_S1 env ;;
  do podmanImage <- Upgrade_S2 env ;;
  ret (parts, podmanImage).

(** The stages of [Upgrade] before the commit of stage 6. *)
Definition Upgrade_S0_S5 (env : Env) (s : ABSystem) : M (ABRootPartition * Partition) :=
  do found <- Upgrade_S0_S2 env s ;;
  do containerFile <- Upgrade_S3 env ;;
  run_ Upgrade_S4 env found.1.1 containerFile ;;
  run_ Upgrade_S5 env found.1.1 found.2 ;;
  ret found.1.

(** The stages of [Upgrade] after the commit of stage 6. *)
Definition Upgrade_S7_S10 (env : Env) (parts : ABRootPartition * Partition) : M unit :=
  run_ Upgrade_S7 env parts.1 ;;
  run_ Upgrade_S8 env parts.1 ;;
  do uuid <- Upgrade_S9 env parts.2 ;;
  Upgrade_S10 env uuid.

Definition no_update_world : Env :=
  demo_env "sha:A" "" ["vmlinuz-6.5.0-1"] nothing_fails (CollabError "").

Definition pull_fails_world : Env :=
  demo_env "sha:B" "" ["vmlinuz-6.5.0-1"] pull_fails (CollabError "pull failed").

Definition descriptor_refused_world : Env :=
  demo_env "sha:B" "" ["vmlinuz-6.5.0-1"] (exchange_of "/part-future//abimage.abr") (SyscallErrno EXDEV).

Definition rootfs_refused_world : Env :=
  demo_env "sha:B" "" ["vmlinuz-6.5.0-1"] (exchange_of "/part-future//.system/") (SyscallErrno EXDEV).

Definition apt_world : Env :=
  demo_env "sha:B" "apt-get install -y htop" ["vmlinuz-6.5.0-1"] nothing_fails (CollabError "").

(** Future as stage 1 leaves it, mounted on [/part-future/]. *)
Definition demo_mounted : ABRootPartition :=
  {| IdentifiedAs := "b";
     Partition_ :=
       {| MountPoint := "/part-future/"; Uuid := "abc-123"; Device := "/dev/sda3" |} |}.

Definition demo_found : ABRootPartition * Partition * PodmanImage :=
  (demo_mounted, demo_boot, {| ImageDigest := "sha:B" |}).

(** The states a run in [descriptor_refused_world] goes through around
    stage 6. *)
Definition refused_before_S6 : State :=
  (Upgrade_S0_S5 descriptor_refused_world demo_system empty_state).2.

Definition refused_after_rootfs : State :=
  (AtomicSwap descriptor_refused_world
     "/part-future//.system/" "/part-future//.system.new/" refused_before_S6).2.

Definition refused_after_descriptor : State :=
  (AtomicSwap descriptor_refused_world
     "/part-future//abimage.abr" "/part-future//abimage-new.abr" refused_after_rootfs).2.

Definition two_kernels_world : Env :=
  demo_env "sha:B" "" ["vmlinuz-6.10.2"; "vmlinuz-6.9.1"] nothing_fails (CollabError "").

(** ** Reading the recipe *)

(** A directory entry that the pattern [vmlinuz-*] matches: it starts
    with [vmlinuz-], and being one path element it holds no separator. *)
Definition is_kernel_name (name : string) : bool :=
  String.prefix "vmlinuz-" name &&
  forallb (fun c => negb (is_sep c)) (list_ascii_of_string name).

(** The template cut at its five [%s] verbs: down to the entry name,
    from there to the UUID of the [search] line, then the start of the
    [linux] line, its middle, and its end with the start of the [initrd]
    line. *)
Definition piece0 : string :=
  strings_Join (take 39 template_lines) nl +:+ nl +:+ "menuentry '".

Definition piece1 : string :=
  "' --class gnu-linux --class gnu --class os {" +:+ nl +:+
  strings_Join (take 7 (drop 40 template_lines)) nl +:+ nl +:+
  tab +:+ "search --no-floppy --fs-uuid --set=root ".

Definition piece2 : string := nl +:+ tab +:+ "linux   /.system/boot/vmlinuz-".

Definition piece3 : string := " root=UUID=".

Definition piece4 : string :=
  " quiet splash bgrt_disable $vt_handoff" +:+ nl +:+
  tab +:+ "initrd  /.system/boot/initrd.img-".

(** The recipe down to the end of its [search] line. *)
Definition recipe_head (entryName rootUuid : string) : string :=
  piece0 +:+ entryName +:+ piece1 +:+ rootUuid.

(** A piece of a format that holds no verb. *)
Definition no_verb (p : string) : bool :=
  forallb (fun c => negb (Ascii.eqb c "%")) (list_ascii_of_string p).

(** The loop of [getKernelVersion] over the versions themselves. *)
Definition greatest (versions : list string) (start : string) : string :=
  fold_left
    (fun maxVersion version =>
       if string_gt version maxVersion then version else maxVersion)
    versions start.

(** ** More to read off a run *)

(** The host call [SyncEtc] makes for one account file. *)
Definition merge_call (systemEtc file : string) : Event :=
  EvMergeDiff ("/var/lib/abroot/etc/" +:+ file) (systemEtc +:+ "/" +:+ file).

(** The host call [Execute] makes for a command line. *)
Definition chroot_call (c : Chroot) (cmd : string) : Event :=
  EvExec "chroot" [root c; "/bin/sh"; "-c"; cmd].

(** The bind mount [NewChroot] makes for one reserved mount under [root]. *)
Definition bind_call (root mount : string) : Event :=
  EvExec "mount" ["--bind"; mount; root +:+ mount].

(** An entry [RunCleanUpQueue] has a case for. *)
Definition known_entry (f : QueuedFunction) : bool :=
  String.eqb (Name f) "umountFuture" || String.eqb (Name f) "closeChroot".

(** Worlds for the examples below. *)
Definition is_glob (ev : Event) : bool :=
  match ev with EvGlob _ => true | _ => false end.

Definition glob_fails_world : Env :=
  demo_env "sha:B" "" ["vmlinuz-6.5.0-1"] is_glob (CollabError "syntax error in pattern").

(** The third bind mount of [NewChroot], the one of [/proc]. *)
Definition bind_of (mount : string) (ev : Event) : bool :=
  match ev with
  | EvExec name [_; source; _] => String.eqb name "mount" && String.eqb source mount
  | _ => false
  end.

Definition proc_bind_fails_world : Env :=
  demo_env "sha:B" "" ["vmlinuz-6.5.0-1"] (bind_of "/proc") (ExitError 32).

(** A namespace holding the new root tree and two files. *)
Definition rooted_state : State :=
  set_fs (<["/part-future/.system" := 20]>
            (<["/a" := 1]> (<["/b" := 2]> ∅))) empty_state.

(** A queue of entries the drain has no case for. *)
Definition odd_queue : list QueuedFunction :=
  [ {| Name := "umountBoot"; Values := [VString "/tmp/3f6c"] |};
    {| Name := "removeDir"; Values := [] |} ].

(** Operations other than the two [AtomicSwap] asks for. *)
Definition plain (ev : Event) : bool :=
  match ev with
  | EvOpen _ => false
  | EvRenameat2 _ _ _ _ _ => false
  | _ => true
  end.

(** A computation that opens no file and renames nothing. *)
Definition Tame {A : Type} (m : M A) : Prop :=
  forall st,
    fds (m st).2 = fds st /\
    exists new, trace (m st).2 = trace st ++ new /\ Forall (fun ev => plain ev = true) new.

(** The pairs of paths of the rename calls in a trace, and whether each
    call carries [RENAME_EXCHANGE]. *)
Definition renamed (t : list Event) : list (string * string) :=
  flat_map
    (fun ev =>
       match ev with
       | EvRenameat2 _ oldpath _ newpath _ => [(oldpath, newpath)]
       | _ => []
       end) t.

Definition exchanges_only (t : list Event) : bool :=
  forallb
    (fun ev =>
       match ev with
       | EvRenameat2 _ _ _ _ flags => Z.eqb flags RENAME_EXCHANGE
       | _ => true
       end) t.

(** The three exchanges of a transaction: the rootfs and the descriptor
    under the mount point of future, the grub configuration under the
    fresh mount point of boot. *)
Definition three_exchanges (mountPoint uuid : string) : list (string * string) :=
  [ (mountPoint +:+ "/.system/", mountPoint +:+ "/.system.new/");
    (mountPoint +:+ "/abimage.abr", mountPoint +:+ "/abimage-new.abr");
    ("/tmp/" +:+ uuid +:+ "/grub.cfg", "/tmp/" +:+ uuid +:+ "/grub.cfg.future") ].

(** Stage 7 to stage 9, which hand the fresh directory name on to
    stage 10. *)
Definition Upgrade_S7_S9 (env : Env) (parts : ABRootPartition * Partition) : M string :=
  run_ Upgrade_S7 env parts.1 ;;
  run_ Upgrade_S8 env parts.1 ;;
  Upgrade_S9 env parts.2.

(** A computation that keeps a well-typed queue well typed. *)
Definition Typed {A : Type} (m : M A) : Prop :=
  forall st,
    Forall (fun f => well_typed_entry f = true) (queue st) ->
    Forall (fun f => well_typed_entry f = true) (queue (m st).2).

(** The operation [ev], asked after the operations [h], failed with [e]:
    by the host's answer, by the path lookup of the operation itself, or
    by one of the two errors the program makes itself, after the
    registry query and after the glob. *)
Definition failed (env : Env) (h : list Event) (ev : Event) (e : error) : Prop :=
  host_err env h ev = Some e \/
  (exists digest, ev = EvHasUpdate digest /\ e = errors_New "no update available") \/
  (exists pattern, ev = EvGlob pattern /\ e = errors_New "could not get kernel version") \/
  (exists name, ev = EvStat name /\ e = PathError "stat" name ENOENT) \/
  (exists name,
     ev = EvOpen name /\
     (e = PathError "open" name ENOENT \/ e = PathError "open" name ENOTDIR)) \/
  (exists fd1 a fd2 b flags,
     ev = EvRenameat2 fd1 a fd2 b flags /\
     (e = SyscallErrno ENOENT \/ e = SyscallErrno EINVAL \/
      e = SyscallErrno ENOTDIR \/ e = SyscallErrno EBADF)).

(** A computation that, when it fails, has just asked for the operation
    that failed and returns that operation's error. *)
Definition Stops (env : Env) {A : Type} (m : M A) : Prop :=
  forall st e,
    (m st).1 = inl e ->
    exists h ev, trace (m st).2 = h ++ [ev] /\ failed env h ev e.

(** A world in which a later stage fails. *)
Definition grub_mkconfig_fails (ev : Event) : bool :=
  match ev with
  | EvExec name [_; _; _; cmd] =>
      String.eqb name "chroot" && String.eqb cmd "grub-mkconfig -o /boot/grub/grub.cfg"
  | _ => false
  end.

Definition grub_fails_world : Env :=
  demo_env "sha:B" "" ["vmlinuz-6.5.0-1"] grub_mkconfig_fails (ExitError 1).

(** ** The monad's equations *)

Lemma bind_inr {A B : Type} (m : M A) (k : A -> M B) (st st' : State) (a : A) :
  m st = (inr a, st') -> bind m k st = k a st'.
Proof. intros H. unfold bind. by rewrite H. Qed.

Lemma run_snd (m : M unit) (st : State) : (run m st).2 = (m st).2.
Proof. reflexivity. Qed.

Lemma run_eq (m : M unit) (st st' : State) (r : error + unit) :
  m st = (r, st') -> run m st = (as_error r, st').
Proof. intros H. unfold run. by rewrite H. Qed.

Lemma bind_inl {A B : Type} (m : M A) (k : A -> M B) (st st' : State) (e : error) :
  m st = (inl e, st') -> bind m k st = (inl e, st').
Proof. intros H. unfold bind. by rewrite H. Qed.

Section AtomicSwapFacts.

Variable env : Env.

Lemma namei_found (m : gmap string Inode) (name : string) (i : Inode) :
  namei env m name = inr i -> m !! filepath_Clean name = Some i.
Proof.
  unfold namei. destruct (String.eqb name ""); [done|].
  destruct (existsb _ _); [done|].
  destruct (m !! filepath_Clean name) as [j|]; [|done].
  destruct (ends_in_sep name && negb (is_dir env j)); [done|]. by intros [= ->].
Qed.

Lemma namei_not_empty (m : gmap string Inode) (name : string) (i : Inode) :
  namei env m name = inr i -> String.eqb name "" = false.
Proof. unfold namei. by destruct (String.eqb name ""). Qed.

Lemma os_Open_done (name : string) (st : State) :
  open_error env st name = None ->
  os_Open env name st = (inr (Z.of_nat (first_fd env + length (fds st))), opened name st).
Proof. intros H. unfold os_Open. by rewrite H. Qed.

Lemma os_Open_failed (name : string) (st : State) (e : error) :
  open_error env st name = Some e ->
  os_Open env name st = (inl e, log (EvOpen name) st).
Proof. intros H. unfold os_Open. by rewrite H. Qed.

Lemma open_error_none (name : string) (st : State) :
  open_error env st name = None ->
  host_err env (trace st) (EvOpen name) = None /\
  exists i, namei env (fs st) name = inr i.
Proof.
  unfold open_error. destruct (host_err env _ _); [done|].
  destruct (namei env (fs st) name) as [errno|i]; [done|]. intros _. by eauto.
Qed.

Lemma exchange_lookup (a b : string) (m : gmap string Inode) (i j : Inode) :
  m !! a = Some i -> m !! b = Some j ->
  exchange a b m !! a = Some j /\ exchange a b m !! b = Some i.
Proof.
  intros Ha Hb. unfold exchange. rewrite Ha, Hb.
  destruct (decide (a = b)) as [->|Hne].
  - rewrite Ha in Hb. injection Hb as ->. by rewrite lookup_insert_eq.
  - rewrite lookup_insert_eq. split; [done|].
    rewrite lookup_insert_ne by done. by rewrite lookup_insert_eq.
Qed.

(** The descriptor [AtomicSwap] passes with a path is the one it has just
    opened the path under. *)
Lemma at_dir_own (st : State) (before after : list string) (path : string) (i : Inode) :
  fds st = before ++ path :: after ->
  namei env (fs st) path = inr i ->
  at_dir env st (Z.of_nat (first_fd env + length before)) path = swap_target env (fs st) path.
Proof.
  intros Hfds Hi. unfold at_dir, swap_target.
  rewrite (namei_not_empty _ _ _ Hi).
  destruct (is_abs path); [done|].
  replace (Z.eqb (Z.of_nat (first_fd env + length before)) AT_FDCWD) with false
    by (symmetry; apply Z.eqb_neq; unfold AT_FDCWD; lia).
  replace (Z.ltb (Z.of_nat (first_fd env + length before)) (Z.of_nat (first_fd env)))
    with false by (symmetry; apply Z.ltb_ge; lia).
  replace (Z.to_nat (Z.of_nat (first_fd env + length before) - Z.of_nat (first_fd env)))
    with (length before) by lia.
  rewrite Hfds, list_lookup_middle by done. by rewrite Hi.
Qed.

(** [AtomicSwap], run: the two opens, then the one rename call. *)
Lemma AtomicSwap_run (src dst : string) (st : State) :
  let call :=
    EvRenameat2 (Z.of_nat (first_fd env + length (fds st))) src
                (Z.of_nat (first_fd env + length (fds st ++ [src]))) dst RENAME_EXCHANGE in
  let st2 := opened dst (opened src st) in
  AtomicSwap env src dst st =
    match open_error env st src with
    | Some e => (Some e, log (EvOpen src) st)
    | None =>
        match open_error env (opened src st) dst with
        | Some e => (Some e, log (EvOpen dst) (opened src st))
        | None =>
            match swap_target env (fs st) src, swap_target env (fs st) dst with
            | inl errno, _ => (Some (SyscallErrno errno), log call st2)
            | inr _, inl errno => (Some (SyscallErrno errno), log call st2)
            | inr a, inr b =>
                match host_err env (trace st2) call with
                | Some e => (Some e, log call st2)
                | None =>
                    match namei env (fs st) a, namei env (fs st) b with
                    | inl errno, _ => (Some (SyscallErrno errno), log call st2)
                    | inr _, inl errno => (Some (SyscallErrno errno), log call st2)
                    | inr _, inr _ =>
                        (None,
                         log call
                           (set_fs
                              (exchange (filepath_Clean a) (filepath_Clean b) (fs st))
                              st2))
                    end
                end
            end
        end
    end.
Proof.
  cbv zeta. unfold AtomicSwap. 
  destruct (open_error env st src) as [e|] eqn:Hs.
  { apply (run_eq _ _ _ (inl e)). unfold AtomicSwap_m.
    by rewrite (bind_inl _ _ _ _ _ (os_Open_failed src st e Hs)). }
  destruct (open_error env (opened src st) dst) as [e|] eqn:Hd.
  { apply (run_eq _ _ _ (inl e)). unfold AtomicSwap_m.
    rewrite (bind_inr _ _ _ _ _ (os_Open_done src st Hs)).
    by rewrite (bind_inl _ _ _ _ _ (os_Open_failed dst _ e Hd)). }
  destruct (open_error_none _ _ Hs) as (_ & i & Hi).
  destruct (open_error_none _ _ Hd) as (_ & j & Hj).
  set (st2 := opened dst (opened src st)).
  assert (Ha : at_dir env st2 (Z.of_nat (first_fd env + length (fds st))) src =
               swap_target env (fs st) src).
  { apply (at_dir_own st2 (fds st) [dst] src i); [|exact Hi].
    subst st2. unfold opened. cbn [fds]. by rewrite <- app_assoc. }
  assert (Hb : at_dir env st2 (Z.of_nat (first_fd env + length (fds st ++ [src]))) dst =
               swap_target env (fs st) dst).
  { apply (at_dir_own st2 (fds st ++ [src]) [] dst j); [|exact Hj]. done. }
  assert (Hrun : AtomicSwap_m env src dst st =
            unix_Renameat2 env (Z.of_nat (first_fd env + length (fds st))) src
              (Z.of_nat (first_fd env + length (fds st ++ [src]))) dst RENAME_EXCHANGE st2).
  { unfold AtomicSwap_m.
    rewrite (bind_inr _ _ _ _ _ (os_Open_done src st Hs)).
    by rewrite (bind_inr _ _ _ _ _ (os_Open_done dst _ Hd)). }
  unfold run. rewrite Hrun. unfold unix_Renameat2.
  change (negb (Z.eqb RENAME_EXCHANGE RENAME_EXCHANGE)) with false. cbv iota.
  rewrite Ha, Hb. change (fs st2) with (fs st).
  destruct (swap_target env (fs st) src) as [errno|a]; [done|].
  destruct (swap_target env (fs st) dst) as [errno|b]; [done|].
  destruct (host_err env (trace st2) _) as [e|]; [done|].
  destruct (namei env (fs st) a) as [errno|i']; [done|].
  by destruct (namei env (fs st) b) as [errno|j'].
Qed.

(** What an [AtomicSwap] that returned [nil] has done. *)
Lemma AtomicSwap_accepted (src dst : string) (st st1 : State) :
  AtomicSwap env src dst st = (None, st1) ->
  exists a b i j,
    swap_target env (fs st) src = inr a /\
    swap_target env (fs st) dst = inr b /\
    fs st !! filepath_Clean a = Some i /\
    fs st !! filepath_Clean b = Some j /\
    fs st1 = exchange (filepath_Clean a) (filepath_Clean b) (fs st) /\
    fds st1 = fds st ++ [src; dst] /\
    queue st1 = queue st /\
    trace st1 =
      trace st ++
      [EvOpen src; EvOpen dst;
       EvRenameat2 (Z.of_nat (first_fd env + length (fds st))) src
                   (Z.of_nat (first_fd env + length (fds st ++ [src]))) dst RENAME_EXCHANGE].
Proof.
  rewrite AtomicSwap_run. cbv zeta.
  destruct (open_error env st src); [done|].
  destruct (open_error env (opened src st) dst); [done|].
  destruct (swap_target env (fs st) src) as [errno|a]; [done|].
  destruct (swap_target env (fs st) dst) as [errno|b]; [done|].
  destruct (host_err env _ _); [done|].
  destruct (namei env (fs st) a) as [errno|i] eqn:Hi; [done|].
  destruct (namei env (fs st) b) as [errno|j] eqn:Hj; [done|].
  intros [= <-]. exists a, b, i, j. cbn [fs fds queue trace log set_fs opened].
  split; [done|]. split; [done|].
  split; [by apply namei_found|]. split; [by apply namei_found|].
  split; [done|]. split; [by rewrite <- app_assoc|]. split; [done|].
  by rewrite <- !app_assoc.
Qed.

(** What an [AtomicSwap] that returned an error has left: the namespace
    as it was, and of its three operations the first ones, up to the one
    that failed. *)
Lemma AtomicSwap_refused (src dst : string) (st st1 : State) (e : error) :
  AtomicSwap env src dst st = (Some e, st1) ->
  fs st1 = fs st /\ queue st1 = queue st /\
  exists new more,
    trace st1 = trace st ++ EvOpen src :: new /\
    new ++ more =
      [EvOpen dst;
       EvRenameat2 (Z.of_nat (first_fd env + length (fds st))) src
                   (Z.of_nat (first_fd env + length (fds st ++ [src]))) dst RENAME_EXCHANGE].
Proof.
  rewrite AtomicSwap_run. cbv zeta.
  set (call := EvRenameat2 _ _ _ _ _).
  assert (Hthree : forall e' : error,
            (Some e', log call (opened dst (opened src st))) = (Some e, st1) ->
            fs st1 = fs st /\ queue st1 = queue st /\
            exists new more,
              trace st1 = trace st ++ EvOpen src :: new /\
              new ++ more = [EvOpen dst; call]).
  { intros e' [= _ <-]. split; [done|]. split; [done|].
    exists [EvOpen dst; call], []. cbn [trace log opened].
    by rewrite <- !app_assoc. }
  destruct (open_error env st src).
  { intros [= _ <-]. split; [done|]. split; [done|]. by exists [], [EvOpen dst; call]. }
  destruct (open_error env (opened src st) dst).
  { intros [= _ <-]. split; [done|]. split; [done|].
    exists [EvOpen dst], [call]. cbn [trace log opened]. by rewrite <- app_assoc. }
  destruct (swap_target env (fs st) src) as [errno|a]; [apply Hthree|].
  destruct (swap_target env (fs st) dst) as [errno|b]; [apply Hthree|].
  destruct (host_err env _ _); [apply Hthree|].
  destruct (namei env (fs st) a) as [errno|i]; [apply Hthree|].
  destruct (namei env (fs st) b) as [errno|j]; [apply Hthree|]. done.
Qed.

Lemma swap_target_abs (m : gmap string Inode) (path : string) :
  is_abs path = true -> swap_target env m path = inr path.
Proof. intros H. unfold swap_target. by rewrite H. Qed.

(** C8 (as the code has it). [AtomicSwap(src, dst)] opens [src], then
    [dst].  When an open fails, because the path does not exist or the
    world refuses it, it returns the error of that open and has done
    nothing else: no rename call is made and the namespace is unchanged.
    When both are open the only rename call it makes is one [Renameat2]
    with [RENAME_EXCHANGE] on the two paths, and an error leaves the
    namespace unchanged.  For absolute paths the two names are exchanged
    exactly when the kernel accepts that call; when it refuses (another
    mount, no exchange-rename on this filesystem) its error is
    returned. *)
Theorem AtomicSwap_single_exchange (src dst : string) (st : State) :
  let res := AtomicSwap env src dst st in
  match host_err env (trace st) (EvOpen src), namei env (fs st) src with
  | Some e, _ => res = (Some e, log (EvOpen src) st)
  | None, inl errno => res = (Some (PathError "open" src errno), log (EvOpen src) st)
  | None, inr i =>
      match host_err env (trace st ++ [EvOpen src]) (EvOpen dst), namei env (fs st) dst with
      | Some e, _ => res = (Some e, log (EvOpen dst) (opened src st))
      | None, inl errno =>
          res = (Some (PathError "open" dst errno), log (EvOpen dst) (opened src st))
      | None, inr j =>
          exists fd1 fd2,
            let call := EvRenameat2 fd1 src fd2 dst RENAME_EXCHANGE in
            trace res.2 = trace st ++ [EvOpen src; EvOpen dst; call] /\
            rename_calls [EvOpen src; EvOpen dst; call] = [call] /\
            fds res.2 = fds st ++ [src; dst] /\
            queue res.2 = queue st /\
            (res.1 <> None -> fs res.2 = fs st) /\
            (is_abs src = true -> is_abs dst = true ->
             match host_err env (trace st ++ [EvOpen src; EvOpen dst]) call with
             | Some e => res.1 = Some e
             | None =>
                 res.1 = None /\
                 fs res.2 = exchange (filepath_Clean src) (filepath_Clean dst) (fs st) /\
                 fs res.2 !! filepath_Clean src = Some j /\
                 fs res.2 !! filepath_Clean dst = Some i
             end)
      end
  end.
Proof.
  cbv zeta. rewrite AtomicSwap_run. cbv zeta. unfold open_error.
  destruct (host_err env (trace st) (EvOpen src)) as [e|]; [done|].
  destruct (namei env (fs st) src) as [errno|i] eqn:Hi; [done|].
  change (trace (opened src st)) with (trace st ++ [EvOpen src]).
  change (fs (opened src st)) with (fs st).
  destruct (host_err env (trace st ++ [EvOpen src]) (EvOpen dst)) as [e|]; [done|].
  destruct (namei env (fs st) dst) as [errno|j] eqn:Hj; [done|].
  set (call := EvRenameat2 _ _ _ _ _).
  set (st2 := opened dst (opened src st)).
  assert (Ht2 : trace st2 = trace st ++ [EvOpen src; EvOpen dst])
    by (subst st2; cbn [trace opened]; by rewrite <- app_assoc).
  assert (Hfd2 : fds st2 = fds st ++ [src; dst])
    by (subst st2; cbn [fds opened]; by rewrite <- app_assoc).
  assert (Hlog : trace (log call st2) = trace st ++ [EvOpen src; EvOpen dst; call])
    by (cbn [trace log]; rewrite Ht2; by rewrite <- app_assoc).
  exists (Z.of_nat (first_fd env + length (fds st))), (Z.of_nat (first_fd env + length (fds st ++ [src]))).
  cbv zeta. fold call. rewrite <- Ht2.
  assert (Hfail : forall e : error,
            trace (Some e, log call st2).2 = trace st ++ [EvOpen src; EvOpen dst; call] /\
            rename_calls [EvOpen src; EvOpen dst; call] = [call] /\
            fds (Some e, log call st2).2 = fds st ++ [src; dst] /\
            queue (Some e, log call st2).2 = queue st /\
            ((Some e, log call st2).1 <> None -> fs (Some e, log call st2).2 = fs st)).
  { intros e. by repeat split. }
  destruct (swap_target env (fs st) src) as [errno|a] eqn:Ha.
  { destruct (Hfail (SyscallErrno errno)) as (? & ? & ? & ? & ?).
    repeat (split; [done|]). intros Hs. by rewrite (swap_target_abs _ _ Hs) in Ha. }
  destruct (swap_target env (fs st) dst) as [errno|b] eqn:Hb.
  { destruct (Hfail (SyscallErrno errno)) as (? & ? & ? & ? & ?).
    repeat (split; [done|]). intros _ Hd. by rewrite (swap_target_abs _ _ Hd) in Hb. }
  destruct (host_err env (trace st2) call) as [e|].
  { destruct (Hfail e) as (? & ? & ? & ? & ?). by repeat (split; [done|]). }
  destruct (namei env (fs st) a) as [errno|i'] eqn:Hia.
  { destruct (Hfail (SyscallErrno errno)) as (? & ? & ? & ? & ?).
    repeat (split; [done|]). intros Hs. rewrite (swap_target_abs _ _ Hs) in Ha.
    injection Ha as <-. by rewrite Hi in Hia. }
  destruct (namei env (fs st) b) as [errno|j'] eqn:Hjb.
  { destruct (Hfail (SyscallErrno errno)) as (? & ? & ? & ? & ?).
    repeat (split; [done|]). intros _ Hd. rewrite (swap_target_abs _ _ Hd) in Hb.
    injection Hb as <-. by rewrite Hj in Hjb. }
  cbn [fst snd]. split; [exact Hlog|]. split; [done|]. split; [exact Hfd2|].
  split; [done|]. split; [done|]. intros Hs Hd.
  rewrite (swap_target_abs _ _ Hs) in Ha. rewrite (swap_target_abs _ _ Hd) in Hb.
  injection Ha as <-. injection Hb as <-.
  rewrite Hi in Hia. rewrite Hj in Hjb. injection Hia as <-. injection Hjb as <-.
  split; [done|]. split; [done|].
  apply exchange_lookup; by apply namei_found.
Qed.

End AtomicSwapFacts.

(** C8: the claim fails in two ways.  For two regular files named by
    relative paths, both there and on one filesystem, [AtomicSwap]
    returns [ENOTDIR] and exchanges nothing: the descriptor that goes
    with each path is the one of the file itself, which is no directory.
    And on a filesystem without exchange-rename it returns the kernel's
    [EINVAL] for two files that are both there, and exchanges nothing:
    the code has no other way to swap. *)
Lemma AtomicSwap_both_exist_no_swap :
  namei calm_world (fs cwd_files) "a" = inr 1 /\
  namei calm_world (fs cwd_files) "b" = inr 2 /\
  (AtomicSwap calm_world "a" "b" cwd_files).1 = Some (SyscallErrno ENOTDIR) /\
  fs (AtomicSwap calm_world "a" "b" cwd_files).2 = fs cwd_files /\
  namei no_exchange_world (fs root_files) "/a" = inr 1 /\
  namei no_exchange_world (fs root_files) "/b" = inr 2 /\
  (AtomicSwap no_exchange_world "/a" "/b" root_files).1 = Some (SyscallErrno EINVAL) /\
  fs (AtomicSwap no_exchange_world "/a" "/b" root_files).2 = fs root_files.
Proof. repeat split; vm_compute; reflexivity. Qed.

(** The same two files under the root, on a filesystem that has
    exchange-rename: the names are exchanged. *)
Example AtomicSwap_absolute_paths :
  (AtomicSwap calm_world "/a" "/b" root_files).1 = None /\
  fs (AtomicSwap calm_world "/a" "/b" root_files).2 !! "/a" = Some 2 /\
  fs (AtomicSwap calm_world "/a" "/b" root_files).2 !! "/b" = Some 1 /\
  exists fd1 fd2,
    rename_calls (trace (AtomicSwap calm_world "/a" "/b" root_files).2) =
      [EvRenameat2 fd1 "/a" fd2 "/b" RENAME_EXCHANGE].
Proof.
  split; [vm_compute; reflexivity|]. split; [vm_compute; reflexivity|].
  split; [vm_compute; reflexivity|]. eexists _, _. vm_compute. reflexivity.
Qed.

(** ** Loops over host calls, [Close] and the cleanup queue *)

Section CleanUpFacts.

Variable env : Env.

Lemma host_eq (ev : Event) (st : State) :
  host env ev st =
    (match host_err env (trace st) ev with
     | Some e => inl e
     | None => inr tt
     end,
     log ev (set_fs (host_fs env (trace st) ev (fs st)) st)).
Proof. unfold host, host_val. by destruct (host_err env (trace st) ev). Qed.

(** *** Calls the world accepts *)

Lemma accepted_app (h a b : list Event) :
  accepted env h (a ++ b) = accepted env h a && accepted env (h ++ a) b.
Proof.
  revert h. induction a as [|ev a IH]; intros h; simpl.
  - by rewrite app_nil_r.
  - destruct (host_err env h ev); [done|]. rewrite IH. by rewrite <- app_assoc.
Qed.

(** When not every call is accepted, there is a first one refused. *)
Lemma accepted_first (h calls : list Event) :
  accepted env h calls = false ->
  exists pre ev post e,
    calls = pre ++ ev :: post /\
    accepted env h pre = true /\
    host_err env (h ++ pre) ev = Some e.
Proof.
  revert h. induction calls as [|ev calls IH]; intros h; simpl; [done|].
  destruct (host_err env h ev) as [e|] eqn:He.
  - intros _. exists [], ev, calls, e. by rewrite app_nil_r.
  - intros H. destruct (IH _ H) as (pre & ev' & post & e & -> & Ha & Hf).
    exists (ev :: pre), ev', post, e. simpl. rewrite He.
    split; [done|]. split; [done|]. by rewrite <- app_assoc in Hf.
Qed.

Lemma accepted_spec (h calls : list Event) :
  accepted env h calls = true <->
  forall done ev rest, calls = done ++ ev :: rest -> host_err env (h ++ done) ev = None.
Proof.
  split.
  - intros Ha done ev rest ->. rewrite accepted_app in Ha.
    apply andb_true_iff in Ha as [_ Ha]. simpl in Ha.
    by destruct (host_err env (h ++ done) ev).
  - intros H. destruct (accepted env h calls) eqn:Ha; [done|].
    destruct (accepted_first _ _ Ha) as (pre & ev & post & e & Hc & _ & Hf).
    by rewrite (H _ _ _ Hc) in Hf.
Qed.

(** *** Loops over host calls *)

(** A loop of host calls issues them in list order and stops at the
    first one that fails, whose error it returns. *)
Lemma forM_host {A : Type} (f : A -> Event) (l : list A) (st : State) :
  let res := forM_ l (fun x => host env (f x)) st in
  queue res.2 = queue st /\
  ((res.1 = inr tt /\ trace res.2 = trace st ++ map f l) \/
   (exists pre x post e,
      l = pre ++ x :: post /\ res.1 = inl e /\
      trace res.2 = trace st ++ map f (pre ++ [x]) /\
      host_err env (trace st ++ map f pre) (f x) = Some e)).
Proof.
  cbv zeta. revert st. induction l as [|x l IH]; intros st; simpl.
  - split; [done|]. left. by rewrite app_nil_r.
  - unfold bind. rewrite host_eq.
    destruct (host_err env (trace st) (f x)) as [e|] eqn:He; simpl.
    + split; [done|]. right. exists [], x, l, e. simpl.
      by rewrite app_nil_r.
    + set (st1 := log (f x) (set_fs _ st)).
      destruct (IH st1) as [Hq [[Hr Ht]|(pre & y & post & e & -> & Hr & Ht & Hf)]].
      * split; [by rewrite Hq|]. left. split; [done|].
        rewrite Ht. simpl. by rewrite <- app_assoc.
      * split; [by rewrite Hq|]. right. exists (x :: pre), y, post, e.
        split; [done|]. split; [done|]. split.
        -- rewrite Ht. simpl. by rewrite <- app_assoc.
        -- simpl in Hf. rewrite <- app_assoc in Hf. exact Hf.
Qed.

(** When the world accepts every call, the loop makes them all and
    returns [nil]. *)
Lemma forM_host_all {A : Type} (f : A -> Event) (l : list A) (st : State) :
  accepted env (trace st) (map f l) = true ->
  let res := forM_ l (fun x => host env (f x)) st in
  res.1 = inr tt /\ trace res.2 = trace st ++ map f l /\
  queue res.2 = queue st /\ fds res.2 = fds st.
Proof.
  cbv zeta. revert st. induction l as [|x l IH]; intros st; simpl.
  - intros _. by rewrite app_nil_r.
  - unfold bind. rewrite host_eq.
    destruct (host_err env (trace st) (f x)) as [e|]; [done|]. intros Ha.
    set (st1 := log (f x) (set_fs _ st)).
    destruct (IH st1 Ha) as (Hr & Ht & Hq & Hfd).
    split; [done|]. split; [|by rewrite Hq, Hfd].
    rewrite Ht. simpl. by rewrite <- app_assoc.
Qed.

(** When the world refuses a call, having accepted the ones before it,
    the loop stops there and returns that call's error. *)
Lemma forM_host_refused {A : Type} (f : A -> Event) (pre post : list A) (x : A)
    (st : State) (e : error) :
  accepted env (trace st) (map f pre) = true ->
  host_err env (trace st ++ map f pre) (f x) = Some e ->
  let res := forM_ (pre ++ x :: post) (fun y => host env (f y)) st in
  res.1 = inl e /\ trace res.2 = trace st ++ map f (pre ++ [x]) /\
  queue res.2 = queue st /\ fds res.2 = fds st.
Proof.
  cbv zeta. revert st. induction pre as [|y pre IH]; intros st; simpl.
  - rewrite app_nil_r. intros _ He. unfold bind. rewrite host_eq, He. done.
  - unfold bind. rewrite host_eq.
    destruct (host_err env (trace st) (f y)) as [e'|]; [done|]. intros Ha He.
    set (st1 := log (f y) (set_fs _ st)).
    destruct (IH st1 Ha) as (Hr & Ht & Hq & Hfd).
    { subst st1. cbn [trace log set_fs]. by rewrite <- app_assoc. }
    split; [done|]. split; [|by rewrite Hq, Hfd].
    rewrite Ht. simpl. by rewrite <- app_assoc.
Qed.

(** The two together: what the loop does is fixed by the first call the
    world refuses, if there is one. *)
Lemma forM_host_first {A : Type} (f : A -> Event) (l : list A) (st : State) :
  let res := forM_ l (fun x => host env (f x)) st in
  queue res.2 = queue st /\ fds res.2 = fds st /\
  ((accepted env (trace st) (map f l) = true /\
    res.1 = inr tt /\ trace res.2 = trace st ++ map f l) \/
   (exists pre x post e,
      l = pre ++ x :: post /\
      accepted env (trace st) (map f pre) = true /\
      host_err env (trace st ++ map f pre) (f x) = Some e /\
      res.1 = inl e /\
      trace res.2 = trace st ++ map f (pre ++ [x]))).
Proof.
  cbv zeta. destruct (accepted env (trace st) (map f l)) eqn:Ha.
  - destruct (forM_host_all f l st Ha) as (Hr & Ht & Hq & Hfd).
    split; [done|]. split; [done|]. by left.
  - destruct (accepted_first _ _ Ha) as (epre & ev & epost & e & Hl & Hpre & Hf).
    apply map_eq_app in Hl as (pre & xs & -> & <- & Hxs).
    apply map_eq_cons in Hxs as (x & post & -> & <- & _).
    destruct (forM_host_refused f pre post x st e Hpre Hf) as (Hr & Ht & Hq & Hfd).
    split; [done|]. split; [done|]. right. by exists pre, x, post, e.
Qed.

Lemma Chroot_Close_eq (c : Chroot) :
  Chroot_Close env c = forM_ ReservedMounts (fun mount => host env (umount_call c mount)).
Proof. reflexivity. Qed.

(** C6 (as the code has it). [Close] runs [umount] on the reserved mounts
    in the order of [ReservedMounts], the order [NewChroot] mounted them
    in.  When the world accepts all five it makes all five and returns
    [nil]; otherwise it stops at the first [umount] that fails, returns
    that error and attempts none of the mounts after it. *)
Theorem Chroot_Close_mount_order_first_error (c : Chroot) (st : State) :
  let res := Chroot_Close env c st in
  (accepted env (trace st)
     (map (umount_call c) ["/dev"; "/dev/pts"; "/proc"; "/run"; "/sys"]) = true /\
   res.1 = inr tt /\
   trace res.2 = trace st ++ map (umount_call c) ["/dev"; "/dev/pts"; "/proc"; "/run"; "/sys"]) \/
  (exists pre mount post e,
     ["/dev"; "/dev/pts"; "/proc"; "/run"; "/sys"] = pre ++ mount :: post /\
     accepted env (trace st) (map (umount_call c) pre) = true /\
     host_err env (trace st ++ map (umount_call c) pre) (umount_call c mount) = Some e /\
     res.1 = inl e /\
     trace res.2 = trace st ++ map (umount_call c) (pre ++ [mount])).
Proof.
  cbv zeta. rewrite Chroot_Close_eq.
  destruct (forM_host_first (umount_call c) ReservedMounts st) as (_ & _ & H). exact H.
Qed.

Lemma Partition_Unmount_eq (p : Partition) (st : State) :
  Partition_Unmount env p st =
    (match host_err env (trace st) (EvUnmount p) with
     | Some e => inl e
     | None => inr tt
     end,
     log (EvUnmount p) (set_fs (host_fs env (trace st) (EvUnmount p) (fs st)) st)).
Proof. apply host_eq. Qed.

(** *** The loop of [RunCleanUpQueue] *)

(** One well-typed entry whose operations the world accepts. *)
Lemma run_entries_step (f : QueuedFunction) (q : list QueuedFunction) (st : State) :
  well_typed_entry f = true ->
  accepted env (trace st) (entry_events f) = true ->
  exists st1,
    run_entries env (f :: q) st = run_entries env q st1 /\
    trace st1 = trace st ++ entry_events f /\
    queue st1 = queue st.
Proof.
  unfold well_typed_entry, entry_events. simpl.
  destruct (String.eqb (Name f) "umountFuture").
  - destruct (Values f) as [|[fp|c|s] vs]; try done. intros _. simpl.
    rewrite Partition_Unmount_eq.
    destruct (host_err env (trace st) (EvUnmount (Partition_ fp))); [done|].
    intros _. by eexists.
  - destruct (String.eqb (Name f) "closeChroot").
    + destruct (Values f) as [|[fp|c|s] vs]; try done. intros _ Ha.
      rewrite Chroot_Close_eq.
      destruct (forM_host_all (umount_call c) ReservedMounts st Ha) as (Hr & Ht & Hq & _).
      destruct (forM_ ReservedMounts _ st) as [r st1]. cbn [fst snd] in *. subst r.
      by exists st1.
    + intros _ _. exists st. by rewrite app_nil_r.
Qed.

(** Entries that are well typed and whose operations the world accepts
    are run in full, one after the other. *)
Lemma run_entries_through (done q : list QueuedFunction) (st : State) :
  Forall (fun f => well_typed_entry f = true) done ->
  accepted env (trace st) (flat_map entry_events done) = true ->
  exists st1,
    run_entries env (done ++ q) st = run_entries env q st1 /\
    trace st1 = trace st ++ flat_map entry_events done /\
    queue st1 = queue st.
Proof.
  revert st. induction done as [|f done IH]; intros st Hwt Ha.
  - exists st. by rewrite app_nil_r.
  - inversion Hwt as [|? ? Hf Hd]; subst. cbn [flat_map] in Ha.
    rewrite accepted_app in Ha. apply andb_true_iff in Ha as [Ha1 Ha2].
    destruct (run_entries_step f (done ++ q) st Hf Ha1) as (st1 & Hrun & Ht & Hq).
    rewrite <- Ht in Ha2.
    destruct (IH st1 Hd Ha2) as (st2 & Hrun2 & Ht2 & Hq2).
    exists st2. cbn [app]. rewrite Hrun, Hrun2. split; [done|].
    split; [|by rewrite Hq2]. rewrite Ht2, Ht. cbn [flat_map]. by rewrite <- app_assoc.
Qed.

(** The entry at which an operation is refused. *)
Lemma run_entries_refused (f : QueuedFunction) (q : list QueuedFunction) (st : State)
    (pre post : list Event) (ev : Event) (e : error) :
  entry_events f = pre ++ ev :: post ->
  accepted env (trace st) pre = true ->
  host_err env (trace st ++ pre) ev = Some e ->
  (run_entries env (f :: q) st).1 = Returned (Some e) /\
  trace (run_entries env (f :: q) st).2 = trace st ++ pre ++ [ev] /\
  queue (run_entries env (f :: q) st).2 = queue st.
Proof.
  unfold entry_events. cbn [run_entries].
  destruct (String.eqb (Name f) "umountFuture").
  - destruct (Values f) as [|[fp|c|s] vs]; try by destruct pre.
    destruct pre as [|ev' pre]; [|by destruct pre].
    intros [= <- <-] _. rewrite app_nil_r. intros He.
    rewrite Partition_Unmount_eq, He. done.
  - destruct (String.eqb (Name f) "closeChroot"); [|by destruct pre].
    destruct (Values f) as [|[fp|c|s] vs]; try by destruct pre.
    intros Hev Ha He.
    apply map_eq_app in Hev as (mpre & ms & Hl & <- & Hms).
    apply map_eq_cons in Hms as (m & mpost & -> & <- & _).
    rewrite Chroot_Close_eq, Hl.
    destruct (forM_host_refused (umount_call c) mpre mpost m st e Ha He)
      as (Hr & Ht & Hq & _).
    destruct (forM_ (mpre ++ m :: mpost) _ st) as [r st1]. cbn [fst snd] in *. subst r.
    cbn [fst snd]. split; [done|]. split; [|done]. by rewrite Ht, map_app.
Qed.

(** The entry whose value has the wrong type. *)
Lemma run_entries_ill_typed (f : QueuedFunction) (q : list QueuedFunction) (st : State) :
  well_typed_entry f = false -> run_entries env (f :: q) st = (Panicked, st).
Proof.
  unfold well_typed_entry. simpl.
  destruct (String.eqb (Name f) "umountFuture").
  - by destruct (Values f) as [|[fp|c|s] vs].
  - destruct (String.eqb (Name f) "closeChroot"); [|done].
    by destruct (Values f) as [|[fp|c|s] vs].
Qed.

Lemma drained_cons (f : QueuedFunction) (q : list QueuedFunction)
    (st st1 st' : State) (o : Outcome) :
  well_typed_entry f = true ->
  accepted env (trace st) (entry_events f) = true ->
  trace st1 = trace st ++ entry_events f ->
  drained env q st1 o st' ->
  drained env (f :: q) st o st'.
Proof.
  intros Hwt Hacc H1 Hd.
  destruct Hd as [st' Hq Ha Ht|st' e done g rest pre ev post Hq Hw He Ha Hf Ht
                 |st' done g rest Hq Hw Hg Ha Ht].
  - apply drained_all.
    + by constructor.
    + cbn [flat_map]. rewrite accepted_app, Hacc. by rewrite <- H1.
    + rewrite Ht, H1. simpl. by rewrite <- app_assoc.
  - apply (drained_error _ _ _ st' e (f :: done) g rest pre ev post).
    + by rewrite Hq.
    + by constructor.
    + done.
    + cbn [flat_map]. rewrite <- app_assoc, accepted_app, Hacc. by rewrite <- H1.
    + rewrite H1 in Hf. simpl. by rewrite <- !app_assoc in *.
    + rewrite Ht, H1. simpl. by rewrite <- !app_assoc.
  - apply (drained_panic _ _ _ st' (f :: done) g rest).
    + by rewrite Hq.
    + by constructor.
    + done.
    + cbn [flat_map]. rewrite accepted_app, Hacc. by rewrite <- H1.
    + rewrite Ht, H1. simpl. by rewrite <- !app_assoc.
Qed.

Lemma run_entries_drained (q : list QueuedFunction) (st : State) :
  drained env q st (run_entries env q st).1 (run_entries env q st).2 /\
  queue (run_entries env q st).2 = queue st.
Proof.
  revert st. induction q as [|f q IH]; intros st.
  - simpl. split; [|done]. apply drained_all; [done|done|by rewrite app_nil_r].
  - destruct (well_typed_entry f) eqn:Hwt.
    2:{ rewrite (run_entries_ill_typed f q st Hwt). split; [|done].
        by apply (drained_panic _ _ _ _ [] f q); [| | | |rewrite app_nil_r]. }
    destruct (accepted env (trace st) (entry_events f)) eqn:Ha.
    + destruct (run_entries_step f q st Hwt Ha) as (st1 & -> & Ht & Hq).
      destruct (IH st1) as [Hd Hq1]. split; [|by rewrite Hq1].
      by eapply drained_cons.
    + destruct (accepted_first _ _ Ha) as (pre & ev & post & e & Hev & Hpre & Hf).
      destruct (run_entries_refused f q st pre post ev e Hev Hpre Hf) as (Hr & Ht & Hq).
      destruct (run_entries env (f :: q) st) as [o st1]. cbn [fst snd] in *. subst o.
      split; [|done].
      apply (drained_error _ _ _ _ e [] f q pre ev post); simpl; try done.
Qed.

End CleanUpFacts.

Section DrainFacts.

Variable env : Env.

Lemma drained_prefix (q : list QueuedFunction) (st st' : State) (o : Outcome) :
  drained env q st o st' ->
  exists new, trace st' = trace st ++ new /\ new `prefix_of` flat_map entry_events q.
Proof.
  intros [st1 _ _ Ht|st1 e done f rest pre ev post Hq _ He _ Hf Ht|st1 done f rest Hq _ _ _ Ht].
  - eexists. split; [exact Ht|]. done.
  - exists (flat_map entry_events done ++ pre ++ [ev]). split; [exact Ht|].
    exists (post ++ flat_map entry_events rest).
    rewrite Hq, flat_map_app. simpl. rewrite He. by rewrite <- !app_assoc.
  - exists (flat_map entry_events done). split; [exact Ht|].
    exists (flat_map entry_events (f :: rest)). by rewrite Hq, flat_map_app.
Qed.

Lemma run_entries_extends (q : list QueuedFunction) (st : State) :
  exists new, trace (run_entries env q st).2 = trace st ++ new.
Proof.
  destruct (run_entries_drained env q st) as [Hd _].
  destruct (drained_prefix _ _ _ _ Hd) as (new & Ht & _). by exists new.
Qed.

(** The first operation of a drain is fixed by the queue. *)
Lemma first_action_issued (q : list QueuedFunction) (st : State) :
  match first_action q with
  | Some ev => exists new, trace (run_entries env q st).2 = trace st ++ ev :: new
  | None => trace (run_entries env q st).2 = trace st
  end.
Proof.
  revert st. induction q as [|f q IH]; intros st; simpl; [done|].
  destruct (String.eqb (Name f) "umountFuture").
  - destruct (Values f) as [|[fp|c|s] vs]; try done.
    rewrite Partition_Unmount_eq.
    destruct (host_err env (trace st) (EvUnmount (Partition_ fp))).
    + by exists [].
    + set (st1 := log _ _). destruct (run_entries_extends q st1) as [new Hn].
      exists new. rewrite Hn. simpl. by rewrite <- app_assoc.
  - destruct (String.eqb (Name f) "closeChroot"); [|apply IH].
    destruct (Values f) as [|[fp|c|s] vs]; try done.
    rewrite Chroot_Close_eq.
    destruct (forM_host env (umount_call c) ReservedMounts st)
      as [_ [[Hr Ht]|(pre & m & post & e & Hl & Hr & Ht & _)]];
      destruct (forM_ ReservedMounts _ st) as [r st1]; simpl in *; subst r.
    + destruct (run_entries_extends q st1) as [new Hn].
      eexists. rewrite Hn, Ht. rewrite <- app_assoc. simpl. done.
    + destruct pre as [|x pre]; simpl in Hl; injection Hl as <- Hl.
      * by exists [].
      * eexists. simpl. rewrite Ht. simpl. done.
Qed.

Lemma RunCleanUpQueue_trace (st : State) :
  trace (RunCleanUpQueue env st).2 = trace (run_entries env (queue st) st).2.
Proof.
  unfold RunCleanUpQueue.
  by destruct (run_entries env (queue st) st) as [[[e|]|] st'].
Qed.

Lemma RunCleanUpQueue_outcome (st : State) :
  (RunCleanUpQueue env st).1 = (run_entries env (queue st) st).1.
Proof.
  unfold RunCleanUpQueue.
  by destruct (run_entries env (queue st) st) as [[[e|]|] st'].
Qed.

Lemma push_all_queue (entries : list (string * list Value)) (st : State) :
  queue (push_all entries st).2 =
    queue st ++ map (fun nv => {| Name := nv.1; Values := nv.2 |}) entries /\
  trace (push_all entries st).2 = trace st.
Proof.
  revert st. induction entries as [|nv entries IH]; intros st; simpl.
  - by rewrite app_nil_r.
  - unfold push_all in *. simpl. unfold bind. simpl.
    destruct (IH (set_queue (queue st ++ [{| Name := nv.1; Values := nv.2 |}]) st))
      as [Hq Ht].
    rewrite Hq, Ht. simpl. by rewrite <- app_assoc.
Qed.

(** C4 (as the code has it). Entries pushed one after the other sit in
    the queue in push order, and a drain runs them in that same order,
    first pushed first, up to the first failure.  It returns [nil] when
    every entry is well typed and the world accepts every operation, and
    has then run them all, in push order; it returns an error when an
    operation is refused, having run, in push order, the entries before
    and the operations of that entry up to the refused one, and nothing
    after it; it panics at the first entry whose value has the wrong
    type, having run the entries before it. *)
Theorem RunCleanUpQueue_runs_in_push_order
    (entries : list (string * list Value)) (st : State) :
  let pushed := map (fun nv => {| Name := nv.1; Values := nv.2 |}) entries in
  let st1 := (push_all entries (ResetQueue st).2).2 in
  let res := RunCleanUpQueue env st1 in
  queue st1 = pushed /\
  match res.1 with
  | Returned None =>
      Forall (fun f => well_typed_entry f = true) pushed /\
      accepted env (trace st) (flat_map entry_events pushed) = true /\
      trace res.2 = trace st ++ flat_map entry_events pushed
  | Returned (Some e) =>
      exists done f rest pre ev post,
        pushed = done ++ f :: rest /\
        Forall (fun f => well_typed_entry f = true) done /\
        entry_events f = pre ++ ev :: post /\
        accepted env (trace st) (flat_map entry_events done ++ pre) = true /\
        host_err env (trace st ++ flat_map entry_events done ++ pre) ev = Some e /\
        trace res.2 = trace st ++ flat_map entry_events done ++ pre ++ [ev]
  | Panicked =>
      exists done f rest,
        pushed = done ++ f :: rest /\
        Forall (fun f => well_typed_entry f = true) done /\
        well_typed_entry f = false /\
        accepted env (trace st) (flat_map entry_events done) = true /\
        trace res.2 = trace st ++ flat_map entry_events done
  end.
Proof.
  cbv zeta.
  destruct (push_all_queue entries (ResetQueue st).2) as [Hq Ht].
  change (queue (ResetQueue st).2) with (@nil QueuedFunction) in Hq.
  change (trace (ResetQueue st).2) with (trace st) in Ht.
  rewrite app_nil_l in Hq.
  split; [exact Hq|].
  set (st1 := (push_all entries (ResetQueue st).2).2) in *.
  destruct (run_entries_drained env (queue st1) st1) as [Hd _].
  rewrite RunCleanUpQueue_trace, RunCleanUpQueue_outcome.
  destruct (run_entries env (queue st1) st1) as [o st2]. cbn [fst snd] in *.
  rewrite Hq in Hd.
  destruct Hd as [st' Hw Ha Hall|st' e done f rest pre ev post Hqq Hw He Ha Hf Hall
                 |st' done f rest Hqq Hw Hf Ha Hall];
    rewrite Ht in *.
  - done.
  - by exists done, f, rest, pre, ev, post.
  - by exists done, f, rest.
Qed.

(** C5 (as the code has it). When an operation of a cleanup entry fails,
    the entries before it being well typed and their operations and the
    earlier ones of that entry accepted, the drain stops there: it
    returns the error of the failed operation, the last thing it asked of
    the host is that operation, so neither the rest of the entry nor any
    later entry is run, and the queue is as it was. *)
Theorem RunCleanUpQueue_stops_at_first_error
    (st : State) (done rest : list QueuedFunction) (f : QueuedFunction)
    (pre post : list Event) (ev : Event) (e : error) :
  queue st = done ++ f :: rest ->
  Forall (fun f => well_typed_entry f = true) done ->
  entry_events f = pre ++ ev :: post ->
  accepted env (trace st) (flat_map entry_events done ++ pre) = true ->
  host_err env (trace st ++ flat_map entry_events done ++ pre) ev = Some e ->
  (RunCleanUpQueue env st).1 = Returned (Some e) /\
  trace (RunCleanUpQueue env st).2 = trace st ++ flat_map entry_events done ++ pre ++ [ev] /\
  queue (RunCleanUpQueue env st).2 = queue st.
Proof.
  intros Hq Hw Hev Ha Hf.
  rewrite accepted_app in Ha. apply andb_true_iff in Ha as [Ha1 Ha2].
  destruct (run_entries_through env done (f :: rest) st Hw Ha1) as (st1 & Hrun & Ht & Hq1).
  rewrite <- Ht in Ha2. rewrite app_assoc, <- Ht in Hf.
  destruct (run_entries_refused env f rest st1 pre post ev e Hev Ha2 Hf) as (Hr & Ht2 & Hq2).
  unfold RunCleanUpQueue. rewrite Hq, Hrun.
  destruct (run_entries env (f :: rest) st1) as [o st2]. cbn [fst snd] in *. subst o.
  cbn [fst snd]. split; [done|]. split.
  - by rewrite Ht2, Ht, <- app_assoc.
  - by rewrite Hq2, Hq1.
Qed.

(** C10. The queue is emptied exactly when every entry succeeds: when
    every entry is well typed and the world accepts every operation the
    drain returns [nil], having issued them all, and the queue is empty;
    in every other case it returns an error or panics and leaves the
    whole queue in place, the entries it already ran included, and after
    an error the next drain starts over with the very operation the
    failed one began with. *)
Theorem RunCleanUpQueue_resets_only_on_success (st : State) :
  let res := RunCleanUpQueue env st in
  if forallb well_typed_entry (queue st) &&
     accepted env (trace st) (flat_map entry_events (queue st))
  then
    res.1 = Returned None /\ queue res.2 = [] /\
    trace res.2 = trace st ++ flat_map entry_events (queue st)
  else
    res.1 <> Returned None /\ queue res.2 = queue st /\
    forall e, res.1 = Returned (Some e) ->
      exists ev new1,
        trace res.2 = trace st ++ ev :: new1 /\
        exists new2, trace (RunCleanUpQueue env res.2).2 = trace res.2 ++ ev :: new2.
Proof.
  cbv zeta.
  destruct (run_entries_drained env (queue st) st) as [Hd Hq].
  pose proof (first_action_issued (queue st) st) as Hfirst.
  rewrite <- RunCleanUpQueue_trace in Hfirst.
  destruct (forallb well_typed_entry (queue st) &&
            accepted env (trace st) (flat_map entry_events (queue st))) eqn:Hok.
  - apply andb_true_iff in Hok as [Hw Ha].
    assert (Hw' : Forall (fun f => well_typed_entry f = true) (queue st)).
    { apply Forall_forall. intros f Hf. rewrite forallb_forall in Hw. apply Hw.
      by apply list_elem_of_In. }
    destruct (run_entries_through env (queue st) [] st Hw' Ha) as (st1 & Hrun & Ht & _).
    rewrite app_nil_r in Hrun. unfold RunCleanUpQueue. rewrite Hrun. by simpl.
  - unfold RunCleanUpQueue in *.
    destruct (run_entries env (queue st) st) as [[[e|]|] st2] eqn:Hrun; simpl in *.
    + split; [done|]. split; [done|]. intros e' _.
      inversion Hd as [|st1 e1 done f rest pre ev0 post Hqq Hw He Ha Hf Ht|]; subst.
      destruct (first_action (queue st)) as [ev|] eqn:Hfa.
      * destruct Hfirst as [new1 Hn1]. exists ev, new1. split; [done|].
        pose proof (first_action_issued (queue st2) st2) as Hsecond.
        rewrite Hq, Hfa in Hsecond. destruct Hsecond as [new2 Hn2].
        exists new2. rewrite <- Hn2.
        rewrite <- Hq.
        by destruct (run_entries env (queue st2) st2) as [[[e2|]|] st3].
      * rewrite Hfirst in Ht. exfalso.
        apply (f_equal length) in Ht. rewrite !length_app in Ht. simpl in Ht. lia.
    + exfalso. inversion Hd as [st1 Hw Ha Ht| |]; subst.
      assert (Hw' : forallb well_typed_entry (queue st) = true).
      { apply forallb_forall. intros f Hf. rewrite Forall_forall in Hw. apply Hw.
        by apply list_elem_of_In. }
      by rewrite Hw', Ha in Hok.
    + split; [done|]. split; [done|]. intros e [=].
Qed.

End DrainFacts.

(** C4: the claim fails for the queue [Upgrade] builds.  The unmount is
    pushed first and the chroot second; the drain unmounts first and
    closes the chroot second, which is not the last-in-first-out order. *)
Lemma RunCleanUpQueue_not_LIFO :
  queue demo_queued =
    [ {| Name := "umountFuture"; Values := [VABRootPartition demo_future] |};
      {| Name := "closeChroot"; Values := [VChroot demo_chroot] |} ] /\
  (RunCleanUpQueue calm_world demo_queued).1 = Returned None /\
  trace (RunCleanUpQueue calm_world demo_queued).2 =
    EvUnmount (Partition_ demo_future) ::
    map (umount_call demo_chroot) ReservedMounts /\
  trace (RunCleanUpQueue calm_world demo_queued).2 <>
    flat_map entry_events (rev (queue demo_queued)).
Proof.
  split; [reflexivity|]. split; [reflexivity|]. split; [reflexivity|].
  vm_compute. discriminate.
Qed.

(** C5: the claim fails when the first entry fails.  The unmount is
    refused; the drain returns that error at once and the chroot entry
    behind it is never run: no [umount] is asked of the host. *)
Lemma RunCleanUpQueue_aborts_on_failure :
  (RunCleanUpQueue busy_unmount_world demo_queued).1 =
    Returned (Some (SyscallErrno EBUSY)) /\
  trace (RunCleanUpQueue busy_unmount_world demo_queued).2 =
    [EvUnmount (Partition_ demo_future)] /\
  entry_events {| Name := "closeChroot"; Values := [VChroot demo_chroot] |} =
    map (umount_call demo_chroot) ReservedMounts /\
  Forall (fun ev => ev ∉ trace (RunCleanUpQueue busy_unmount_world demo_queued).2)
    (map (umount_call demo_chroot) ReservedMounts).
Proof.
  split; [reflexivity|]. split; [reflexivity|]. split; [reflexivity|].
  vm_compute. repeat constructor; intros H; inversion H; subst;
    match goal with
    | H' : _ ∈ [] |- _ => inversion H'
    end.
Qed.

Lemma RunCleanUpQueue_stops_at_first_error_witness :
  (RunCleanUpQueue busy_proc_world demo_queued).1 = Returned (Some (ExitError 32)) /\
  trace (RunCleanUpQueue busy_proc_world demo_queued).2 =
    [ EvUnmount (Partition_ demo_future);
      umount_call demo_chroot "/dev";
      umount_call demo_chroot "/dev/pts";
      umount_call demo_chroot "/proc" ] /\
  queue (RunCleanUpQueue busy_proc_world demo_queued).2 = queue demo_queued.
Proof.
  apply (RunCleanUpQueue_stops_at_first_error busy_proc_world demo_queued
           [ {| Name := "umountFuture"; Values := [VABRootPartition demo_future] |} ]
           []
           {| Name := "closeChroot"; Values := [VChroot demo_chroot] |}
           [umount_call demo_chroot "/dev"; umount_call demo_chroot "/dev/pts"]
           [umount_call demo_chroot "/run"; umount_call demo_chroot "/sys"]
           (umount_call demo_chroot "/proc")
           (ExitError 32)).
  - reflexivity.
  - repeat constructor.
  - reflexivity.
  - vm_compute. reflexivity.
  - vm_compute. reflexivity.
Defined.

(** C6: the claim fails on both counts.  [NewChroot] mounts [/dev] first
    and [/sys] last, and [Close] unmounts [/dev] first and [/sys] last as
    well, not in reverse; and when the first [umount] fails, [Close]
    returns that error without attempting the other four. *)
Lemma Chroot_Close_not_reverse_not_exhaustive :
  (NewChroot calm_world "/part-future//.system/" "abc-123" "/dev/sda3"
     (set_fs {[ "/part-future/.system" := 10 ]} empty_state)).1 = inr demo_chroot /\
  List.filter (fun ev => match ev with EvExec "mount" _ => true | _ => false end)
    (trace (NewChroot calm_world "/part-future//.system/" "abc-123" "/dev/sda3"
              (set_fs {[ "/part-future/.system" := 10 ]} empty_state)).2) =
    map (fun mount => EvExec "mount" ["--bind"; mount; root demo_chroot +:+ mount])
      ["/dev"; "/dev/pts"; "/proc"; "/run"; "/sys"] /\
  trace (Chroot_Close calm_world demo_chroot empty_state).2 =
    map (umount_call demo_chroot) ["/dev"; "/dev/pts"; "/proc"; "/run"; "/sys"] /\
  trace (Chroot_Close calm_world demo_chroot empty_state).2 <>
    map (umount_call demo_chroot) (rev ["/dev"; "/dev/pts"; "/proc"; "/run"; "/sys"]) /\
  Chroot_Close busy_dev_world demo_chroot empty_state =
    (inl (ExitError 32),
     {| queue := []; fs := ∅; fds := [];
        trace := [umount_call demo_chroot "/dev"] |}).
Proof.
  split; [reflexivity|]. split; [reflexivity|]. split; [reflexivity|].
  split; [vm_compute; discriminate|]. reflexivity.
Qed.

(** ** Nothing in [Upgrade] releases a mount *)

Lemma steady_refl (st : State) : steady_step st st.
Proof. exists []. by rewrite app_nil_r. Qed.

Lemma steady_trans (st1 st2 st3 : State) :
  steady_step st1 st2 -> steady_step st2 st3 -> steady_step st1 st3.
Proof.
  intros (n1 & H1 & F1) (n2 & H2 & F2). exists (n1 ++ n2).
  rewrite H2, H1, <- app_assoc. split; [done|]. by apply Forall_app.
Qed.

Lemma steady_log (ev : Event) (st st' : State) :
  trace st' = trace st ++ [ev] -> is_release ev = false -> steady_step st st'.
Proof. intros Ht He. exists [ev]. split; [done|]. by constructor. Qed.

Lemma Steady_of_Calm {A : Type} (m : M A) : Calm m -> Steady m.
Proof. intros H st. apply H. Qed.

Lemma Steady_bind {A B : Type} (m : M A) (k : A -> M B) :
  Steady m -> (forall a, Steady (k a)) -> Steady (bind m k).
Proof.
  intros Hm Hk st. unfold bind. specialize (Hm st).
  destruct (m st) as [[e|a] st1]; simpl in *; [done|].
  eapply steady_trans; [exact Hm|apply Hk].
Qed.

Lemma Calm_bind {A B : Type} (m : M A) (k : A -> M B) :
  Calm m -> (forall a, Calm (k a)) -> Calm (bind m k).
Proof.
  intros Hm Hk st. unfold bind. destruct (Hm st) as [Hq Hs].
  destruct (m st) as [[e|a] st1]; simpl in *; [done|].
  destruct (Hk a st1) as [Hq' Hs']. split; [by rewrite Hq'|].
  by eapply steady_trans.
Qed.

Lemma Calm_ret {A : Type} (a : A) : Calm (ret a).
Proof. intros st. split; [done|apply steady_refl]. Qed.

Lemma Calm_throw {A : Type} (e : error) : Calm (@throw A e).
Proof. intros st. split; [done|apply steady_refl]. Qed.

Lemma Calm_forM {A : Type} (l : list A) (body : A -> M unit) :
  (forall x, Calm (body x)) -> Calm (forM_ l body).
Proof.
  intros Hb. induction l as [|x l IH]; simpl.
  - apply Calm_ret.
  - apply Calm_bind; [apply Hb|]. intros _. exact IH.
Qed.

Section CalmPrimitives.

Variable env : Env.

Lemma Calm_host_val {A : Type} (ev : Event) (answer : list Event -> A) :
  is_release ev = false -> Calm (host_val env ev answer).
Proof.
  intros He st. unfold host_val.
  destruct (host_err env (trace st) ev); (split; [done|by eapply steady_log]).
Qed.

Lemma Calm_host (ev : Event) : is_release ev = false -> Calm (host env ev).
Proof. apply Calm_host_val. Qed.

Lemma Calm_query {A : Type} (ev : Event) (answer : list Event -> A) :
  is_release ev = false -> Calm (query env ev answer).
Proof. intros He st. split; [done|by eapply steady_log]. Qed.

Lemma Calm_os_Open (name : string) : Calm (os_Open env name).
Proof.
  intros st. unfold os_Open.
  destruct (open_error env st name); (split; [done|by eapply steady_log]).
Qed.

Lemma Calm_unix_Renameat2 (fd1 : Z) (a : string) (fd2 : Z) (b : string) (flags : Z) :
  Calm (unix_Renameat2 env fd1 a fd2 b flags).
Proof.
  intros st. unfold unix_Renameat2.
  destruct (negb (flags =? RENAME_EXCHANGE)%Z); [split; [done|by eapply steady_log]|].
  destruct (at_dir env st fd1 a); [split; [done|by eapply steady_log]|].
  destruct (at_dir env st fd2 b); [split; [done|by eapply steady_log]|].
  destruct (host_err env (trace st) _); [split; [done|by eapply steady_log]|].
  destruct (namei env (fs st) _); [split; [done|by eapply steady_log]|].
  destruct (namei env (fs st) _); (split; [done|by eapply steady_log]).
Qed.

Lemma Calm_AtomicSwap_m (src dst : string) : Calm (AtomicSwap_m env src dst).
Proof.
  unfold AtomicSwap_m. apply Calm_bind; [apply Calm_os_Open|]. intros fd1.
  apply Calm_bind; [apply Calm_os_Open|]. intros fd2. apply Calm_unix_Renameat2.
Qed.

Lemma Calm_os_Stat (name : string) : Calm (os_Stat env name).
Proof. intros st. split; [done|by eapply steady_log]. Qed.

Lemma Calm_Registry_HasUpdate (digest : string) : Calm (Registry_HasUpdate env digest).
Proof. intros st. split; [done|by eapply steady_log]. Qed.

Lemma Calm_getKernelVersion (rootPath : string) : Calm (getKernelVersion env rootPath).
Proof.
  intros st. unfold getKernelVersion.
  destruct (host_err env (trace st) _); [split; [done|by eapply steady_log]|].
  destruct (length _ =? 0)%nat; (split; [done|by eapply steady_log]).
Qed.

Lemma Calm_Partition_Mount (p : Partition) (destination : string) :
  Calm (Partition_Mount env p destination).
Proof. by apply Calm_host_val. Qed.

Lemma Calm_Chroot_Execute (c : Chroot) (cmd : string) (args : list string) :
  Calm (Chroot_Execute env c cmd args).
Proof. by apply Calm_host. Qed.

Lemma Calm_Chroot_ExecuteCmds (c : Chroot) (cmds : list string) :
  Calm (Chroot_ExecuteCmds env c cmds).
Proof. apply Calm_forM. intros cmd. apply Calm_Chroot_Execute. Qed.

Lemma Calm_NewChroot (r u d : string) : Calm (NewChroot env r u d).
Proof.
  unfold NewChroot. apply Calm_bind; [apply Calm_os_Stat|]. intros err.
  destruct (if os_IsNotExist err then err else None); [apply Calm_throw|].
  apply Calm_bind; [apply Calm_Chroot_Execute|]. intros _.
  apply Calm_bind; [|intros _; apply Calm_ret].
  apply Calm_forM. intros mount. by apply Calm_host.
Qed.

Lemma Calm_generateGrubRecipe (rootPath rootUuid entryName : string) :
  Calm (generateGrubRecipe env rootPath rootUuid entryName).
Proof.
  unfold generateGrubRecipe. apply Calm_bind; [apply Calm_getKernelVersion|].
  intros v. destruct (String.eqb v ""); [apply Calm_throw|].
  apply Calm_bind; [by apply Calm_host|]. intros _. by apply Calm_host.
Qed.

Lemma Calm_SyncEtc (systemEtc : string) : Calm (SyncEtc env systemEtc).
Proof. apply Calm_forM. intros file. by apply Calm_host. Qed.

Lemma Calm_Upgrade_S0 (s : ABSystem) : Calm (Upgrade_S0 env s).
Proof.
  unfold Upgrade_S0, CheckUpdate. apply Calm_bind; [apply Calm_Registry_HasUpdate|].
  intros b. destruct (negb b); [apply Calm_throw|apply Calm_ret].
Qed.

Lemma Calm_Upgrade_S2 : Calm (Upgrade_S2 env).
Proof. by apply Calm_host_val. Qed.

Lemma Calm_Upgrade_S3 : Calm (Upgrade_S3 env).
Proof.
  unfold Upgrade_S3. apply Calm_bind; [by apply Calm_query|].
  intros c. apply Calm_ret.
Qed.

Lemma Calm_Upgrade_S4 (p : ABRootPartition) (cf : ContainerFile) :
  Calm (Upgrade_S4 env p cf).
Proof. by apply Calm_host. Qed.

Lemma Calm_Upgrade_S5 (p : ABRootPartition) (img : PodmanImage) :
  Calm (Upgrade_S5 env p img).
Proof. by apply Calm_host. Qed.

Lemma Calm_Upgrade_S6 (p : ABRootPartition) : Calm (Upgrade_S6 env p).
Proof.
  unfold Upgrade_S6. apply Calm_bind; [apply Calm_AtomicSwap_m|].
  intros _. apply Calm_AtomicSwap_m.
Qed.

Lemma Calm_Upgrade_S8 (p : ABRootPartition) : Calm (Upgrade_S8 env p).
Proof. apply Calm_SyncEtc. Qed.

Lemma Calm_Upgrade_S9 (p : Partition) : Calm (Upgrade_S9 env p).
Proof.
  unfold Upgrade_S9. apply Calm_bind; [by apply Calm_query|]. intros u.
  apply Calm_bind; [by apply Calm_host|]. intros _.
  apply Calm_bind; [apply Calm_Partition_Mount|]. intros _. apply Calm_ret.
Qed.

Lemma Calm_Upgrade_S10 (uuid : string) : Calm (Upgrade_S10 env uuid).
Proof. apply Calm_AtomicSwap_m. Qed.

Lemma Steady_AddToCleanUpQueue (name : string) (values : list Value) :
  Steady (AddToCleanUpQueue name values).
Proof. intros st. exists []. by rewrite app_nil_r. Qed.

Lemma Steady_ResetQueue : Steady ResetQueue.
Proof. intros st. exists []. by rewrite app_nil_r. Qed.

Lemma Steady_Upgrade_S1 : Steady (Upgrade_S1 env).
Proof.
  unfold Upgrade_S1.
  apply Steady_bind; [by apply Steady_of_Calm, Calm_host_val|]. intros pf.
  apply Steady_bind; [by apply Steady_of_Calm, Calm_host_val|]. intros pb.
  apply Steady_bind; [apply Steady_of_Calm, Calm_Partition_Mount|]. intros p.
  apply Steady_bind; [apply Steady_AddToCleanUpQueue|]. intros _.
  apply Steady_of_Calm, Calm_ret.
Qed.

Lemma Steady_Upgrade_S7 (p : ABRootPartition) : Steady (Upgrade_S7 env p).
Proof.
  unfold Upgrade_S7.
  apply Steady_bind; [apply Steady_of_Calm, Calm_generateGrubRecipe|]. intros _.
  apply Steady_bind; [apply Steady_of_Calm, Calm_NewChroot|]. intros c.
  apply Steady_bind; [apply Steady_AddToCleanUpQueue|]. intros _.
  apply Steady_of_Calm, Calm_Chroot_ExecuteCmds.
Qed.

(** The tail of [Upgrade] from stage 8 on. *)
Lemma Calm_Upgrade_S8_S10 (parts : ABRootPartition * Partition) :
  Calm (bind (Upgrade_S8 env parts.1)
          (fun _ => bind (Upgrade_S9 env parts.2) (fun uuid => Upgrade_S10 env uuid))).
Proof.
  apply Calm_bind; [apply Calm_Upgrade_S8|]. intros _.
  apply Calm_bind; [apply Calm_Upgrade_S9|]. intros u. apply Calm_Upgrade_S10.
Qed.

Lemma Steady_Upgrade_m (s : ABSystem) : Steady (Upgrade_m env s).
Proof.
  unfold Upgrade_m.
  apply Steady_bind; [apply Steady_ResetQueue|]. intros _.
  apply Steady_bind; [apply Steady_of_Calm, Calm_Upgrade_S0|]. intros _.
  apply Steady_bind; [apply Steady_Upgrade_S1|]. intros parts.
  apply Steady_bind; [apply Steady_of_Calm, Calm_Upgrade_S2|]. intros img.
  apply Steady_bind; [apply Steady_of_Calm, Calm_Upgrade_S3|]. intros cf.
  apply Steady_bind; [apply Steady_of_Calm, Calm_Upgrade_S4|]. intros _.
  apply Steady_bind; [apply Steady_of_Calm, Calm_Upgrade_S5|]. intros _.
  apply Steady_bind; [apply Steady_of_Calm, Calm_Upgrade_S6|]. intros _.
  apply Steady_bind; [apply Steady_Upgrade_S7|]. intros _.
  apply Steady_of_Calm, Calm_Upgrade_S8_S10.
Qed.

End CalmPrimitives.

(** ** [Upgrade] and the cleanup queue *)

Lemma bind_cases {A B : Type} (m : M A) (k : A -> M B) (st : State) :
  (exists e st', m st = (inl e, st') /\ bind m k st = (inl e, st')) \/
  (exists a st', m st = (inr a, st') /\ bind m k st = k a st').
Proof.
  unfold bind. destruct (m st) as [[e|a] st'].
  - left. by exists e, st'.
  - right. by exists a, st'.
Qed.

Lemma Calm_queue {A : Type} (m : M A) (st st' : State) (r : error + A) :
  Calm m -> m st = (r, st') -> queue st' = queue st.
Proof. intros Hc Hm. destruct (Hc st) as [Hq _]. by rewrite Hm in Hq. Qed.

Ltac bind_step H :=
  match goal with
  | |- context [bind ?m ?k ?st] =>
      let e := fresh "e" in
      let a := fresh "a" in
      let st' := fresh "st" in
      let Hb := fresh "Hb" in
      destruct (bind_cases m k st) as [(e & st' & H & Hb)|(a & st' & H & Hb)];
      rewrite Hb; clear Hb; cbv beta
  end.

Section UpgradeQueue.

Variable env : Env.

(** Stage 1 registers the unmount of future exactly when it succeeds. *)
Lemma Upgrade_S1_queue (st st' : State) (r : error + ABRootPartition * Partition) :
  Upgrade_S1 env st = (r, st') ->
  match r with
  | inl _ => queue st' = queue st
  | inr parts =>
      queue st' =
        queue st ++ [ {| Name := "umountFuture"; Values := [VABRootPartition parts.1] |} ]
  end.
Proof.
  unfold Upgrade_S1. intros H. revert H.
  pose proof (Calm_host_val env EvGetFuture (future_partition env) eq_refl) as C1.
  pose proof (Calm_host_val env EvGetBoot (boot_partition env) eq_refl) as C2.
  bind_step H1.
  { intros [= <- <-]. exact (Calm_queue _ _ _ _ C1 H1). }
  bind_step H2.
  { intros [= <- <-]. rewrite (Calm_queue _ _ _ _ C2 H2).
    exact (Calm_queue _ _ _ _ C1 H1). }
  bind_step H3.
  { intros [= <- <-]. rewrite (Calm_queue _ _ _ _ (Calm_Partition_Mount env _ _) H3).
    rewrite (Calm_queue _ _ _ _ C2 H2). exact (Calm_queue _ _ _ _ C1 H1). }
  unfold bind, AddToCleanUpQueue, ret. simpl. intros [= <- <-]. simpl.
  rewrite (Calm_queue _ _ _ _ (Calm_Partition_Mount env _ _) H3).
  rewrite (Calm_queue _ _ _ _ C2 H2).
  by rewrite (Calm_queue _ _ _ _ C1 H1).
Qed.

(** Stage 7 registers the close of the chroot once [NewChroot] has
    succeeded, so also when [grub-mkconfig] then fails. *)
Lemma Upgrade_S7_queue (partFuture : ABRootPartition) (st st' : State) (r : error + unit) :
  Upgrade_S7 env partFuture st = (r, st') ->
  (queue st' = queue st /\ r <> inr tt) \/
  (exists chroot,
     queue st' = queue st ++ [ {| Name := "closeChroot"; Values := [VChroot chroot] |} ]).
Proof.
  unfold Upgrade_S7. intros H. revert H.
  bind_step H1.
  { intros [= <- <-]. left. split; [|done].
    eapply Calm_queue; [|exact H1]. apply Calm_generateGrubRecipe. }
  bind_step H2.
  { intros [= <- <-]. left. split; [|done].
    rewrite (Calm_queue _ _ _ _ (Calm_NewChroot env _ _ _) H2).
    eapply Calm_queue; [|exact H1]. apply Calm_generateGrubRecipe. }
  unfold bind at 1. unfold AddToCleanUpQueue at 1. intros H. right. eexists.
  rewrite (Calm_queue _ _ _ _ (Calm_Chroot_ExecuteCmds env _ _) H). simpl.
  rewrite (Calm_queue _ _ _ _ (Calm_NewChroot env _ _ _) H2).
  by rewrite (Calm_queue _ _ _ _ (Calm_generateGrubRecipe env _ _ _) H1).
Qed.

(** [Upgrade] in three parts: up to the mount of future, from there to
    the chroot, and the rest. *)
Lemma Upgrade_m_staged (s : ABSystem) (st : State) :
  Upgrade_m env s st =
    bind (Upgrade_S0_S1 env s)
      (fun parts =>
         bind (Upgrade_S2_chroot env parts)
           (fun chroot => Upgrade_after_chroot env parts chroot)) st.
Proof.
  unfold Upgrade_m, Upgrade_S0_S1, Upgrade_S2_chroot, Upgrade_after_chroot, Upgrade_S7,
    bind, ret. simpl.
  destruct (Upgrade_S0 env s _) as [[e|[]] st1]; [done|].
  destruct (Upgrade_S1 env st1) as [[e|parts] st2]; [done|].
  destruct (Upgrade_S2 env st2) as [[e|img] st3]; [done|].
  destruct (Upgrade_S4 env _ _ _) as [[e|[]] st5]; [done|].
  destruct (Upgrade_S5 env _ _ st5) as [[e|[]] st6]; [done|].
  destruct (Upgrade_S6 env _ st6) as [[e|[]] st7]; [done|].
  destruct (generateGrubRecipe env _ _ _ st7) as [[e|[]] st8]; [done|].
  destruct (NewChroot env _ _ _ st8) as [[e|c] st9]; [done|].
  by destruct (Chroot_ExecuteCmds env c _ _) as [[e|[]] st10].
Qed.

Lemma host_val_eq {A : Type} (ev : Event) (answer : list Event -> A) (st : State) :
  host_val env ev answer st =
    (match host_err env (trace st) ev with
     | Some e => inl e
     | None => inr (answer (trace st))
     end,
     log ev (set_fs (host_fs env (trace st) ev (fs st)) st)).
Proof. unfold host_val. by destruct (host_err env (trace st) ev). Qed.

(** Stage 1 mounts nothing when it fails; when it succeeds the one mount
    it has made is that of future on [/part-future/], it is the last
    thing it asked for, and the partition as that mount left it is what
    it has queued. *)
Lemma Upgrade_S1_cases (st : State) :
  match Upgrade_S1 env st with
  | (inl e, st1) =>
      queue st1 = queue st /\
      exists new, trace st1 = trace st ++ new /\ mounts_made env (trace st) new = []
  | (inr parts, st1) =>
      queue st1 =
        queue st ++ [ {| Name := "umountFuture"; Values := [VABRootPartition parts.1] |} ] /\
      exists new h p,
        trace st1 = trace st ++ new /\
        mounts_made env (trace st) new = [EvMount p "/part-future/"] /\
        trace st1 = h ++ [EvMount p "/part-future/"] /\
        host_err env h (EvMount p "/part-future/") = None /\
        Partition_ parts.1 = after_mount env h p "/part-future/"
  end.
Proof.
  unfold Upgrade_S1, Partition_Mount, bind. rewrite host_val_eq.
  destruct (host_err env (trace st) EvGetFuture) as [e|] eqn:E1.
  { split; [done|]. by exists [EvGetFuture]. }
  set (st1 := log EvGetFuture _). rewrite host_val_eq.
  destruct (host_err env (trace st1) EvGetBoot) as [e|] eqn:E2.
  { split; [done|]. exists [EvGetFuture; EvGetBoot]. cbn [trace log set_fs set_queue st1].
    by rewrite <- app_assoc. }
  set (st2 := log EvGetBoot _). rewrite host_val_eq.
  set (p := Partition_ (future_partition env (trace st))).
  destruct (host_err env (trace st2) (EvMount p "/part-future/")) as [e|] eqn:E3.
  { split; [done|]. exists [EvGetFuture; EvGetBoot; EvMount p "/part-future/"].
    split; [cbn [trace log set_fs set_queue st1 st2]; by rewrite <- !app_assoc|].
    cbn [mounts_made]. cbn [trace log set_fs set_queue st1 st2] in E3. by rewrite E3. }
  unfold AddToCleanUpQueue, ret. cbn [fst snd queue set_queue log set_fs Partition_].
  split; [done|].
  exists [EvGetFuture; EvGetBoot; EvMount p "/part-future/"], (trace st2), p.
  split; [cbn [trace log set_fs set_queue st1 st2]; by rewrite <- !app_assoc|]. split.
  { cbn [mounts_made]. cbn [trace log set_fs set_queue st1 st2] in E3. by rewrite E3. }
  done.
Qed.

Lemma Upgrade_S0_S1_cases (s : ABSystem) (st : State) :
  match Upgrade_S0_S1 env s st with
  | (inl e, st1) =>
      queue st1 = [] /\
      exists new, trace st1 = trace st ++ new /\ mounts_made env (trace st) new = []
  | (inr parts, st1) =>
      queue st1 = [ {| Name := "umountFuture"; Values := [VABRootPartition parts.1] |} ] /\
      exists new h p,
        trace st1 = trace st ++ new /\
        mounts_made env (trace st) new = [EvMount p "/part-future/"] /\
        trace st1 = h ++ [EvMount p "/part-future/"] /\
        host_err env h (EvMount p "/part-future/") = None /\
        Partition_ parts.1 = after_mount env h p "/part-future/"
  end.
Proof.
  unfold Upgrade_S0_S1. unfold bind at 1. unfold ResetQueue at 1. cbv beta iota.
  unfold bind at 1. unfold Upgrade_S0, CheckUpdate, Registry_HasUpdate, bind.
  set (hu := EvHasUpdate (Digest (CurImage s))).
  set (st0 := log hu (set_queue [] st)).
  destruct (negb (negb _)).
  { unfold throw. split; [done|]. by exists [hu]. }
  unfold ret. cbv beta iota.
  pose proof (Upgrade_S1_cases st0) as H.
  destruct (Upgrade_S1 env st0) as [[e|parts] st1].
  - destruct H as (Hq & new & Ht & Hm). split; [by rewrite Hq|].
    exists (hu :: new). split; [|done].
    rewrite Ht. cbn [trace log set_queue st0]. by rewrite <- app_assoc.
  - destruct H as (Hq & new & h & p & Ht & Hm & Hh & He & Hp). split; [by rewrite Hq|].
    exists (hu :: new), h, p. split; [|done].
    rewrite Ht. cbn [trace log set_queue st0]. by rewrite <- app_assoc.
Qed.

Lemma Calm_Upgrade_S2_chroot (parts : ABRootPartition * Partition) :
  Calm (Upgrade_S2_chroot env parts).
Proof.
  unfold Upgrade_S2_chroot.
  apply Calm_bind; [apply Calm_Upgrade_S2|]. intros img.
  apply Calm_bind; [apply Calm_Upgrade_S3|]. intros cf.
  apply Calm_bind; [apply Calm_Upgrade_S4|]. intros _.
  apply Calm_bind; [apply Calm_Upgrade_S5|]. intros _.
  apply Calm_bind; [apply Calm_Upgrade_S6|]. intros _.
  apply Calm_bind; [apply Calm_generateGrubRecipe|]. intros _.
  apply Calm_NewChroot.
Qed.

(** The chroot [NewChroot] hands back. *)
Lemma NewChroot_value (r u d : string) (st st' : State) (c : Chroot) :
  NewChroot env r u d st = (inr c, st') ->
  c = {| root := strings_ReplaceAll r "//" "/"; rootUuid := u; rootDevice := d |}.
Proof.
  unfold NewChroot. intros H. revert H.
  bind_step H1; [intros [=]|].
  match goal with
  | |- context [if os_IsNotExist ?err then _ else _] =>
      destruct (if os_IsNotExist err then err else None)
  end; [intros [=]|].
  bind_step H2; [intros [=]|].
  bind_step H3; [intros [=]|].
  unfold ret. by intros [= <- _].
Qed.

Lemma Upgrade_S2_chroot_value (parts : ABRootPartition * Partition)
    (st st' : State) (c : Chroot) :
  Upgrade_S2_chroot env parts st = (inr c, st') ->
  c = {| root := strings_ReplaceAll (MountPoint (Partition_ parts.1) +:+ "/.system/") "//" "/";
         rootUuid := Uuid (Partition_ parts.1);
         rootDevice := Device (Partition_ parts.1) |}.
Proof.
  unfold Upgrade_S2_chroot. intros H. revert H.
  bind_step H1; [intros [=]|].
  bind_step H2; [intros [=]|].
  bind_step H3; [intros [=]|].
  bind_step H4; [intros [=]|].
  bind_step H5; [intros [=]|].
  bind_step H6; [intros [=]|].
  apply NewChroot_value.
Qed.

Lemma Upgrade_after_chroot_queue (parts : ABRootPartition * Partition) (chroot : Chroot)
    (st : State) :
  queue (Upgrade_after_chroot env parts chroot st).2 =
    queue st ++ [ {| Name := "closeChroot"; Values := [VChroot chroot] |} ].
Proof.
  unfold Upgrade_after_chroot. unfold bind at 1. unfold AddToCleanUpQueue at 1.
  cbv beta iota.
  set (st1 := set_queue _ st).
  assert (Hc : Calm (fun st0 =>
            (run_ Chroot_ExecuteCmds env chroot
                    ["grub-mkconfig -o /boot/grub/grub.cfg"; "exit"] ;;
             run_ Upgrade_S8 env parts.1 ;;
             do uuid <- Upgrade_S9 env parts.2 ;;
             Upgrade_S10 env uuid) st0)).
  { apply Calm_bind; [apply Calm_Chroot_ExecuteCmds|]. intros _.
    apply Calm_bind; [apply Calm_Upgrade_S8|]. intros _.
    apply Calm_bind; [apply Calm_Upgrade_S9|]. intros uuid.
    apply Calm_Upgrade_S10. }
  destruct (Hc st1) as [Hq _]. cbv beta in Hq. by rewrite Hq.
Qed.

(** C1 (as the code has it). [Upgrade] never runs the cleanup queue: on
    every return path, failure at any stage or success after stage 10, it
    has asked the host for no unmount and no [umount], and what it
    registered since the reset at its start is still queued.  When it
    fails before future is mounted it returns that error with nothing
    mounted and the queue empty.  Once stage 1 has mounted future on
    [/part-future/], the queue holds the unmount of that partition, as
    the mount left it; a failure from stage 2 up to the opening of the
    chroot in stage 7 returns with exactly that entry.  Once the chroot
    on [/part-future/.system/] is open, its close is queued behind the
    unmount, and [Upgrade] returns with both entries, whether the rest
    fails or succeeds. *)
Theorem Upgrade_returns_with_cleanup_pending (s : ABSystem) (st : State) :
  let res := Upgrade env s st in
  (exists new,
     trace res.2 = trace st ++ new /\
     Forall (fun ev => is_release ev = false) new) /\
  match Upgrade_S0_S1 env s st with
  | (inl e, st1) =>
      res = (Some e, st1) /\
      queue st1 = [] /\
      exists new, trace st1 = trace st ++ new /\ mounts_made env (trace st) new = []
  | (inr parts, st1) =>
      let unmount := {| Name := "umountFuture"; Values := [VABRootPartition parts.1] |} in
      queue st1 = [unmount] /\
      (exists new h p,
         trace st1 = trace st ++ new /\
         mounts_made env (trace st) new = [EvMount p "/part-future/"] /\
         trace st1 = h ++ [EvMount p "/part-future/"] /\
         host_err env h (EvMount p "/part-future/") = None /\
         Partition_ parts.1 = after_mount env h p "/part-future/") /\
      match Upgrade_S2_chroot env parts st1 with
      | (inl e, st2) => res = (Some e, st2) /\ queue st2 = [unmount]
      | (inr chroot, st2) =>
          chroot =
            {| root := "/part-future/.system/";
               rootUuid := Uuid (Partition_ parts.1);
               rootDevice := Device (Partition_ parts.1) |} /\
          queue st2 = [unmount] /\
          queue res.2 =
            [unmount; {| Name := "closeChroot"; Values := [VChroot chroot] |}]
      end
  end.
Proof.
  cbv zeta. split.
  { destruct (Steady_Upgrade_m env s st) as (new & Hn & Hf). by exists new. }
  pose proof (Upgrade_S0_S1_cases s st) as H1.
  unfold Upgrade, run. rewrite Upgrade_m_staged.
  destruct (Upgrade_S0_S1 env s st) as [[e|parts] st1] eqn:E1.
  { rewrite (bind_inl _ _ _ _ _ E1). destruct H1 as (Hq & Hn). by split. }
  rewrite (bind_inr _ _ _ _ _ E1). destruct H1 as (Hq & Hmount).
  split; [exact Hq|]. split; [exact Hmount|].
  destruct (Upgrade_S2_chroot env parts st1) as [[e|chroot] st2] eqn:E2.
  { rewrite (bind_inl _ _ _ _ _ E2). split; [done|].
    by rewrite (Calm_queue _ _ _ _ (Calm_Upgrade_S2_chroot parts) E2). }
  rewrite (bind_inr _ _ _ _ _ E2).
  pose proof (Calm_queue _ _ _ _ (Calm_Upgrade_S2_chroot parts) E2) as Hq2.
  split.
  { rewrite (Upgrade_S2_chroot_value _ _ _ _ E2).
    destruct Hmount as (_ & h & p & _ & _ & _ & _ & ->). done. }
  split; [by rewrite Hq2|].
  cbn [snd]. by rewrite Upgrade_after_chroot_queue, Hq2, Hq.
Qed.

End UpgradeQueue.

(** ** [Upgrade], stage by stage *)

Section UpgradeStages.

Variable env : Env.

Lemma Upgrade_m_from_S3 (s : ABSystem) (st : State) :
  Upgrade_m env s st =
    bind (Upgrade_S0_S2 env s)
      (fun found =>
         do containerFile <- Upgrade_S3 env ;;
         run_ Upgrade_S4 env found.1.1 containerFile ;;
         run_ Upgrade_S5 env found.1.1 found.2 ;;
         run_ Upgrade_S6 env found.1.1 ;;
         Upgrade_S7_S10 env found.1) st.
Proof.
  unfold Upgrade_m, Upgrade_S0_S2, Upgrade_S7_S10, bind, ret. simpl.
  destruct (Upgrade_S0 env s _) as [[e|[]] st1]; [done|].
  destruct (Upgrade_S1 env st1) as [[e|parts] st2]; [done|].
  by destruct (Upgrade_S2 env st2) as [[e|img] st3].
Qed.

Lemma Upgrade_m_from_S6 (s : ABSystem) (st : State) :
  Upgrade_m env s st =
    bind (Upgrade_S0_S5 env s)
      (fun parts => run_ Upgrade_S6 env parts.1 ;; Upgrade_S7_S10 env parts) st.
Proof.
  rewrite Upgrade_m_from_S3. unfold Upgrade_S0_S5, bind, ret.
  destruct (Upgrade_S0_S2 env s st) as [[e|found] st3]; [done|].
  destruct (Upgrade_S3 env st3) as [[e|cf] st4]; [done|].
  destruct (Upgrade_S4 env _ cf st4) as [[e|[]] st5]; [done|].
  by destruct (Upgrade_S5 env _ _ st5) as [[e|[]] st6].
Qed.

Lemma Steady_Upgrade_S7_S10 (parts : ABRootPartition * Partition) :
  Steady (Upgrade_S7_S10 env parts).
Proof.
  unfold Upgrade_S7_S10. apply Steady_bind; [apply Steady_Upgrade_S7|]. intros _.
  apply Steady_of_Calm, Calm_Upgrade_S8_S10.
Qed.

(** C7. When the registry serves the digest of the present descriptor,
    [Upgrade] returns the error "no update available" at stage 0: the
    only thing it has asked of the world is the registry query; nothing is
    mounted and the namespace and the open files are untouched, the queue
    is empty. Run again on the state it left, with the registry still
    serving that digest, it gives the same error and the same state but
    for one more query in the trace. *)
Theorem Upgrade_no_update (s : ABSystem) (st : State) :
  registry_digest env (trace st) = Digest (CurImage s) ->
  Upgrade env s st =
    (Some (errors_New "no update available"),
     {| queue := []; fs := fs st; fds := fds st;
        trace := trace st ++ [EvHasUpdate (Digest (CurImage s))] |}) /\
  (registry_digest env (trace st ++ [EvHasUpdate (Digest (CurImage s))]) =
     Digest (CurImage s) ->
   Upgrade env s (Upgrade env s st).2 =
     (Some (errors_New "no update available"),
      {| queue := []; fs := fs st; fds := fds st;
         trace := (trace st ++ [EvHasUpdate (Digest (CurImage s))]) ++
                  [EvHasUpdate (Digest (CurImage s))] |})).
Proof.
  assert (Hrun : forall st0,
            registry_digest env (trace st0) = Digest (CurImage s) ->
            Upgrade env s st0 =
              (Some (errors_New "no update available"),
               {| queue := []; fs := fs st0; fds := fds st0;
                  trace := trace st0 ++ [EvHasUpdate (Digest (CurImage s))] |})).
  { intros st0 H0.
    unfold Upgrade, run, Upgrade_m, bind, ResetQueue, Upgrade_S0, bind, CheckUpdate,
      Registry_HasUpdate. simpl. rewrite H0, String.eqb_refl. by simpl. }
  intros H. split; [by apply Hrun|].
  intros H'. rewrite (Hrun st H). simpl. by rewrite Hrun.
Qed.

(** C9. Once stages 0 to 2 have succeeded, stage 3 asks the package
    manager for its final command, takes [true] in its place when it is
    the empty string, and the container file it builds, which is the one
    stage 4 hands to the rootfs generator, has as its content exactly
    [RUN ] followed by that command. *)
Theorem Upgrade_S3_recipe_body
    (s : ABSystem) (st st2 : State) (found : ABRootPartition * Partition * PodmanImage) :
  Upgrade_S0_S2 env s st = (inr found, st2) ->
  let pkgsFinal := final_cmd env (trace st2) in
  let finalCmd := if String.eqb pkgsFinal "" then "true" else pkgsFinal in
  let containerFile :=
    {| cfImage := fullImageName env;
       cfLabels := {[ "maintainer" := "'Generated by ABRoot'" ]};
       cfArgs := ∅;
       cfContent := "RUN " +:+ finalCmd |} in
  (pkgsFinal = "" -> finalCmd = "true" /\ cfContent containerFile = "RUN true") /\
  (Upgrade_S3 env st2).1 = inr containerFile /\
  exists rest,
    trace (Upgrade env s st).2 =
      trace st2 ++
      EvGetFinalCmd ::
      EvGenerateRootfs (fullImageName env) containerFile
        (MountPoint (Partition_ found.1.1))
        (MountPoint (Partition_ found.1.1) +:+ "/.system.new/") :: rest.
Proof.
  intros H. cbv zeta. split; [by intros ->|]. split; [done|].
  unfold Upgrade. rewrite run_snd, Upgrade_m_from_S3.
  rewrite (bind_inr _ _ _ _ _ H). cbv beta.
  unfold bind at 1. unfold Upgrade_S3 at 1. unfold bind at 1. unfold query at 1.
  cbv beta iota. unfold ret at 1. cbv beta iota.
  set (cf := NewContainerFile _ _ _ _).
  set (st3 := log EvGetFinalCmd _).
  unfold bind at 1. unfold Upgrade_S4 at 1. rewrite host_eq.
  set (ev := EvGenerateRootfs _ _ _ _).
  set (st4 := log ev _).
  assert (Ht4 : trace st4 = trace st2 ++ [EvGetFinalCmd; ev]).
  { subst st4 st3. unfold log, set_fs. cbn [trace].
    rewrite <- List.app_assoc. reflexivity. }
  destruct (host_err env (trace st3) ev) as [e|].
  { exists []. cbn [fst snd]. by rewrite Ht4. }
  assert (Hrest : Steady (fun st0 =>
            (run_ Upgrade_S5 env found.1.1 found.2 ;;
             run_ Upgrade_S6 env found.1.1 ;;
             Upgrade_S7_S10 env found.1) st0)).
  { apply Steady_bind; [apply Steady_of_Calm, Calm_Upgrade_S5|]. intros _.
    apply Steady_bind; [apply Steady_of_Calm, Calm_Upgrade_S6|]. intros _.
    apply Steady_Upgrade_S7_S10. }
  destruct (Hrest st4) as (new & Hn & _). exists new.
  cbv beta in Hn. rewrite Hn, Ht4. rewrite <- List.app_assoc. reflexivity.
Qed.

(** Stage 1 leaves future mounted on [/part-future/]. *)
Lemma Upgrade_S1_mount_point (st st' : State) (parts : ABRootPartition * Partition) :
  Upgrade_S1 env st = (inr parts, st') ->
  MountPoint (Partition_ parts.1) = "/part-future/".
Proof.
  unfold Upgrade_S1. intros H. revert H.
  bind_step H1; [intros [=]|].
  bind_step H2; [intros [=]|].
  bind_step H3; [intros [=]|].
  unfold bind, AddToCleanUpQueue, ret. intros [= <- _]. cbn [fst Partition_].
  revert H3. unfold Partition_Mount, host_val.
  destruct (host_err env _ _); [intros [=]|]. by intros [= <- _].
Qed.

Lemma Upgrade_S0_S2_mount_point (s : ABSystem) (st st2 : State)
    (found : ABRootPartition * Partition * PodmanImage) :
  Upgrade_S0_S2 env s st = (inr found, st2) ->
  MountPoint (Partition_ found.1.1) = "/part-future/".
Proof.
  unfold Upgrade_S0_S2. intros H. revert H.
  bind_step H0; [intros [=]|].
  bind_step H1; [intros [=]|].
  bind_step H2; [intros [=]|].
  bind_step H3; [intros [=]|].
  unfold ret. intros [= <- _]. cbn [fst].
  exact (Upgrade_S1_mount_point _ _ _ H2).
Qed.

Lemma Upgrade_S0_S5_mount_point (s : ABSystem) (st st5 : State)
    (parts : ABRootPartition * Partition) :
  Upgrade_S0_S5 env s st = (inr parts, st5) ->
  MountPoint (Partition_ parts.1) = "/part-future/".
Proof.
  unfold Upgrade_S0_S5. intros H. revert H.
  bind_step H0; [intros [=]|].
  bind_step H1; [intros [=]|].
  bind_step H2; [intros [=]|].
  bind_step H3; [intros [=]|].
  unfold ret. intros [= <- _].
  exact (Upgrade_S0_S2_mount_point _ _ _ _ H0).
Qed.

(** C2 (as the code has it). Stage 6 exchanges [.system/] with
    [.system.new/] first and only then turns to [abimage.abr] and
    [abimage-new.abr]. When the first exchange succeeds and the second
    [AtomicSwap] fails with [e], [Upgrade] returns that very [e], the
    error of the failed [os.Open] or of the kernel, and stops there: the
    namespace is the one the first exchange left, so the rootfs stays
    exchanged, and nothing is asked of the host after the failed call. *)
Theorem Upgrade_S6_second_exchange_fails
    (s : ABSystem) (st st5 st6a st6b : State)
    (parts : ABRootPartition * Partition) (e : error) :
  Upgrade_S0_S5 env s st = (inr parts, st5) ->
  AtomicSwap env
    (MountPoint (Partition_ parts.1) +:+ "/.system/")
    (MountPoint (Partition_ parts.1) +:+ "/.system.new/") st5 = (None, st6a) ->
  AtomicSwap env
    (MountPoint (Partition_ parts.1) +:+ "/abimage.abr")
    (MountPoint (Partition_ parts.1) +:+ "/abimage-new.abr") st6a = (Some e, st6b) ->
  Upgrade env s st = (Some e, st6b) /\
  fs st6b =
    exchange
      (filepath_Clean (MountPoint (Partition_ parts.1) +:+ "/.system/"))
      (filepath_Clean (MountPoint (Partition_ parts.1) +:+ "/.system.new/"))
      (fs st5) /\
  fs st6b !! filepath_Clean (MountPoint (Partition_ parts.1) +:+ "/.system/") =
    fs st5 !! filepath_Clean (MountPoint (Partition_ parts.1) +:+ "/.system.new/") /\
  exists fd1 fd2 second,
    trace st6b =
      trace st5 ++
      [EvOpen (MountPoint (Partition_ parts.1) +:+ "/.system/");
       EvOpen (MountPoint (Partition_ parts.1) +:+ "/.system.new/");
       EvRenameat2 fd1 (MountPoint (Partition_ parts.1) +:+ "/.system/")
                   fd2 (MountPoint (Partition_ parts.1) +:+ "/.system.new/")
                   RENAME_EXCHANGE] ++
      EvOpen (MountPoint (Partition_ parts.1) +:+ "/abimage.abr") :: second /\
    second `prefix_of`
      [EvOpen (MountPoint (Partition_ parts.1) +:+ "/abimage-new.abr");
       EvRenameat2 (fd2 + 1) (MountPoint (Partition_ parts.1) +:+ "/abimage.abr")
                   (fd2 + 2) (MountPoint (Partition_ parts.1) +:+ "/abimage-new.abr")
                   RENAME_EXCHANGE].
Proof.
  intros H5 Ha Hb.
  pose proof (Upgrade_S0_S5_mount_point _ _ _ _ H5) as Hmp.
  set (a := MountPoint (Partition_ parts.1) +:+ "/.system/") in *.
  set (b := MountPoint (Partition_ parts.1) +:+ "/.system.new/") in *.
  set (c := MountPoint (Partition_ parts.1) +:+ "/abimage.abr") in *.
  set (d := MountPoint (Partition_ parts.1) +:+ "/abimage-new.abr") in *.
  assert (Hup : Upgrade env s st = (Some e, st6b)).
  { unfold Upgrade. apply (run_eq _ _ _ (inl e)).
    rewrite Upgrade_m_from_S6, (bind_inr _ _ _ _ _ H5). cbv beta.
    apply bind_inl.
    assert (Ea : AtomicSwap_m env a b st5 = (inr tt, st6a)).
    { revert Ha. unfold AtomicSwap, run.
      destruct (AtomicSwap_m env a b st5) as [[ea|[]] sta]; [discriminate|].
      simpl. by intros [= <-]. }
    assert (Eb : AtomicSwap_m env c d st6a = (inl e, st6b)).
    { revert Hb. unfold AtomicSwap, run.
      destruct (AtomicSwap_m env c d st6a) as [[eb|[]] stb]; [|discriminate].
      simpl. by intros [= <- <-]. }
    unfold Upgrade_S6. fold a b c d.
    rewrite (bind_inr _ _ _ _ _ Ea). exact Eb. }
  split; [exact Hup|].
  destruct (AtomicSwap_accepted env a b st5 st6a Ha)
    as (a' & b' & i & j & Hta & Htb & Hia & Hjb & Hfs1 & Hfds & _ & Ht1).
  rewrite swap_target_abs in Hta by (subst a; by rewrite Hmp).
  rewrite swap_target_abs in Htb by (subst b; by rewrite Hmp).
  injection Hta as <-. injection Htb as <-.
  destruct (AtomicSwap_refused env c d st6a st6b e Hb)
    as (Hf2 & _ & second & more & Ht2 & Hsm).
  split; [by rewrite Hf2, Hfs1|]. split.
  { rewrite Hf2, Hfs1, Hjb. by apply (exchange_lookup _ _ _ i j). }
  exists (Z.of_nat (first_fd env + length (fds st5))), (Z.of_nat (first_fd env + length (fds st5 ++ [a]))), second.
  split.
  - rewrite Ht2, Ht1. by rewrite <- !app_assoc.
  - exists more. rewrite Hsm, Hfds, !length_app. cbn [length].
    f_equal. f_equal. f_equal; lia.
Qed.

End UpgradeStages.

(** ** The claims on concrete worlds *)

Lemma Upgrade_no_update_witness :
  registry_digest no_update_world (trace empty_state) = Digest (CurImage demo_system) /\
  Upgrade no_update_world demo_system empty_state =
    (Some (errors_New "no update available"),
     {| queue := []; fs := ∅; fds := []; trace := [EvHasUpdate "sha:A"] |}).
Proof.
  split; [reflexivity|].
  apply (Upgrade_no_update no_update_world demo_system empty_state). reflexivity.
Defined.

Lemma Upgrade_S3_recipe_body_witness :
  Upgrade_S0_S2 calm_world demo_system empty_state =
    (inr demo_found, (Upgrade_S0_S2 calm_world demo_system empty_state).2) /\
  (Upgrade_S3 calm_world (Upgrade_S0_S2 calm_world demo_system empty_state).2).1 =
    inr {| cfImage := "ghcr.io/vanilla-os/desktop:main";
           cfLabels := {[ "maintainer" := "'Generated by ABRoot'" ]};
           cfArgs := ∅;
           cfContent := "RUN true" |}.
Proof.
  assert (H : Upgrade_S0_S2 calm_world demo_system empty_state =
              (inr demo_found, (Upgrade_S0_S2 calm_world demo_system empty_state).2))
    by (vm_compute; reflexivity).
  split; [exact H|].
  exact (proj1 (proj2 (Upgrade_S3_recipe_body calm_world demo_system empty_state _ _ H))).
Defined.

Lemma Upgrade_S6_second_exchange_fails_witness :
  Upgrade_S0_S5 descriptor_refused_world demo_system empty_state =
    (inr (demo_mounted, demo_boot), refused_before_S6) /\
  AtomicSwap descriptor_refused_world
    "/part-future//.system/" "/part-future//.system.new/" refused_before_S6 =
    (None, refused_after_rootfs) /\
  AtomicSwap descriptor_refused_world
    "/part-future//abimage.abr" "/part-future//abimage-new.abr" refused_after_rootfs =
    (Some (SyscallErrno EXDEV), refused_after_descriptor) /\
  Upgrade descriptor_refused_world demo_system empty_state =
    (Some (SyscallErrno EXDEV), refused_after_descriptor).
Proof.
  assert (H1 : Upgrade_S0_S5 descriptor_refused_world demo_system empty_state =
               (inr (demo_mounted, demo_boot), refused_before_S6))
    by (vm_compute; reflexivity).
  assert (H2 : AtomicSwap descriptor_refused_world
                 (MountPoint (Partition_ (demo_mounted, demo_boot).1) +:+ "/.system/")
                 (MountPoint (Partition_ (demo_mounted, demo_boot).1) +:+ "/.system.new/")
                 refused_before_S6 = (None, refused_after_rootfs))
    by (vm_compute; reflexivity).
  assert (H3 : AtomicSwap descriptor_refused_world
                 (MountPoint (Partition_ (demo_mounted, demo_boot).1) +:+ "/abimage.abr")
                 (MountPoint (Partition_ (demo_mounted, demo_boot).1) +:+ "/abimage-new.abr")
                 refused_after_rootfs =
               (Some (SyscallErrno EXDEV), refused_after_descriptor))
    by (vm_compute; reflexivity).
  split; [exact H1|]. split; [exact H2|]. split; [exact H3|].
  exact (proj1 (Upgrade_S6_second_exchange_fails descriptor_refused_world demo_system
                  empty_state _ _ _ _ _ H1 H2 H3)).
Defined.

(** C1: the claim fails on the failure path and on the success path.
    When the pull of stage 2 fails, [Upgrade] returns with future still
    mounted and its unmount still queued; when every stage succeeds it
    returns [nil] with both entries still queued, seven mounts made and
    none released. *)
Lemma Upgrade_returns_without_draining :
  (Upgrade pull_fails_world demo_system empty_state).1 = Some (CollabError "pull failed") /\
  queue (Upgrade pull_fails_world demo_system empty_state).2 =
    [ {| Name := "umountFuture"; Values := [VABRootPartition demo_mounted] |} ] /\
  trace (Upgrade pull_fails_world demo_system empty_state).2 =
    [ EvHasUpdate "sha:A"; EvGetFuture; EvGetBoot;
      EvMount (Partition_ demo_future) "/part-future/";
      EvPull "ghcr.io/vanilla-os/desktop:main" ] /\
  (Upgrade calm_world demo_system empty_state).1 = None /\
  queue (Upgrade calm_world demo_system empty_state).2 =
    [ {| Name := "umountFuture"; Values := [VABRootPartition demo_mounted] |};
      {| Name := "closeChroot"; Values := [VChroot demo_chroot] |} ] /\
  List.filter is_release (trace (Upgrade calm_world demo_system empty_state).2) = [] /\
  length
    (List.filter
       (fun ev =>
          match ev with
          | EvMount _ _ => true
          | EvExec name ("--bind" :: _ :: _) => String.eqb name "mount"
          | _ => false
          end)
       (trace (Upgrade calm_world demo_system empty_state).2)) = 7.
Proof. repeat split; vm_compute; reflexivity. Qed.

(** C2: the claim fails on the error returned.  With the exchange of the
    descriptor refused, [.system] is exchanged (it denotes the new tree,
    inode 20), [abimage.abr] is the old descriptor, and what [Upgrade]
    returns is the kernel's bare [EXDEV]; with the exchange of the rootfs
    refused instead, nothing is exchanged and [Upgrade] returns the same
    value.  No reading of the returned error tells the two apart, so it
    names no descriptor mismatch. *)
Lemma Upgrade_S6_no_descriptor_mismatch_kind :
  (Upgrade descriptor_refused_world demo_system empty_state).1 =
    Some (SyscallErrno EXDEV) /\
  fs (Upgrade descriptor_refused_world demo_system empty_state).2
    !! "/part-future/.system" = Some 20 /\
  fs (Upgrade descriptor_refused_world demo_system empty_state).2
    !! "/part-future/abimage.abr" = Some 11 /\
  (Upgrade rootfs_refused_world demo_system empty_state).1 =
    Some (SyscallErrno EXDEV) /\
  fs (Upgrade rootfs_refused_world demo_system empty_state).2
    !! "/part-future/.system" = Some 10 /\
  ~ exists is_descriptor_mismatch : option error -> bool,
      is_descriptor_mismatch
        (Upgrade descriptor_refused_world demo_system empty_state).1 = true /\
      is_descriptor_mismatch
        (Upgrade rootfs_refused_world demo_system empty_state).1 = false.
Proof.
  assert (H1 : (Upgrade descriptor_refused_world demo_system empty_state).1 =
               Some (SyscallErrno EXDEV)) by (vm_compute; reflexivity).
  assert (H2 : (Upgrade rootfs_refused_world demo_system empty_state).1 =
               Some (SyscallErrno EXDEV)) by (vm_compute; reflexivity).
  split; [exact H1|]. split; [vm_compute; reflexivity|].
  split; [vm_compute; reflexivity|]. split; [exact H2|].
  split; [vm_compute; reflexivity|].
  intros (k & Hk1 & Hk2). rewrite H1 in Hk1. rewrite H2 in Hk2. congruence.
Qed.

(** ** The grub recipe *)

Lemma append_assoc (a b c : string) : (a +:+ b) +:+ c = a +:+ (b +:+ c).
Proof.
  induction a as [|x a IH]; [done|].
  change (String x ((a +:+ b) +:+ c) = String x (a +:+ (b +:+ c))). by rewrite IH.
Qed.

Lemma list_ascii_of_string_app (a b : string) :
  list_ascii_of_string (a +:+ b) = list_ascii_of_string a ++ list_ascii_of_string b.
Proof.
  induction a as [|x a IH]; [done|].
  change (x :: list_ascii_of_string (a +:+ b) =
          x :: list_ascii_of_string a ++ list_ascii_of_string b).
  by rewrite IH.
Qed.

Lemma drop_seps_elem (l k : list ascii) (c : ascii) :
  is_sep c = false -> drop_seps (c :: l ++ k) = c :: l ++ k.
Proof. intros H. simpl. by rewrite H. Qed.

Lemma take_elem_app (l k : list ascii) :
  forallb (fun c => negb (is_sep c)) l = true ->
  take_elem (l ++ "/"%char :: k) = l.
Proof.
  induction l as [|c l IH]; simpl; [done|].
  intros H. apply andb_true_iff in H as [Hc Hl].
  destruct (is_sep c); [done|]. by rewrite IH.
Qed.

Lemma last_elem_chars (d n : list ascii) :
  n <> [] ->
  forallb (fun c => negb (is_sep c)) n = true ->
  match drop_seps (rev (d ++ "/"%char :: n)) with
  | [] => "/"
  | r => string_of_list_ascii (rev (take_elem r))
  end = string_of_list_ascii n.
Proof.
  intros Hne Hall.
  assert (Hr : forallb (fun c => negb (is_sep c)) (rev n) = true).
  { rewrite forallb_forall in *. intros x Hx. apply Hall. by apply in_rev. }
  replace (rev (d ++ "/"%char :: n)) with (rev n ++ "/"%char :: rev d).
  2:{ rewrite rev_app_distr. simpl. by rewrite <- app_assoc. }
  destruct (rev n) as [|c l] eqn:Hrev.
  { apply (f_equal (@rev ascii)) in Hrev. rewrite rev_involutive in Hrev. done. }
  pose proof Hr as Hr'. simpl in Hr'. apply andb_true_iff in Hr' as [Hc Hl].
  apply negb_true_iff in Hc.
  rewrite <- app_comm_cons, drop_seps_elem by done.
  rewrite app_comm_cons, take_elem_app by done.
  rewrite <- Hrev. by rewrite rev_involutive.
Qed.

(** The last element of [dir/name] is [name]. *)
Lemma filepath_Base_entry (dir name : string) :
  is_kernel_name name = true -> filepath_Base (dir +:+ "/" +:+ name) = name.
Proof.
  intros H. apply andb_true_iff in H as [Hp Hs].
  assert (Hne : list_ascii_of_string name <> []).
  { destruct name; [discriminate Hp|done]. }
  unfold filepath_Base.
  destruct (dir +:+ "/" +:+ name) as [|x p] eqn:Hpath.
  { apply (f_equal list_ascii_of_string) in Hpath.
    rewrite !list_ascii_of_string_app in Hpath. simpl in Hpath.
    by destruct (list_ascii_of_string dir). }
  rewrite <- Hpath, !list_ascii_of_string_app.
  change (list_ascii_of_string "/") with ["/"%char].
  change (["/"%char] ++ list_ascii_of_string name)
    with ("/"%char :: list_ascii_of_string name).
  rewrite (last_elem_chars _ _ Hne Hs). apply string_of_list_ascii_of_string.
Qed.

Lemma fold_versions (dir : string) (names : list string) (start : string) :
  Forall (fun name => is_kernel_name name = true) names ->
  fold_left
    (fun maxVersion file =>
       let version := filepath_Base file in
       if string_gt version maxVersion then version else maxVersion)
    (map (fun name => dir +:+ "/" +:+ name) names) start =
  greatest names start.
Proof.
  unfold greatest. revert start. induction names as [|n names IH]; intros start H.
  - done.
  - inversion H as [|? ? Hn Hrest]; subst. cbn [map fold_left].
    rewrite (filepath_Base_entry dir n Hn). by apply IH.
Qed.

Lemma max_version_entries (dir : string) (names : list string) :
  Forall (fun name => is_kernel_name name = true) names ->
  max_version (map (fun name => dir +:+ "/" +:+ name) names) = greatest names "".
Proof. apply fold_versions. Qed.

Lemma string_gt_false_le (a b : string) : string_gt a b = false -> String.le a b.
Proof.
  unfold string_gt, String.ltb, String.le, String.leb.
  rewrite (String.compare_antisym a b).
  destruct (b ?= a)%string; simpl; done.
Qed.

Lemma string_gt_true_le (a b : string) : string_gt a b = true -> String.le b a.
Proof.
  unfold string_gt, String.ltb, String.le, String.leb.
  destruct (b ?= a)%string; simpl; done.
Qed.

(** The loop keeps the greatest version seen, or the start value. *)
Lemma greatest_spec (versions : list string) (start : string) :
  String.le start (greatest versions start) /\
  (forall v, v ∈ versions -> String.le v (greatest versions start)) /\
  (greatest versions start = start \/ greatest versions start ∈ versions).
Proof.
  revert start. induction versions as [|v versions IH]; intros start; simpl.
  - split; [done|]. split; [|by left]. intros v Hv. by apply elem_of_nil in Hv.
  - unfold greatest in *. simpl.
    destruct (string_gt v start) eqn:Hgt.
    + destruct (IH v) as (H1 & H2 & H3). split; [|split].
      * etrans; [|exact H1]. by apply string_gt_true_le.
      * intros w Hw. apply elem_of_cons in Hw as [->|Hw]; [done|by apply H2].
      * right. destruct H3 as [->|H3]; [by left|by right].
    + destruct (IH start) as (H1 & H2 & H3). split; [done|split].
      * intros w Hw. apply elem_of_cons in Hw as [->|Hw]; [|by apply H2].
        etrans; [|exact H1]. by apply string_gt_false_le.
      * destruct H3 as [H3|H3]; [by left|right; by right].
Qed.

Lemma kernel_name_not_empty (name : string) : is_kernel_name name = true -> name <> "".
Proof. intros H ->. discriminate H. Qed.

Lemma greatest_kernel (n : string) (names : list string) :
  Forall (fun name => is_kernel_name name = true) (n :: names) ->
  greatest (n :: names) "" ∈ n :: names /\
  (forall v, v ∈ n :: names -> String.le v (greatest (n :: names) "")).
Proof.
  intros H. destruct (greatest_spec (n :: names) "") as (_ & H2 & H3).
  split; [|exact H2]. destruct H3 as [H3|H3]; [|done].
  exfalso. assert (Hn : String.le n "") by (rewrite <- H3; apply H2; by left).
  inversion H as [|? ? Hk _]; subst. apply kernel_name_not_empty in Hk.
  destruct n; [done|]. done.
Qed.

Lemma append_nil_r (a : string) : a +:+ "" = a.
Proof.
  induction a as [|x a IH]; [done|].
  change (String x (a +:+ "") = String x a). by rewrite IH.
Qed.

Lemma fmt_Sprintf_plain (p rest : string) (args : list string) :
  no_verb p = true -> fmt_Sprintf (p +:+ rest) args = p +:+ fmt_Sprintf rest args.
Proof.
  unfold no_verb. induction p as [|c p IH]; intros H; [done|].
  simpl in H. apply andb_true_iff in H as [Hc Hp]. apply negb_true_iff in Hc.
  change (fmt_Sprintf (String c (p +:+ rest)) args = String c (p +:+ fmt_Sprintf rest args)).
  cbn [fmt_Sprintf]. rewrite Hc. by rewrite IH.
Qed.

Lemma fmt_Sprintf_verb (rest a : string) (args : list string) :
  fmt_Sprintf ("%s" +:+ rest) (a :: args) = a +:+ fmt_Sprintf rest args.
Proof. reflexivity. Qed.

Lemma template_pieces :
  template =
    piece0 +:+ "%s" +:+ piece1 +:+ "%s" +:+ piece2 +:+ "%s" +:+
    piece3 +:+ "%s" +:+ piece4 +:+ "%s" +:+ "".
Proof. vm_compute. reflexivity. Qed.

(** The recipe [generateGrubRecipe] formats. *)
Lemma recipe_text (entryName rootUuid kernelVersion : string) :
  fmt_Sprintf template [entryName; rootUuid; kernelVersion; rootUuid; kernelVersion] =
    recipe_head entryName rootUuid +:+ nl +:+ tab +:+
    "linux   /.system/boot/vmlinuz-" +:+ kernelVersion +:+
    " root=UUID=" +:+ rootUuid +:+
    " quiet splash bgrt_disable $vt_handoff" +:+ nl +:+ tab +:+
    "initrd  /.system/boot/initrd.img-" +:+ kernelVersion.
Proof.
  rewrite template_pieces.
  rewrite (fmt_Sprintf_plain piece0) by (vm_compute; reflexivity).
  rewrite fmt_Sprintf_verb.
  rewrite (fmt_Sprintf_plain piece1) by (vm_compute; reflexivity).
  rewrite fmt_Sprintf_verb.
  rewrite (fmt_Sprintf_plain piece2) by (vm_compute; reflexivity).
  rewrite fmt_Sprintf_verb.
  rewrite (fmt_Sprintf_plain piece3) by (vm_compute; reflexivity).
  rewrite fmt_Sprintf_verb.
  rewrite (fmt_Sprintf_plain piece4) by (vm_compute; reflexivity).
  rewrite fmt_Sprintf_verb.
  change (fmt_Sprintf "" []) with "". rewrite append_nil_r.
  unfold recipe_head, piece2, piece3, piece4. by rewrite !append_assoc.
Qed.

Section GrubFacts.

Variable env : Env.

(** C3 (as the code has it). When the glob on [boot/vmlinuz-*] under the
    root fails, as it does for a root that is not a well-formed pattern,
    [generateGrubRecipe] returns the error "could not get kernel
    version" and writes nothing, whatever lies under [boot].  When the
    glob succeeds and answers the entries [names] of that directory: with no
    entry it returns the same error and writes nothing; with one or more,
    [ver] is the entry that is greatest in byte order, the whole file
    name, and the recipe handed to [WriteFile] for
    [etc/grub.d/10_abroot], mode 0644, once [MkdirAll] has made the
    directory, has the line [linux   /.system/boot/vmlinuz-<ver>
    root=UUID=<uuid> quiet splash bgrt_disable $vt_handoff] followed by
    the [initrd] line for the same [ver]. *)
Theorem generateGrubRecipe_linux_line
    (rootPath rootUuid entryName dir : string) (names : list string) (st : State) :
  let pattern := filepath_Join [rootPath; "boot"; "vmlinuz-*"] in
  glob_files env (trace st) pattern = map (fun name => dir +:+ "/" +:+ name) names ->
  Forall (fun name => is_kernel_name name = true) names ->
  let res := generateGrubRecipe env rootPath rootUuid entryName st in
  match host_err env (trace st) (EvGlob pattern) with
  | Some _ =>
      res = (inl (errors_New "could not get kernel version"), log (EvGlob pattern) st)
  | None =>
      match names with
      | [] =>
          res = (inl (errors_New "could not get kernel version"), log (EvGlob pattern) st)
      | _ :: _ =>
          exists ver,
            ver ∈ names /\
            (forall name, name ∈ names -> String.le name ver) /\
            let recipe :=
              recipe_head entryName rootUuid +:+ nl +:+ tab +:+
              "linux   /.system/boot/vmlinuz-" +:+ ver +:+
              " root=UUID=" +:+ rootUuid +:+
              " quiet splash bgrt_disable $vt_handoff" +:+ nl +:+ tab +:+
              "initrd  /.system/boot/initrd.img-" +:+ ver in
            let mkdir := EvMkdirAll (filepath_Join [rootPath; "etc"; "grub.d"]) 493 in
            let write :=
              EvWriteFile (filepath_Join [rootPath; "etc"; "grub.d"; "10_abroot"])
                recipe 420 in
            match host_err env (trace st ++ [EvGlob pattern]) mkdir with
            | Some e => res.1 = inl e /\ trace res.2 = trace st ++ [EvGlob pattern; mkdir]
            | None =>
                trace res.2 = trace st ++ [EvGlob pattern; mkdir; write] /\
                res.1 =
                  match host_err env (trace st ++ [EvGlob pattern; mkdir]) write with
                  | Some e => inl e
                  | None => inr tt
                  end
            end
      end
  end.
Proof.
  intros pattern Hfiles Hnames res. subst res.
  unfold generateGrubRecipe.
  destruct (host_err env (trace st) (EvGlob pattern)) as [eg|] eqn:Hglob.
  { assert (Hk : getKernelVersion env rootPath st = (inr "", log (EvGlob pattern) st)).
    { unfold getKernelVersion. fold pattern. by rewrite Hglob. }
    by rewrite (bind_inr _ _ _ _ _ Hk). }
  assert (Hk : getKernelVersion env rootPath st =
               (inr (match names with [] => "" | _ => greatest names "" end),
                log (EvGlob pattern) st)).
  { unfold getKernelVersion. fold pattern. rewrite Hglob, Hfiles, length_map.
    destruct names as [|n names]; [done|]. cbn [length Nat.eqb].
    by rewrite (max_version_entries dir (n :: names) Hnames). }
  rewrite (bind_inr _ _ _ _ _ Hk).
  destruct names as [|n names]; [done|].
  destruct (greatest_kernel n names Hnames) as [Hin Hmax].
  set (ver := greatest (n :: names) "") in *.
  assert (Hne : String.eqb ver "" = false).
  { apply String.eqb_neq. apply kernel_name_not_empty.
    rewrite Forall_forall in Hnames. by apply Hnames. }
  rewrite Hne. exists ver. split; [done|]. split; [done|]. cbv zeta.
  rewrite recipe_text.
  set (mkdir := EvMkdirAll _ _). set (write := EvWriteFile _ _ _).
  unfold bind. rewrite host_eq. cbn [trace log].
  destruct (host_err env (trace st ++ [EvGlob pattern]) mkdir) as [e|].
  - cbn [fst snd trace log set_fs]. by rewrite <- app_assoc.
  - rewrite host_eq. cbn [fst snd trace log set_fs].
    rewrite <- !app_assoc. done.
Qed.

End GrubFacts.

Lemma generateGrubRecipe_linux_line_witness :
  glob_files two_kernels_world (trace empty_state)
    (filepath_Join ["/part-future//.system/"; "boot"; "vmlinuz-*"]) =
    map (fun name => "/part-future/.system/boot" +:+ "/" +:+ name)
      ["vmlinuz-6.10.2"; "vmlinuz-6.9.1"] /\
  Forall (fun name => is_kernel_name name = true) ["vmlinuz-6.10.2"; "vmlinuz-6.9.1"] /\
  exists ver,
    ver ∈ ["vmlinuz-6.10.2"; "vmlinuz-6.9.1"] /\
    (forall name, name ∈ ["vmlinuz-6.10.2"; "vmlinuz-6.9.1"] -> String.le name ver) /\
    trace (generateGrubRecipe two_kernels_world "/part-future//.system/" "abc-123" "Foo"
             empty_state).2 =
      [ EvGlob "/part-future/.system/boot/vmlinuz-*";
        EvMkdirAll "/part-future/.system/etc/grub.d" 493;
        EvWriteFile "/part-future/.system/etc/grub.d/10_abroot"
          (recipe_head "Foo" "abc-123" +:+ nl +:+ tab +:+
           "linux   /.system/boot/vmlinuz-" +:+ ver +:+
           " root=UUID=" +:+ "abc-123" +:+
           " quiet splash bgrt_disable $vt_handoff" +:+ nl +:+ tab +:+
           "initrd  /.system/boot/initrd.img-" +:+ ver)
          420 ].
Proof.
  assert (H2 : glob_files two_kernels_world (trace empty_state)
                 (filepath_Join ["/part-future//.system/"; "boot"; "vmlinuz-*"]) =
               map (fun name => "/part-future/.system/boot" +:+ "/" +:+ name)
                 ["vmlinuz-6.10.2"; "vmlinuz-6.9.1"]) by (vm_compute; reflexivity).
  assert (H3 : Forall (fun name => is_kernel_name name = true)
                 ["vmlinuz-6.10.2"; "vmlinuz-6.9.1"])
    by (repeat constructor).
  split; [exact H2|]. split; [exact H3|].
  destruct (generateGrubRecipe_linux_line two_kernels_world
              "/part-future//.system/" "abc-123" "Foo" "/part-future/.system/boot"
              ["vmlinuz-6.10.2"; "vmlinuz-6.9.1"] empty_state H2 H3)
    as (ver & Hin & Hmax & Hrun).
  exists ver. split; [exact Hin|]. split; [exact Hmax|].
  exact (proj1 Hrun).
Defined.

(** C3: the claim fails for a root with a kernel under [boot] whose name
    is not a well-formed glob pattern.  Under [/tmp/abv/r[] the glob
    fails on the unclosed bracket, [getKernelVersion] takes that for no
    kernel, and [generateGrubRecipe] returns the error and writes no
    recipe: the glob is all it asked of the host. *)
Lemma generateGrubRecipe_kernel_present_no_recipe :
  fs bracket_root !! "/tmp/abv/r[/boot/vmlinuz-6.5.0-1" = Some 40 /\
  is_kernel_name "vmlinuz-6.5.0-1" = true /\
  host_err bracket_world (trace bracket_root) (EvGlob "/tmp/abv/r[/boot/vmlinuz-*") =
    Some (errors_New "syntax error in pattern") /\
  generateGrubRecipe bracket_world "/tmp/abv/r[" "abc-123" "Foo" bracket_root =
    (inl (errors_New "could not get kernel version"),
     log (EvGlob "/tmp/abv/r[/boot/vmlinuz-*") bracket_root).
Proof. repeat split; vm_compute; reflexivity. Qed.

(** ** The scenarios of the specification, run *)

(** E1, the happy path: [Upgrade] returns [nil]; [.system] denotes the new
    tree, [abimage.abr] the new descriptor and [grub.cfg] what was
    [grub.cfg.future]; six files were opened and none closed. *)
Example Upgrade_happy_path :
  (Upgrade calm_world demo_system empty_state).1 = None /\
  fs (Upgrade calm_world demo_system empty_state).2 !! "/part-future/.system" = Some 20 /\
  fs (Upgrade calm_world demo_system empty_state).2 !! "/part-future/abimage.abr" = Some 21 /\
  fs (Upgrade calm_world demo_system empty_state).2 !! "/tmp/3f6c/grub.cfg" = Some 31 /\
  length (fds (Upgrade calm_world demo_system empty_state).2) = 6.
Proof. repeat split; vm_compute; reflexivity. Qed.

(** The recipe for one kernel [vmlinuz-6.5.0-1], UUID [abc-123] and entry
    name [Foo]: the version is the whole file name. *)
Example recipe_for_one_kernel :
  (generateGrubRecipe calm_world "/part-future//.system/" "abc-123" "Foo" empty_state).1 =
    inr tt /\
  trace (generateGrubRecipe calm_world "/part-future//.system/" "abc-123" "Foo"
           empty_state).2 =
    [ EvGlob "/part-future/.system/boot/vmlinuz-*";
      EvMkdirAll "/part-future/.system/etc/grub.d" 493;
      EvWriteFile "/part-future/.system/etc/grub.d/10_abroot"
        (recipe_head "Foo" "abc-123" +:+ nl +:+ tab +:+
         "linux   /.system/boot/vmlinuz-vmlinuz-6.5.0-1 root=UUID=abc-123 quiet splash bgrt_disable $vt_handoff"
         +:+ nl +:+ tab +:+
         "initrd  /.system/boot/initrd.img-vmlinuz-6.5.0-1")
        420 ].
Proof. split; vm_compute; reflexivity. Qed.

(** Byte order, not version order: 6.9 is greater than 6.10. *)
Example greatest_is_bytewise :
  greatest ["vmlinuz-6.10.2"; "vmlinuz-6.9.1"] "" = "vmlinuz-6.9.1".
Proof. reflexivity. Qed.

(** E6, no kernel under [boot]: stage 7 fails after the rootfs has been
    exchanged in stage 6. *)
Example Upgrade_kernel_missing :
  (Upgrade (demo_env "sha:B" "" [] nothing_fails (CollabError "")) demo_system
     empty_state).1 = Some (errors_New "could not get kernel version") /\
  fs (Upgrade (demo_env "sha:B" "" [] nothing_fails (CollabError "")) demo_system
        empty_state).2 !! "/part-future/.system" = Some 20.
Proof. split; vm_compute; reflexivity. Qed.

(** The paths [Upgrade] builds by concatenation and what the library
    makes of them. *)
Example paths_cleaned :
  filepath_Clean "/part-future//.system/" = "/part-future/.system" /\
  strings_ReplaceAll "/part-future//.system/" "//" "/" = "/part-future/.system/" /\
  filepath_Join ["/part-future//.system/"; "etc"; "grub.d"; "10_abroot"] =
    "/part-future/.system/etc/grub.d/10_abroot" /\
  filepath_Base "/part-future/.system/boot/vmlinuz-6.5.0-1" = "vmlinuz-6.5.0-1".
Proof. repeat split; reflexivity. Qed.

(** * Further properties of the code *)

(** ** [SyncEtc], [Execute] and [ExecuteCmds] *)

Section MoreLoops.

Variable env : Env.

(** [SyncEtc] merges [passwd], [group], [shells], [shadow], [subuid] and
    [subgid] in that order, each from [/var/lib/abroot/etc/] into
    [systemEtc].  When the world accepts all six merges it makes all six
    and returns [nil]; otherwise it stops at the first merge that fails,
    whose error it returns: the files after it are not merged. *)
Theorem SyncEtc_in_order_until_error (systemEtc : string) (st : State) :
  let res := SyncEtc env systemEtc st in
  let files := ["passwd"; "group"; "shells"; "shadow"; "subuid"; "subgid"] in
  queue res.2 = queue st /\ fds res.2 = fds st /\
  ((accepted env (trace st) (map (merge_call systemEtc) files) = true /\
    res.1 = inr tt /\
    trace res.2 = trace st ++ map (merge_call systemEtc) files) \/
   (exists pre file post e,
      files = pre ++ file :: post /\
      accepted env (trace st) (map (merge_call systemEtc) pre) = true /\
      host_err env (trace st ++ map (merge_call systemEtc) pre)
        (merge_call systemEtc file) = Some e /\
      res.1 = inl e /\
      trace res.2 = trace st ++ map (merge_call systemEtc) (pre ++ [file]))).
Proof. exact (forM_host_first env (merge_call systemEtc) etcFiles st). Qed.

(** [ExecuteCmds] runs the commands in list order, each as
    [chroot <root> /bin/sh -c <cmd>].  When the world accepts them all it
    runs them all and returns [nil]; otherwise it stops at the first
    command that fails, whose error it returns, and runs none of the
    commands after it; with no command it does nothing. *)
Theorem Chroot_ExecuteCmds_in_order_until_error
    (c : Chroot) (cmds : list string) (st : State) :
  let res := Chroot_ExecuteCmds env c cmds st in
  queue res.2 = queue st /\ fds res.2 = fds st /\
  ((accepted env (trace st) (map (chroot_call c) cmds) = true /\
    res.1 = inr tt /\ trace res.2 = trace st ++ map (chroot_call c) cmds) \/
   (exists pre cmd post e,
      cmds = pre ++ cmd :: post /\
      accepted env (trace st) (map (chroot_call c) pre) = true /\
      host_err env (trace st ++ map (chroot_call c) pre) (chroot_call c cmd) = Some e /\
      res.1 = inl e /\
      trace res.2 = trace st ++ map (chroot_call c) (pre ++ [cmd]))).
Proof. exact (forM_host_first env (chroot_call c) cmds st). Qed.

Lemma strings_Join_cons (a b : string) (rest : list string) (sep : string) :
  strings_Join (a :: b :: rest) sep = a +:+ sep +:+ strings_Join (b :: rest) sep.
Proof. reflexivity. Qed.

(** [Execute] glues the command and its arguments with single spaces and
    hands the shell one string: an argument is not quoted, so passing it
    as an argument or appending it to the command after a space is the
    same call. *)
Theorem Chroot_Execute_args_not_quoted
    (c : Chroot) (cmd a : string) (args : list string) :
  Chroot_Execute env c cmd (a :: args) = Chroot_Execute env c (cmd +:+ " " +:+ a) args.
Proof.
  unfold Chroot_Execute. do 2 f_equal. f_equal. f_equal. f_equal.
  rewrite strings_Join_cons. destruct args as [|b args].
  - reflexivity.
  - rewrite !strings_Join_cons. by rewrite !append_assoc.
Qed.

End MoreLoops.

(** ** [NewChroot] and [Close] *)

Section ChrootFacts.

Variable env : Env.

Lemma os_Stat_eq (name : string) (st : State) :
  os_Stat env name st = (inr (stat_error env st name), log (EvStat name) st).
Proof. reflexivity. Qed.

(** [NewChroot] once the root has passed the [stat]: the [mount --bind / /]
    inside the chroot, then the five binds, up to the first call the
    world refuses. *)
Lemma NewChroot_run (root0 rootUuid0 rootDevice0 : string) (st : State) :
  let r := strings_ReplaceAll root0 "//" "/" in
  let c := {| root := r; rootUuid := rootUuid0; rootDevice := rootDevice0 |} in
  let calls := chroot_call c "mount --bind / /" :: map (bind_call r) ReservedMounts in
  let res := NewChroot env root0 rootUuid0 rootDevice0 st in
  if os_IsNotExist (stat_error env st r) then
    exists e, stat_error env st r = Some e /\ res = (inl e, log (EvStat r) st)
  else
    queue res.2 = queue st /\ fds res.2 = fds st /\
    ((accepted env (trace st ++ [EvStat r]) calls = true /\
      res.1 = inr c /\
      trace res.2 = trace st ++ EvStat r :: calls) \/
     (exists pre call post e,
        calls = pre ++ call :: post /\
        accepted env (trace st ++ [EvStat r]) pre = true /\
        host_err env ((trace st ++ [EvStat r]) ++ pre) call = Some e /\
        res.1 = inl e /\
        trace res.2 = trace st ++ EvStat r :: pre ++ [call])).
Proof.
  cbv zeta. unfold NewChroot.
  set (r := strings_ReplaceAll root0 "//" "/").
  set (c := {| root := r; rootUuid := rootUuid0; rootDevice := rootDevice0 |}).
  rewrite (bind_inr _ _ _ _ _ (os_Stat_eq r st)).
  destruct (os_IsNotExist (stat_error env st r)) eqn:Hne.
  { destruct (stat_error env st r) as [e|]; [|done]. by exists e. }
  cbv iota.
  change (Chroot_Execute env c "mount" ["--bind"; "/"; "/"])
    with (host env (chroot_call c "mount --bind / /")).
  change (forM_ ReservedMounts
            (fun mount => exec_Run env "mount" ["--bind"; mount; r +:+ mount]))
    with (forM_ ReservedMounts (fun mount => host env (bind_call r mount))).
  set (inner := chroot_call c "mount --bind / /").
  set (st1 := log (EvStat r) st).
  change (trace st ++ [EvStat r]) with (trace st1).
  pose proof (host_eq env inner st1) as Hi.
  set (st2 := log inner _) in Hi.
  assert (Ht2 : trace st2 = trace st1 ++ [inner]) by reflexivity.
  assert (Ht1 : forall l, trace st1 ++ l = trace st ++ EvStat r :: l).
  { intros l. subst st1. cbn [trace log]. by rewrite <- app_assoc. }
  cbn [accepted].
  destruct (host_err env (trace st1) inner) as [e|] eqn:He.
  { rewrite (bind_inl _ _ _ _ _ Hi). cbn [fst snd]. split; [done|]. split; [done|].
    right. exists [], inner, (map (bind_call r) ReservedMounts), e.
    rewrite app_nil_r. split; [done|]. split; [done|]. split; [done|].
    split; [done|]. by rewrite Ht2, Ht1. }
  rewrite (bind_inr _ _ _ _ _ Hi).
  destruct (forM_host_first env (bind_call r) ReservedMounts st2)
    as (Hq & Hfd & [(Ha & Hr & Ht)|(pre & m & post & e & Hl & Ha & Hf & Hr & Ht)]);
    destruct (forM_ ReservedMounts _ st2) as [[e'|[]] st3] eqn:Hrun;
    cbn [fst snd] in *; try discriminate.
  - rewrite (bind_inr _ _ _ _ _ Hrun). cbn [ret fst snd].
    split; [by rewrite Hq|]. split; [by rewrite Hfd|]. left.
    split; [exact Ha|]. split; [done|].
    by rewrite Ht, Ht2, <- app_assoc, Ht1.
  - injection Hr as ->. rewrite (bind_inl _ _ _ _ _ Hrun). cbn [fst snd].
    split; [by rewrite Hq|]. split; [by rewrite Hfd|]. right.
    exists (inner :: map (bind_call r) pre), (bind_call r m), (map (bind_call r) post), e.
    split; [by rewrite Hl, map_app|].
    split; [cbn [accepted]; by rewrite He|].
    split; [by rewrite Ht2, <- app_assoc in Hf|].
    split; [done|].
    rewrite Ht, Ht2, map_app, <- app_assoc, Ht1. reflexivity.
Qed.


(** When the [stat] of the root reports no missing path, [NewChroot]
    first runs [mount --bind / /] inside the chroot and then bind-mounts
    [/dev], [/dev/pts], [/proc], [/run] and [/sys] under the root, in
    that order.  When the world accepts all six calls it has made them
    all and returns the chroot.  Otherwise it stops at the first call
    that fails and returns that error and no chroot, and it undoes
    nothing: the binds made before the failing call stay, the failing
    call is the last thing asked of the host, no [umount] is issued. *)
Theorem NewChroot_binds_in_order_no_undo
    (root0 rootUuid0 rootDevice0 : string) (st : State) :
  let r := strings_ReplaceAll root0 "//" "/" in
  let c := {| root := r; rootUuid := rootUuid0; rootDevice := rootDevice0 |} in
  let calls :=
    chroot_call c "mount --bind / /" ::
    map (bind_call r) ["/dev"; "/dev/pts"; "/proc"; "/run"; "/sys"] in
  let res := NewChroot env root0 rootUuid0 rootDevice0 st in
  os_IsNotExist (stat_error env st r) = false ->
  (accepted env (trace st ++ [EvStat r]) calls = true /\
   res.1 = inr c /\
   trace res.2 = trace st ++ EvStat r :: calls) \/
  (exists pre call post e,
     calls = pre ++ call :: post /\
     accepted env (trace st ++ [EvStat r]) pre = true /\
     host_err env ((trace st ++ [EvStat r]) ++ pre) call = Some e /\
     res.1 = inl e /\
     trace res.2 = trace st ++ EvStat r :: pre ++ [call]).
Proof.
  intros r c calls res H.
  pose proof (NewChroot_run root0 rootUuid0 rootDevice0 st) as Hrun. cbv zeta in Hrun.
  fold r in Hrun. rewrite H in Hrun. by destruct Hrun as (_ & _ & Hrun).
Qed.

(** [Close] undoes what [NewChroot] made, target for target: after a
    [NewChroot] that succeeded and a [Close] of its chroot that succeeded,
    the five paths unmounted are the five paths that were bind-mounted, in
    the same order; the [mount --bind / /] run inside the chroot has no
    counterpart. *)
Theorem NewChroot_then_Close
    (root0 rootUuid0 rootDevice0 : string) (st st1 st2 : State) (c : Chroot) :
  NewChroot env root0 rootUuid0 rootDevice0 st = (inr c, st1) ->
  Chroot_Close env c st1 = (inr tt, st2) ->
  trace st2 =
    trace st ++
    [EvStat (root c); chroot_call c "mount --bind / /"] ++
    map (fun mount => EvExec "mount" ["--bind"; mount; root c +:+ mount])
      ["/dev"; "/dev/pts"; "/proc"; "/run"; "/sys"] ++
    map (fun mount => EvExec "umount" [root c +:+ mount])
      ["/dev"; "/dev/pts"; "/proc"; "/run"; "/sys"].
Proof.
  intros Hn Hc.
  pose proof (NewChroot_run root0 rootUuid0 rootDevice0 st) as Hcases.
  cbv zeta in Hcases. rewrite Hn in Hcases. cbn [fst snd] in Hcases.
  destruct (os_IsNotExist _); [by destruct Hcases as (? & _ & [=])|].
  destruct Hcases
    as (_ & _ & [(_ & [= Hceq] & Ht)|(? & ? & ? & ? & _ & _ & _ & [=] & _)]).
  destruct (forM_host env (umount_call c) ReservedMounts st1) as [_ Hclose].
  rewrite <- Chroot_Close_eq, Hc in Hclose. cbn [fst snd] in Hclose.
  destruct Hclose as [[_ Ht2]|(? & ? & ? & ? & _ & [=] & _)].
  rewrite Ht2, Ht. subst c. cbn [root]. by rewrite <- !app_assoc.
Qed.

End ChrootFacts.


Lemma NewChroot_binds_in_order_no_undo_witness :
  os_IsNotExist (stat_error proc_bind_fails_world rooted_state "/part-future/.system/") =
    false /\
  (NewChroot proc_bind_fails_world "/part-future//.system/" "abc-123" "/dev/sda3"
     rooted_state).1 = inl (ExitError 32) /\
  trace (NewChroot proc_bind_fails_world "/part-future//.system/" "abc-123" "/dev/sda3"
           rooted_state).2 =
    [ EvStat "/part-future/.system/";
      chroot_call demo_chroot "mount --bind / /";
      bind_call "/part-future/.system/" "/dev";
      bind_call "/part-future/.system/" "/dev/pts";
      bind_call "/part-future/.system/" "/proc" ].
Proof.
  assert (H : os_IsNotExist
                (stat_error proc_bind_fails_world rooted_state
                   (strings_ReplaceAll "/part-future//.system/" "//" "/")) = false)
    by (vm_compute; reflexivity).
  split; [exact H|].
  destruct (NewChroot_binds_in_order_no_undo proc_bind_fails_world
              "/part-future//.system/" "abc-123" "/dev/sda3" rooted_state H)
    as [(Ha & _)|(pre & call & post & e & _ & _ & _ & _ & _)].
  - vm_compute in Ha. discriminate Ha.
  - split; vm_compute; reflexivity.
Defined.

Lemma NewChroot_then_Close_witness :
  NewChroot calm_world "/part-future//.system/" "abc-123" "/dev/sda3" rooted_state =
    (inr demo_chroot,
     (NewChroot calm_world "/part-future//.system/" "abc-123" "/dev/sda3" rooted_state).2) /\
  length
    (trace
       (Chroot_Close calm_world demo_chroot
          (NewChroot calm_world "/part-future//.system/" "abc-123" "/dev/sda3"
             rooted_state).2).2) = 12.
Proof.
  assert (H1 : NewChroot calm_world "/part-future//.system/" "abc-123" "/dev/sda3"
                 rooted_state =
               (inr demo_chroot,
                (NewChroot calm_world "/part-future//.system/" "abc-123" "/dev/sda3"
                   rooted_state).2)) by (vm_compute; reflexivity).
  assert (H2 : Chroot_Close calm_world demo_chroot
                 (NewChroot calm_world "/part-future//.system/" "abc-123" "/dev/sda3"
                    rooted_state).2 =
               (inr tt,
                (Chroot_Close calm_world demo_chroot
                   (NewChroot calm_world "/part-future//.system/" "abc-123" "/dev/sda3"
                      rooted_state).2).2)) by (vm_compute; reflexivity).
  split; [exact H1|].
  rewrite (NewChroot_then_Close calm_world _ _ _ _ _ _ _ H1 H2). reflexivity.
Defined.

(** ** More on the cleanup queue *)

Section MoreDrain.

Variable env : Env.

Lemma run_entries_unknown (q : list QueuedFunction) (st : State) :
  Forall (fun f => known_entry f = false) q ->
  run_entries env q st = (Returned None, st).
Proof.
  induction q as [|f q IH]; intros H; [done|].
  inversion H as [|? ? Hf Hq]; subst. simpl.
  unfold known_entry in Hf. apply orb_false_iff in Hf as [-> ->]. by apply IH.
Qed.

(** [AddToCleanUpQueue] takes any name, but the drain has a case for
    [umountFuture] and [closeChroot] only: entries under any other name
    are passed over without a word.  A queue made of such entries drains
    to [nil] with nothing asked of the host, and is emptied all the
    same. *)
Theorem RunCleanUpQueue_unknown_names_dropped (st : State) :
  Forall (fun f => known_entry f = false) (queue st) ->
  RunCleanUpQueue env st = (Returned None, set_queue [] st).
Proof.
  intros H. unfold RunCleanUpQueue. by rewrite (run_entries_unknown _ _ H).
Qed.

(** After a drain that returned [nil], a second drain does nothing: it
    returns [nil] and leaves the state as it is. *)
Theorem RunCleanUpQueue_twice (st st1 : State) :
  RunCleanUpQueue env st = (Returned None, st1) ->
  RunCleanUpQueue env st1 = (Returned None, st1).
Proof.
  unfold RunCleanUpQueue.
  destruct (run_entries env (queue st) st) as [[[e|]|] st'] eqn:Hrun; try discriminate.
  intros [= <-]. reflexivity.
Qed.

End MoreDrain.

Lemma RunCleanUpQueue_unknown_names_dropped_witness :
  Forall (fun f => known_entry f = false) (queue (set_queue odd_queue empty_state)) /\
  RunCleanUpQueue calm_world (set_queue odd_queue empty_state) =
    (Returned None, empty_state).
Proof.
  assert (H : Forall (fun f => known_entry f = false)
                (queue (set_queue odd_queue empty_state))) by (repeat constructor).
  split; [exact H|].
  exact (RunCleanUpQueue_unknown_names_dropped calm_world _ H).
Defined.

Lemma RunCleanUpQueue_twice_witness :
  RunCleanUpQueue calm_world demo_queued =
    (Returned None, (RunCleanUpQueue calm_world demo_queued).2) /\
  RunCleanUpQueue calm_world (RunCleanUpQueue calm_world demo_queued).2 =
    (Returned None, (RunCleanUpQueue calm_world demo_queued).2).
Proof.
  assert (H : RunCleanUpQueue calm_world demo_queued =
              (Returned None, (RunCleanUpQueue calm_world demo_queued).2))
    by (vm_compute; reflexivity).
  split; [exact H|].
  exact (RunCleanUpQueue_twice calm_world _ _ H).
Defined.

(** ** More on the kernel version and the recipe *)

Lemma fold_base_names (files : list string) (start : string) :
  fold_left
    (fun maxVersion file =>
       let version := filepath_Base file in
       if string_gt version maxVersion then version else maxVersion)
    files start =
  greatest (map filepath_Base files) start.
Proof.
  unfold greatest. revert start.
  induction files as [|f files IH]; intros start; [done|].
  cbn [map fold_left]. apply IH.
Qed.

Lemma max_version_greatest (files : list string) :
  max_version files = greatest (map filepath_Base files) "".
Proof. apply fold_base_names. Qed.

Lemma greatest_perm (vs vs' : list string) :
  vs ≡ₚ vs' -> greatest vs "" = greatest vs' "".
Proof.
  intros Hp.
  destruct (greatest_spec vs "") as (H0 & Hub & Hin).
  destruct (greatest_spec vs' "") as (H0' & Hub' & Hin').
  apply (anti_symm String.le).
  - destruct Hin as [->|Hin]; [done|]. apply Hub'. by rewrite <- Hp.
  - destruct Hin' as [->|Hin']; [done|]. apply Hub. by rewrite Hp.
Qed.

(** The version [getKernelVersion] picks does not depend on the order in
    which the glob lists the files. *)
Theorem max_version_order_independent (files files' : list string) :
  files ≡ₚ files' -> max_version files = max_version files'.
Proof.
  intros Hp. rewrite !max_version_greatest. apply greatest_perm.
  by apply fmap_Permutation.
Qed.

Lemma max_version_order_independent_witness :
  ["/r/boot/vmlinuz-6.9.1"; "/r/boot/vmlinuz-6.10.2"; "/r/boot/vmlinuz-5.15"] ≡ₚ
  ["/r/boot/vmlinuz-5.15"; "/r/boot/vmlinuz-6.9.1"; "/r/boot/vmlinuz-6.10.2"] /\
  max_version ["/r/boot/vmlinuz-6.9.1"; "/r/boot/vmlinuz-6.10.2"; "/r/boot/vmlinuz-5.15"] =
  max_version ["/r/boot/vmlinuz-5.15"; "/r/boot/vmlinuz-6.9.1"; "/r/boot/vmlinuz-6.10.2"].
Proof.
  assert (H : ["/r/boot/vmlinuz-6.9.1"; "/r/boot/vmlinuz-6.10.2"; "/r/boot/vmlinuz-5.15"] ≡ₚ
              ["/r/boot/vmlinuz-5.15"; "/r/boot/vmlinuz-6.9.1"; "/r/boot/vmlinuz-6.10.2"]).
  { symmetry.
    exact (Permutation_middle ["/r/boot/vmlinuz-6.9.1"; "/r/boot/vmlinuz-6.10.2"] []
             "/r/boot/vmlinuz-5.15"). }
  split; [exact H|]. exact (max_version_order_independent _ _ H).
Defined.

(** The version picked is the base name of one of the files listed and
    no base name listed is greater in byte order; it is empty only if
    nothing is listed or every base name is empty. *)
Theorem max_version_is_greatest_base (files : list string) :
  (forall file, file ∈ files ->
     String.le (filepath_Base file) (max_version files)) /\
  (max_version files = "" \/ exists file, file ∈ files /\ max_version files = filepath_Base file).
Proof.
  rewrite max_version_greatest.
  destruct (greatest_spec (map filepath_Base files) "") as (_ & Hub & Hin). split.
  - intros file Hf. apply Hub. by apply list_elem_of_fmap_2.
  - destruct Hin as [Hin|Hin]; [by left|]. right.
    apply list_elem_of_fmap in Hin as (file & Heq & Hf). by exists file.
Qed.

Section MoreGrub.

Variable env : Env.

(** A glob that fails is taken for a root without kernel:
    [generateGrubRecipe] returns "could not get kernel version", not the
    glob's error, and neither makes the directory nor writes the
    recipe. *)
Theorem generateGrubRecipe_glob_error_masked
    (rootPath rootUuid entryName : string) (st : State) (e : error) :
  host_err env (trace st) (EvGlob (filepath_Join [rootPath; "boot"; "vmlinuz-*"])) = Some e ->
  generateGrubRecipe env rootPath rootUuid entryName st =
    (inl (errors_New "could not get kernel version"),
     log (EvGlob (filepath_Join [rootPath; "boot"; "vmlinuz-*"])) st).
Proof.
  intros H. unfold generateGrubRecipe.
  assert (Hk : getKernelVersion env rootPath st =
               (inr "", log (EvGlob (filepath_Join [rootPath; "boot"; "vmlinuz-*"])) st)).
  { unfold getKernelVersion. by rewrite H. }
  by rewrite (bind_inr _ _ _ _ _ Hk).
Qed.

End MoreGrub.

Lemma generateGrubRecipe_glob_error_masked_witness :
  host_err glob_fails_world (trace empty_state)
    (EvGlob (filepath_Join ["/part-future//.system/"; "boot"; "vmlinuz-*"])) =
    Some (CollabError "syntax error in pattern") /\
  generateGrubRecipe glob_fails_world "/part-future//.system/" "abc-123" "Foo" empty_state =
    (inl (errors_New "could not get kernel version"),
     log (EvGlob "/part-future/.system/boot/vmlinuz-*") empty_state).
Proof.
  split; [reflexivity|].
  exact (generateGrubRecipe_glob_error_masked glob_fails_world
           "/part-future//.system/" "abc-123" "Foo" empty_state _ eq_refl).
Defined.

(** ** More on [AtomicSwap] *)

Lemma exchange_involutive (a b : string) (m : gmap string Inode) (i j : Inode) :
  m !! a = Some i -> m !! b = Some j -> exchange a b (exchange a b m) = m.
Proof.
  intros Ha Hb.
  destruct (exchange_lookup a b m i j Ha Hb) as [Ha' Hb'].
  unfold exchange at 1. rewrite Ha', Hb'. unfold exchange. rewrite Ha, Hb.
  apply map_eq. intros k.
  destruct (decide (k = a)) as [->|Hka]; [by rewrite lookup_insert_eq|].
  rewrite lookup_insert_ne by done.
  destruct (decide (k = b)) as [->|Hkb]; [by rewrite lookup_insert_eq|].
  by rewrite !lookup_insert_ne by done.
Qed.

Lemma exchange_symmetric (a b : string) (m : gmap string Inode) (i j : Inode) :
  m !! a = Some i -> m !! b = Some j -> exchange b a m = exchange a b m.
Proof.
  intros Ha Hb. unfold exchange. rewrite Ha, Hb.
  destruct (decide (a = b)) as [->|Hne].
  - rewrite Ha in Hb. by injection Hb as ->.
  - by apply insert_insert_ne.
Qed.

Section MoreAtomicSwap.

Variable env : Env.

(** The name the kernel makes of a path does not depend on the
    namespace, only whether it makes one. *)
Lemma swap_target_same (m m' : gmap string Inode) (path a a' : string) :
  swap_target env m path = inr a -> swap_target env m' path = inr a' -> a = a'.
Proof.
  unfold swap_target. destruct (is_abs path); [congruence|].
  destruct (namei env m path) as [?|i]; [done|].
  destruct (namei env m' path) as [?|i']; [done|].
  destruct (is_dir env i); [|done]. destruct (is_dir env i'); [|done]. congruence.
Qed.

(** Swapping twice is swapping back: after two accepted [AtomicSwap]s of
    the same two paths every name denotes what it did before.  The four
    files opened on the way are still open. *)
Theorem AtomicSwap_twice_restores (src dst : string) (st st1 st2 : State) :
  AtomicSwap env src dst st = (None, st1) ->
  AtomicSwap env src dst st1 = (None, st2) ->
  fs st2 = fs st /\ fds st2 = fds st ++ [src; dst; src; dst].
Proof.
  intros H1 H2.
  destruct (AtomicSwap_accepted env _ _ _ _ H1)
    as (a & b & i & j & Ha & Hb & Hi & Hj & Hfs1 & Hfd1 & _).
  destruct (AtomicSwap_accepted env _ _ _ _ H2)
    as (a' & b' & _ & _ & Ha' & Hb' & _ & _ & Hfs2 & Hfd2 & _).
  rewrite <- (swap_target_same _ _ _ _ _ Ha Ha') in Hfs2.
  rewrite <- (swap_target_same _ _ _ _ _ Hb Hb') in Hfs2.
  split.
  - rewrite Hfs2, Hfs1. by apply (exchange_involutive _ _ _ i j).
  - rewrite Hfd2, Hfd1. by rewrite <- app_assoc.
Qed.

(** The order of the two arguments does not matter for what the names
    denote afterwards. *)
Theorem AtomicSwap_argument_order (src dst : string) (st st1 st1' : State) :
  AtomicSwap env src dst st = (None, st1) ->
  AtomicSwap env dst src st = (None, st1') ->
  fs st1' = fs st1.
Proof.
  intros H1 H2.
  destruct (AtomicSwap_accepted env _ _ _ _ H1)
    as (a & b & i & j & Ha & Hb & Hi & Hj & Hfs1 & _).
  destruct (AtomicSwap_accepted env _ _ _ _ H2)
    as (b' & a' & _ & _ & Hb' & Ha' & _ & _ & Hfs2 & _).
  rewrite <- (swap_target_same _ _ _ _ _ Ha Ha') in Hfs2.
  rewrite <- (swap_target_same _ _ _ _ _ Hb Hb') in Hfs2.
  rewrite Hfs2, Hfs1. by apply (exchange_symmetric _ _ _ i j).
Qed.

(** [AtomicSwap] closes nothing it opens: whatever it returns, every path
    it opened is one more open file on return: none when the open of
    [src] fails, [src] alone when the open of [dst] fails, both when both
    are open, also when the kernel then refuses the exchange. *)
Theorem AtomicSwap_leaves_files_open (src dst : string) (st : State) :
  fds (AtomicSwap env src dst st).2 =
    fds st ++
    match open_error env st src with
    | Some _ => []
    | None =>
        match open_error env (opened src st) dst with
        | Some _ => [src]
        | None => [src; dst]
        end
    end.
Proof.
  rewrite AtomicSwap_run. cbv zeta.
  destruct (open_error env st src); [by rewrite app_nil_r|].
  destruct (open_error env (opened src st) dst); [done|].
  assert (H : fds (opened dst (opened src st)) = fds st ++ [src; dst])
    by (cbn [fds opened]; by rewrite <- app_assoc).
  destruct (swap_target env (fs st) src); [done|].
  destruct (swap_target env (fs st) dst); [done|].
  destruct (host_err env _ _); [done|].
  destruct (namei env (fs st) _); [done|].
  by destruct (namei env (fs st) _).
Qed.

End MoreAtomicSwap.

Lemma AtomicSwap_twice_restores_witness :
  AtomicSwap calm_world "/a" "/b" rooted_state =
    (None, (AtomicSwap calm_world "/a" "/b" rooted_state).2) /\
  AtomicSwap calm_world "/a" "/b" (AtomicSwap calm_world "/a" "/b" rooted_state).2 =
    (None,
     (AtomicSwap calm_world "/a" "/b" (AtomicSwap calm_world "/a" "/b" rooted_state).2).2) /\
  fs (AtomicSwap calm_world "/a" "/b" (AtomicSwap calm_world "/a" "/b" rooted_state).2).2 =
    fs rooted_state.
Proof.
  assert (H1 : AtomicSwap calm_world "/a" "/b" rooted_state =
               (None, (AtomicSwap calm_world "/a" "/b" rooted_state).2))
    by (vm_compute; reflexivity).
  assert (H2 : AtomicSwap calm_world "/a" "/b"
                 (AtomicSwap calm_world "/a" "/b" rooted_state).2 =
               (None,
                (AtomicSwap calm_world "/a" "/b"
                   (AtomicSwap calm_world "/a" "/b" rooted_state).2).2))
    by (vm_compute; reflexivity).
  split; [exact H1|]. split; [exact H2|].
  exact (proj1 (AtomicSwap_twice_restores calm_world _ _ _ _ _ H1 H2)).
Defined.

Lemma AtomicSwap_argument_order_witness :
  AtomicSwap calm_world "/a" "/b" rooted_state =
    (None, (AtomicSwap calm_world "/a" "/b" rooted_state).2) /\
  AtomicSwap calm_world "/b" "/a" rooted_state =
    (None, (AtomicSwap calm_world "/b" "/a" rooted_state).2) /\
  fs (AtomicSwap calm_world "/b" "/a" rooted_state).2 =
    fs (AtomicSwap calm_world "/a" "/b" rooted_state).2.
Proof.
  assert (H1 : AtomicSwap calm_world "/a" "/b" rooted_state =
               (None, (AtomicSwap calm_world "/a" "/b" rooted_state).2))
    by (vm_compute; reflexivity).
  assert (H2 : AtomicSwap calm_world "/b" "/a" rooted_state =
               (None, (AtomicSwap calm_world "/b" "/a" rooted_state).2))
    by (vm_compute; reflexivity).
  split; [exact H1|]. split; [exact H2|].
  exact (AtomicSwap_argument_order calm_world _ _ _ _ _ H1 H2).
Defined.

(** ** What [Upgrade] opens and renames *)

Lemma tame_refl {A : Type} (r : error + A) (st : State) :
  fds (r, st).2 = fds st /\
  exists new, trace (r, st).2 = trace st ++ new /\ Forall (fun ev => plain ev = true) new.
Proof. split; [done|]. exists []. by rewrite app_nil_r. Qed.

Lemma Tame_ret {A : Type} (a : A) : Tame (ret a).
Proof. intros st. apply tame_refl. Qed.

Lemma Tame_throw {A : Type} (e : error) : Tame (@throw A e).
Proof. intros st. apply tame_refl. Qed.

Lemma Tame_bind {A B : Type} (m : M A) (k : A -> M B) :
  Tame m -> (forall a, Tame (k a)) -> Tame (bind m k).
Proof.
  intros Hm Hk st. unfold bind. destruct (Hm st) as (Hf & n1 & Ht & Hp).
  destruct (m st) as [[e|a] st1]; cbn [fst snd] in *.
  - split; [done|]. by exists n1.
  - destruct (Hk a st1) as (Hf' & n2 & Ht' & Hp'). split; [by rewrite Hf'|].
    exists (n1 ++ n2). rewrite Ht', Ht, <- app_assoc. split; [done|]. by apply Forall_app.
Qed.

Lemma Tame_forM {A : Type} (l : list A) (body : A -> M unit) :
  (forall x, Tame (body x)) -> Tame (forM_ l body).
Proof.
  intros Hb. induction l as [|x l IH]; simpl; [apply Tame_ret|].
  apply Tame_bind; [apply Hb|]. intros _. exact IH.
Qed.

Lemma tame_one (ev : Event) (st st' : State) :
  fds st' = fds st -> trace st' = trace st ++ [ev] -> plain ev = true ->
  fds st' = fds st /\
  exists new, trace st' = trace st ++ new /\ Forall (fun ev => plain ev = true) new.
Proof. intros Hf Ht Hp. split; [done|]. exists [ev]. split; [done|]. by constructor. Qed.

Section TameCode.

Variable env : Env.

Lemma Tame_host_val {A : Type} (ev : Event) (answer : list Event -> A) :
  plain ev = true -> Tame (host_val env ev answer).
Proof.
  intros Hp st. unfold host_val.
  destruct (host_err env (trace st) ev); by apply (tame_one ev).
Qed.

Lemma Tame_query {A : Type} (ev : Event) (answer : list Event -> A) :
  plain ev = true -> Tame (query env ev answer).
Proof. intros Hp st. by apply (tame_one ev). Qed.

Lemma Tame_os_Stat (name : string) : Tame (os_Stat env name).
Proof. intros st. by apply (tame_one (EvStat name)). Qed.

Lemma Tame_Registry_HasUpdate (digest : string) : Tame (Registry_HasUpdate env digest).
Proof. intros st. by apply (tame_one (EvHasUpdate digest)). Qed.

Lemma Tame_getKernelVersion (rootPath : string) : Tame (getKernelVersion env rootPath).
Proof.
  intros st. unfold getKernelVersion.
  destruct (host_err env (trace st) _); [by eapply tame_one|].
  destruct (length _ =? 0)%nat; by eapply tame_one.
Qed.

Lemma Tame_AddToCleanUpQueue (name : string) (values : list Value) :
  Tame (AddToCleanUpQueue name values).
Proof. intros st. split; [done|]. exists []. by rewrite app_nil_r. Qed.

Lemma Tame_ResetQueue : Tame ResetQueue.
Proof. intros st. split; [done|]. exists []. by rewrite app_nil_r. Qed.

(** Unfolds the code down to its host calls and settles each. *)
Ltac tame :=
  repeat first
    [ apply Tame_ret
    | apply Tame_throw
    | apply Tame_os_Stat
    | apply Tame_Registry_HasUpdate
    | apply Tame_getKernelVersion
    | apply Tame_AddToCleanUpQueue
    | apply Tame_ResetQueue
    | (apply Tame_host_val; reflexivity)
    | (apply Tame_query; reflexivity)
    | (apply Tame_forM; intros ?)
    | (apply Tame_bind; [|intros ?])
    | match goal with
      | |- Tame (if ?b then _ else _) => destruct b
      | |- Tame (match ?x with _ => _ end) => destruct x
      end ].

Lemma Tame_NewChroot (r u d : string) : Tame (NewChroot env r u d).
Proof. unfold NewChroot, Chroot_Execute, exec_Run, host. tame. Qed.

Lemma Tame_generateGrubRecipe (rootPath rootUuid entryName : string) :
  Tame (generateGrubRecipe env rootPath rootUuid entryName).
Proof. unfold generateGrubRecipe, host. tame. Qed.

Lemma Tame_Upgrade_S0_S2 (s : ABSystem) : Tame (Upgrade_S0_S2 env s).
Proof.
  unfold Upgrade_S0_S2, Upgrade_S0, CheckUpdate, Upgrade_S1, Partition_Mount, Upgrade_S2.
  tame.
Qed.

Lemma Tame_Upgrade_S0_S5 (s : ABSystem) : Tame (Upgrade_S0_S5 env s).
Proof.
  unfold Upgrade_S0_S5. apply Tame_bind; [apply Tame_Upgrade_S0_S2|]. intros found.
  unfold Upgrade_S3, Upgrade_S4, Upgrade_S5, host. tame.
Qed.

Lemma Tame_Upgrade_S7_S9 (parts : ABRootPartition * Partition) :
  Tame (Upgrade_S7_S9 env parts).
Proof.
  unfold Upgrade_S7_S9, Upgrade_S7. apply Tame_bind.
  { apply Tame_bind; [apply Tame_generateGrubRecipe|]. intros _.
    apply Tame_bind; [apply Tame_NewChroot|]. intros c.
    unfold Chroot_ExecuteCmds, Chroot_Execute, exec_Run, host. tame. }
  intros _.
  unfold Upgrade_S8, SyncEtc, Upgrade_S9, Partition_Mount, host. tame.
Qed.

Lemma Upgrade_S7_S10_split (parts : ABRootPartition * Partition) (st : State) :
  Upgrade_S7_S10 env parts st =
    bind (Upgrade_S7_S9 env parts) (fun uuid => Upgrade_S10 env uuid) st.
Proof.
  unfold Upgrade_S7_S10, Upgrade_S7_S9, bind.
  destruct (Upgrade_S7 env parts.1 st) as [[e|[]] st1]; [done|].
  by destruct (Upgrade_S8 env parts.1 st1) as [[e|[]] st2].
Qed.

End TameCode.

Lemma renamed_app (x y : list Event) : renamed (x ++ y) = renamed x ++ renamed y.
Proof. apply flat_map_app. Qed.

Lemma exchanges_only_app (x y : list Event) :
  exchanges_only (x ++ y) = exchanges_only x && exchanges_only y.
Proof. apply forallb_app. Qed.

Lemma plain_no_rename (new : list Event) :
  Forall (fun ev => plain ev = true) new ->
  renamed new = [] /\ exchanges_only new = true.
Proof.
  induction 1 as [|ev new Hev _ [IH1 IH2]]; [done|].
  unfold renamed, exchanges_only in *. simpl. rewrite IH1, IH2.
  by destruct ev.
Qed.

Section CommitOrder.

Variable env : Env.

(** What one [AtomicSwap] adds to the renames and the open files. *)
Lemma AtomicSwap_m_commits (src dst : string) (st : State) :
  exists new,
    trace (AtomicSwap_m env src dst st).2 = trace st ++ new /\
    exchanges_only new = true /\
    match (AtomicSwap_m env src dst st).1 with
    | inr _ =>
        renamed new = [(src, dst)] /\
        fds (AtomicSwap_m env src dst st).2 = fds st ++ [src; dst]
    | inl _ => renamed new `prefix_of` [(src, dst)]
    end.
Proof.
  pose proof (AtomicSwap_accepted env src dst st) as Hok.
  pose proof (AtomicSwap_refused env src dst st) as Hno.
  unfold AtomicSwap, run in Hok, Hno.
  destruct (AtomicSwap_m env src dst st) as [[e|[]] st1]; cbn [fst snd as_error] in *.
  - destruct (Hno st1 e eq_refl) as (_ & _ & new & more & Ht & Hnm).
    exists (EvOpen src :: new). split; [exact Ht|].
    destruct new as [|x [|y [|z new]]]; cbn [app] in Hnm.
    + split; [done|]. by eexists.
    + injection Hnm as -> _. split; [done|]. by eexists.
    + injection Hnm as -> -> _. split; [done|]. by exists [].
    + by injection Hnm as _ _ ?.
  - destruct (Hok st1 eq_refl) as (a & b & i & j & _ & _ & _ & _ & _ & Hfd & _ & Ht).
    eexists. split; [exact Ht|]. done.
Qed.

(** The exchanges of a transaction are ordered and are all [Upgrade]
    ever renames.  Whatever the outcome, the rename calls it has issued
    are exchange-renames and are, in order, a first part of: the rootfs
    exchange, the descriptor exchange, the exchange of the grub
    configuration; so the descriptor is exchanged only after the rootfs
    and the bootloader only after both.  When it returns [nil] all three
    have been issued and the six files opened for them are still open. *)
Theorem Upgrade_commit_order (s : ABSystem) (st : State) :
  let res := Upgrade env s st in
  exists new mountPoint uuid,
    trace res.2 = trace st ++ new /\
    exchanges_only new = true /\
    renamed new `prefix_of` three_exchanges mountPoint uuid /\
    (res.1 = None ->
     renamed new = three_exchanges mountPoint uuid /\
     fds res.2 =
       fds st ++ flat_map (fun p => [p.1; p.2]) (three_exchanges mountPoint uuid)).
Proof.
  cbv zeta. unfold Upgrade, run. cbn [fst snd].
  destruct (Upgrade_m env s st) as [r stx] eqn:Hrun. cbn [fst snd].
  rewrite Upgrade_m_from_S6 in Hrun.
  destruct (Tame_Upgrade_S0_S5 env s st) as (Hf5 & n5 & Ht5 & Hp5).
  destruct (plain_no_rename _ Hp5) as [Hr5 He5].
  destruct (Upgrade_S0_S5 env s st) as [[e|parts] st5] eqn:H5; cbn [fst snd] in *.
  { rewrite (bind_inl _ _ _ _ _ H5) in Hrun. injection Hrun as <- <-.
    exists n5, "", "". rewrite Hr5. split; [done|]. split; [done|].
    split; [by eexists|]. done. }
  rewrite (bind_inr _ _ _ _ _ H5) in Hrun. cbv beta in Hrun.
  set (mp := MountPoint (Partition_ parts.1)) in *.
  (* stage 6, the rootfs *)
  unfold Upgrade_S6 in Hrun. fold mp in Hrun.
  destruct (AtomicSwap_m_commits (mp +:+ "/.system/") (mp +:+ "/.system.new/") st5)
    as (na & Hta & Hea & Hka).
  destruct (AtomicSwap_m env (mp +:+ "/.system/") (mp +:+ "/.system.new/") st5)
    as [[e|[]] st6a] eqn:Ha; cbn [fst snd] in *.
  { rewrite (bind_inl _ _ _ _ _ (bind_inl _ _ _ _ _ Ha)) in Hrun.
    injection Hrun as <- <-. exists (n5 ++ na), mp, "".
    rewrite Hta, Ht5, <- app_assoc, renamed_app, exchanges_only_app, Hr5, He5, Hea.
    split; [done|]. split; [done|]. split; [|done]. cbn [app].
    exact (prefix_app_r (renamed na) [_] [_; _] Hka). }
  destruct Hka as [Hra Hfa].
  (* stage 6, the descriptor *)
  destruct (AtomicSwap_m_commits (mp +:+ "/abimage.abr") (mp +:+ "/abimage-new.abr") st6a)
    as (nb & Htb & Heb & Hkb).
  destruct (AtomicSwap_m env (mp +:+ "/abimage.abr") (mp +:+ "/abimage-new.abr") st6a)
    as [[e|[]] st6b] eqn:Hb; cbn [fst snd] in *.
  { rewrite (bind_inl _ _ _ _ _
               (eq_trans (bind_inr _ _ _ _ _ Ha) Hb)) in Hrun.
    injection Hrun as <- <-. exists (n5 ++ na ++ nb), mp, "".
    rewrite Htb, Hta, Ht5, <- !app_assoc, !renamed_app, !exchanges_only_app,
      Hr5, He5, Hea, Heb, Hra.
    split; [done|]. split; [done|]. split; [|done]. cbn [app].
    apply (prefix_app [_] (renamed nb) [_; _]).
    exact (prefix_app_r (renamed nb) [_] [_] Hkb). }
  destruct Hkb as [Hrb Hfb].
  rewrite (bind_inr _ _ _ _ _ (eq_trans (bind_inr _ _ _ _ _ Ha) Hb)) in Hrun.
  cbv beta in Hrun. rewrite Upgrade_S7_S10_split in Hrun.
  (* stages 7 to 9 *)
  destruct (Tame_Upgrade_S7_S9 env parts st6b) as (Hf9 & n9 & Ht9 & Hp9).
  destruct (plain_no_rename _ Hp9) as [Hr9 He9].
  destruct (Upgrade_S7_S9 env parts st6b) as [[e|uuid] st9] eqn:H9; cbn [fst snd] in *.
  { rewrite (bind_inl _ _ _ _ _ H9) in Hrun. injection Hrun as <- <-.
    exists (n5 ++ na ++ nb ++ n9), mp, "".
    rewrite Ht9, Htb, Hta, Ht5, <- !app_assoc, !renamed_app, !exchanges_only_app,
      Hr5, He5, Hea, Heb, He9, Hra, Hrb, Hr9.
    split; [done|]. split; [done|]. split; [|done]. by eexists. }
  rewrite (bind_inr _ _ _ _ _ H9) in Hrun. cbv beta in Hrun.
  (* stage 10 *)
  unfold Upgrade_S10 in Hrun.
  destruct (AtomicSwap_m_commits ("/tmp/" +:+ uuid +:+ "/grub.cfg")
              ("/tmp/" +:+ uuid +:+ "/grub.cfg.future") st9) as (nc & Htc & Hec & Hkc).
  rewrite Hrun in Htc, Hkc. cbn [fst snd] in Htc, Hkc.
  exists (n5 ++ na ++ nb ++ n9 ++ nc), mp, uuid.
  rewrite Htc, Ht9, Htb, Hta, Ht5, <- !app_assoc, !renamed_app, !exchanges_only_app,
    Hr5, He5, Hea, Heb, He9, Hec, Hra, Hrb, Hr9.
  split; [done|]. split; [done|]. cbn [app].
  destruct r as [e|[]].
  - split; [|done]. exact (prefix_app [_; _] (renamed nc) [_] Hkc).
  - destruct Hkc as [Hrc Hfc]. rewrite Hrc. split; [by eexists|]. intros _.
    split; [done|]. rewrite Hfc, Hf9, Hfb, Hfa, Hf5. cbn. by rewrite <- !app_assoc.
Qed.

End CommitOrder.

(** ** The queue [Upgrade] leaves and its drain *)

Lemma Typed_bind {A B : Type} (m : M A) (k : A -> M B) :
  Typed m -> (forall a, Typed (k a)) -> Typed (bind m k).
Proof.
  intros Hm Hk st Hq. unfold bind. specialize (Hm st Hq).
  destruct (m st) as [[e|a] st1]; cbn [snd] in *; [done|]. by apply Hk.
Qed.

Lemma Typed_of_Calm {A : Type} (m : M A) : Calm m -> Typed m.
Proof. intros Hc st Hq. destruct (Hc st) as [-> _]. exact Hq. Qed.

Section QueueTyping.

Variable env : Env.

Lemma Typed_Upgrade_S1 : Typed (Upgrade_S1 env).
Proof.
  intros st Hq. pose proof (Upgrade_S1_queue env st (Upgrade_S1 env st).2
                              (Upgrade_S1 env st).1) as H.
  destruct (Upgrade_S1 env st) as [[e|parts] st1]; cbn [fst snd] in *.
  - by rewrite (H eq_refl).
  - rewrite (H eq_refl). apply Forall_app. split; [done|]. by constructor.
Qed.

Lemma Typed_Upgrade_S7 (p : ABRootPartition) : Typed (Upgrade_S7 env p).
Proof.
  intros st Hq. pose proof (Upgrade_S7_queue env p st (Upgrade_S7 env p st).2
                              (Upgrade_S7 env p st).1) as H.
  destruct (Upgrade_S7 env p st) as [r st1]; cbn [fst snd] in *.
  destruct (H eq_refl) as [[-> _]|[c ->]]; [done|].
  apply Forall_app. split; [done|]. by constructor.
Qed.

Lemma Upgrade_queue_well_typed (s : ABSystem) (st : State) :
  Forall (fun f => well_typed_entry f = true) (queue (Upgrade env s st).2).
Proof.
  unfold Upgrade. rewrite run_snd. unfold Upgrade_m.
  unfold bind at 1. cbn [ResetQueue].
  assert (Hrest : forall st0,
            Forall (fun f => well_typed_entry f = true) (queue st0) ->
            Forall (fun f => well_typed_entry f = true)
              (queue
                 ((run_ Upgrade_S0 env s ;;
                   do parts <- Upgrade_S1 env ;;
                   do podmanImage <- Upgrade_S2 env ;;
                   do containerFile <- Upgrade_S3 env ;;
                   run_ Upgrade_S4 env parts.1 containerFile ;;
                   run_ Upgrade_S5 env parts.1 podmanImage ;;
                   run_ Upgrade_S6 env parts.1 ;;
                   run_ Upgrade_S7 env parts.1 ;;
                   run_ Upgrade_S8 env parts.1 ;;
                   do uuid <- Upgrade_S9 env parts.2 ;;
                   Upgrade_S10 env uuid) st0).2)).
  { apply Typed_bind; [apply Typed_of_Calm, Calm_Upgrade_S0|]. intros _.
    apply Typed_bind; [apply Typed_Upgrade_S1|]. intros parts.
    apply Typed_bind; [apply Typed_of_Calm, Calm_Upgrade_S2|]. intros img.
    apply Typed_bind; [apply Typed_of_Calm, Calm_Upgrade_S3|]. intros cf.
    apply Typed_bind; [apply Typed_of_Calm, Calm_Upgrade_S4|]. intros _.
    apply Typed_bind; [apply Typed_of_Calm, Calm_Upgrade_S5|]. intros _.
    apply Typed_bind; [apply Typed_of_Calm, Calm_Upgrade_S6|]. intros _.
    apply Typed_bind; [apply Typed_Upgrade_S7|]. intros _.
    apply Typed_of_Calm, Calm_Upgrade_S8_S10. }
  apply Hrest. constructor.
Qed.

Lemma well_typed_no_panic (q : list QueuedFunction) (st : State) :
  Forall (fun f => well_typed_entry f = true) q ->
  (run_entries env q st).1 <> Panicked.
Proof.
  revert st. induction q as [|f q IH]; intros st H; [done|].
  inversion H as [|? ? Hf Hq]; subst. simpl. unfold well_typed_entry in Hf.
  destruct (String.eqb (Name f) "umountFuture").
  - destruct (Values f) as [|[fp|c|x] vs]; try discriminate.
    destruct (Partition_Unmount env (Partition_ fp) st) as [[e|[]] st1]; [done|].
    by apply IH.
  - destruct (String.eqb (Name f) "closeChroot"); [|by apply IH].
    destruct (Values f) as [|[fp|c|x] vs]; try discriminate.
    destruct (Chroot_Close env c st) as [[e|[]] st1]; [done|]. by apply IH.
Qed.

(** The values [Upgrade] queues have the types the drain asserts:
    whatever [Upgrade] returned, and whatever the queue held before it
    started, a drain of the queue it leaves never panics on a type
    assertion. *)
Theorem Upgrade_queue_never_panics (s : ABSystem) (st : State) :
  (RunCleanUpQueue env (Upgrade env s st).2).1 <> Panicked.
Proof.
  unfold RunCleanUpQueue.
  pose proof (well_typed_no_panic _ (Upgrade env s st).2
                (Upgrade_queue_well_typed s st)) as H.
  by destruct (run_entries env _ _) as [[[e|]|] st1].
Qed.

End QueueTyping.

Section AfterSuccess.

Variable env : Env.

(** The chroot stage 7 opens for [partFuture]. *)
Lemma Upgrade_S7_success (partFuture : ABRootPartition) (st st' : State) :
  Upgrade_S7 env partFuture st = (inr tt, st') ->
  queue st' =
    queue st ++
    [ {| Name := "closeChroot";
         Values :=
           [VChroot
              {| root :=
                   strings_ReplaceAll
                     (MountPoint (Partition_ partFuture) +:+ "/.system/") "//" "/";
                 rootUuid := Uuid (Partition_ partFuture);
                 rootDevice := Device (Partition_ partFuture) |}] |} ].
Proof.
  unfold Upgrade_S7. intros H. revert H.
  bind_step H1; [intros [=]|].
  bind_step H2; [intros [=]|].
  unfold bind at 1. unfold AddToCleanUpQueue at 1. intros H.
  rewrite (Calm_queue _ _ _ _ (Calm_Chroot_ExecuteCmds env _ _) H). cbn [queue set_queue].
  rewrite (Calm_queue _ _ _ _ (Calm_NewChroot env _ _ _) H2).
  rewrite (Calm_queue _ _ _ _ (Calm_generateGrubRecipe env _ _ _) H1).
  by rewrite (NewChroot_value env _ _ _ _ _ _ H2).
Qed.

Lemma Upgrade_S0_S2_success (s : ABSystem) (st st3 : State)
    (found : ABRootPartition * Partition * PodmanImage) :
  Upgrade_S0_S2 env s st = (inr found, st3) ->
  queue st3 = [ {| Name := "umountFuture"; Values := [VABRootPartition found.1.1] |} ].
Proof.
  unfold Upgrade_S0_S2. intros H. revert H.
  bind_step H0; [intros [=]|]. injection H0 as <- <-.
  bind_step H1; [intros [=]|].
  bind_step H2; [intros [=]|].
  bind_step H3; [intros [=]|].
  unfold ret. intros [= <- <-]. cbn [fst].
  rewrite (Calm_queue _ _ _ _ (Calm_Upgrade_S2 env) H3).
  rewrite (Upgrade_S1_queue env _ _ _ H2).
  by rewrite (Calm_queue _ _ _ _ (Calm_Upgrade_S0 env s) H1).
Qed.

Lemma Upgrade_S0_S5_success (s : ABSystem) (st st5 : State)
    (parts : ABRootPartition * Partition) :
  Upgrade_S0_S5 env s st = (inr parts, st5) ->
  queue st5 = [ {| Name := "umountFuture"; Values := [VABRootPartition parts.1] |} ].
Proof.
  unfold Upgrade_S0_S5. intros H. revert H.
  bind_step H1; [intros [=]|].
  bind_step H2; [intros [=]|].
  bind_step H3; [intros [=]|].
  bind_step H4; [intros [=]|].
  unfold ret. intros [= <- <-].
  rewrite (Calm_queue _ _ _ _ (Calm_Upgrade_S5 env _ _) H4).
  rewrite (Calm_queue _ _ _ _ (Calm_Upgrade_S4 env _ _) H3).
  rewrite (Calm_queue _ _ _ _ (Calm_Upgrade_S3 env) H2).
  exact (Upgrade_S0_S2_success _ _ _ _ H1).
Qed.

(** The queue a successful [Upgrade] leaves: the unmount of future, then
    the close of the chroot rooted in future's [.system]. *)
Lemma Upgrade_success_queue (s : ABSystem) (st : State) :
  (Upgrade env s st).1 = None ->
  exists partFuture,
    queue (Upgrade env s st).2 =
      [ {| Name := "umountFuture"; Values := [VABRootPartition partFuture] |};
        {| Name := "closeChroot";
           Values :=
             [VChroot
                {| root :=
                     strings_ReplaceAll
                       (MountPoint (Partition_ partFuture) +:+ "/.system/") "//" "/";
                   rootUuid := Uuid (Partition_ partFuture);
                   rootDevice := Device (Partition_ partFuture) |}] |} ].
Proof.
  unfold Upgrade, run. cbn [fst snd].
  destruct (Upgrade_m env s st) as [r stx] eqn:Hrun. cbn [fst snd].
  intros Hr. destruct r as [e|[]]; [discriminate|]. clear Hr.
  rewrite Upgrade_m_from_S6 in Hrun.
  destruct (Upgrade_S0_S5 env s st) as [[e|parts] st5] eqn:H5.
  { by rewrite (bind_inl _ _ _ _ _ H5) in Hrun. }
  rewrite (bind_inr _ _ _ _ _ H5) in Hrun. cbv beta in Hrun.
  destruct (Upgrade_S6 env parts.1 st5) as [[e|[]] st6] eqn:H6.
  { by rewrite (bind_inl _ _ _ _ _ H6) in Hrun. }
  rewrite (bind_inr _ _ _ _ _ H6) in Hrun. unfold Upgrade_S7_S10 in Hrun.
  destruct (Upgrade_S7 env parts.1 st6) as [[e|[]] st7] eqn:H7.
  { by rewrite (bind_inl _ _ _ _ _ H7) in Hrun. }
  rewrite (bind_inr _ _ _ _ _ H7) in Hrun.
  exists parts.1.
  rewrite (Calm_queue _ _ _ _ (Calm_Upgrade_S8_S10 env parts) Hrun).
  rewrite (Upgrade_S7_success _ _ _ H7).
  rewrite (Calm_queue _ _ _ _ (Calm_Upgrade_S6 env _) H6).
  by rewrite (Upgrade_S0_S5_success _ _ _ _ H5).
Qed.

(** What a drain does after a successful [Upgrade]: it unmounts future
    first and only then the five binds of the chroot, which sit under
    future's mount point, in the order they were made; it asks for
    nothing else, so the boot partition mounted in stage 9 and the
    [mount --bind / /] of the chroot are left as they are. *)
Theorem Upgrade_then_drain (s : ABSystem) (st : State) :
  (Upgrade env s st).1 = None ->
  exists partFuture new,
    let chroot :=
      {| root :=
           strings_ReplaceAll (MountPoint (Partition_ partFuture) +:+ "/.system/") "//" "/";
         rootUuid := Uuid (Partition_ partFuture);
         rootDevice := Device (Partition_ partFuture) |} in
    trace (RunCleanUpQueue env (Upgrade env s st).2).2 =
      trace (Upgrade env s st).2 ++ EvUnmount (Partition_ partFuture) :: new /\
    new `prefix_of` map (umount_call chroot) ["/dev"; "/dev/pts"; "/proc"; "/run"; "/sys"] /\
    ((RunCleanUpQueue env (Upgrade env s st).2).1 = Returned None ->
     new = map (umount_call chroot) ["/dev"; "/dev/pts"; "/proc"; "/run"; "/sys"] /\
     queue (RunCleanUpQueue env (Upgrade env s st).2).2 = []).
Proof.
  intros Hok. destruct (Upgrade_success_queue s st Hok) as [pf Hq].
  remember (Upgrade env s st).2 as st1 eqn:Est. clear Est Hok.
  set (c := {| root :=
                 strings_ReplaceAll (MountPoint (Partition_ pf) +:+ "/.system/") "//" "/";
               rootUuid := Uuid (Partition_ pf);
               rootDevice := Device (Partition_ pf) |}) in *.
  assert (Hfa : first_action (queue st1) = Some (EvUnmount (Partition_ pf)))
    by (rewrite Hq; reflexivity).
  assert (Hall : flat_map entry_events (queue st1) =
                 EvUnmount (Partition_ pf) :: map (umount_call c) ReservedMounts)
    by (rewrite Hq; reflexivity).
  exists pf.
  destruct (run_entries_drained env (queue st1) st1) as [Hd _].
  pose proof (first_action_issued env (queue st1) st1) as Hfirst.
  rewrite Hfa in Hfirst. destruct Hfirst as [new Hnew].
  exists new. cbv zeta. rewrite RunCleanUpQueue_trace. split; [exact Hnew|].
  destruct (drained_prefix _ _ _ _ _ Hd) as (all & Hext & Hp).
  rewrite Hnew in Hext. apply app_inv_head in Hext. subst all.
  rewrite Hall in Hp.
  split.
  - destruct Hp as [k Hk]. injection Hk as Hk. by exists k.
  - unfold RunCleanUpQueue.
    destruct (run_entries env (queue st1) st1) as [[[e|]|] st2] eqn:Hrun;
      cbn [fst snd] in *; try discriminate.
    intros _. split; [|done].
    inversion Hd as [st' _ _ Hfull| |]; subst. rewrite Hnew, Hall in Hfull.
    apply app_inv_head in Hfull. by injection Hfull as ->.
Qed.

End AfterSuccess.

Lemma Upgrade_then_drain_witness :
  (Upgrade calm_world demo_system empty_state).1 = None /\
  trace (RunCleanUpQueue calm_world (Upgrade calm_world demo_system empty_state).2).2 =
    trace (Upgrade calm_world demo_system empty_state).2 ++
    EvUnmount (Partition_ demo_mounted) :: map (umount_call demo_chroot) ReservedMounts.
Proof.
  assert (H : (Upgrade calm_world demo_system empty_state).1 = None)
    by (vm_compute; reflexivity).
  split; [exact H|].
  destruct (Upgrade_then_drain calm_world demo_system empty_state H)
    as (pf & new & Ht & _ & _).
  vm_compute. reflexivity.
Defined.

(** ** [Upgrade] stops at the operation that failed *)

Section StopsCode.

Variable env : Env.

Lemma Stops_bind {A B : Type} (m : M A) (k : A -> M B) :
  Stops env m -> (forall a, Stops env (k a)) -> Stops env (bind m k).
Proof.
  intros Hm Hk st e. unfold bind. specialize (Hm st).
  destruct (m st) as [[e1|a] st1]; cbn [fst snd] in *.
  - intros [= <-]. by apply Hm.
  - apply Hk.
Qed.

Lemma Stops_never {A : Type} (m : M A) :
  (forall st, exists a, (m st).1 = inr a) -> Stops env m.
Proof. intros H st e He. destruct (H st) as [a Ha]. by rewrite Ha in He. Qed.

Lemma Stops_ret {A : Type} (a : A) : Stops env (ret a).
Proof. apply Stops_never. intros st. by exists a. Qed.

Lemma Stops_forM {A : Type} (l : list A) (body : A -> M unit) :
  (forall x, Stops env (body x)) -> Stops env (forM_ l body).
Proof.
  intros Hb. induction l as [|x l IH]; simpl; [apply Stops_ret|].
  apply Stops_bind; [apply Hb|]. intros _. exact IH.
Qed.

Lemma Stops_host_val {A : Type} (ev : Event) (answer : list Event -> A) :
  Stops env (host_val env ev answer).
Proof.
  intros st e. unfold host_val.
  destruct (host_err env (trace st) ev) as [e1|] eqn:He; [|done].
  intros [= <-]. exists (trace st), ev. split; [done|]. by left.
Qed.

Lemma Stops_query {A : Type} (ev : Event) (answer : list Event -> A) :
  Stops env (query env ev answer).
Proof. apply Stops_never. intros st. by eexists. Qed.

Lemma namei_errno (m : gmap string Inode) (name : string) (errno : Errno) :
  namei env m name = inl errno -> errno = ENOENT \/ errno = ENOTDIR.
Proof.
  unfold namei. destruct (String.eqb name ""); [intros [= <-]; by left|].
  destruct (existsb _ _); [intros [= <-]; by right|].
  destruct (m !! filepath_Clean name) as [i|]; [|intros [= <-]; by left].
  destruct (ends_in_sep name && negb (is_dir env i)); [|done]. intros [= <-]. by right.
Qed.

Lemma at_dir_errno (st : State) (fd : Z) (path : string) (errno : Errno) :
  at_dir env st fd path = inl errno ->
  errno = ENOENT \/ errno = ENOTDIR \/ errno = EBADF.
Proof.
  unfold at_dir. destruct (String.eqb path ""); [intros [= <-]; by left|].
  destruct (is_abs path); [done|]. destruct (Z.eqb fd AT_FDCWD); [done|].
  destruct (if Z.ltb fd (Z.of_nat (first_fd env)) then None
            else fds st !! Z.to_nat (fd - Z.of_nat (first_fd env))) as [dir|];
    [|intros [= <-]; by right; right].
  destruct (namei env (fs st) dir) as [errno'|i] eqn:Hn.
  - intros [= <-]. destruct (namei_errno _ _ _ Hn) as [->| ->]; [by left|by right; left].
  - destruct (is_dir env i); [done|]. intros [= <-]. by right; left.
Qed.

Lemma Stops_os_Open (name : string) : Stops env (os_Open env name).
Proof.
  intros st e. unfold os_Open, open_error.
  destruct (host_err env (trace st) (EvOpen name)) as [e1|] eqn:He.
  { intros [= <-]. exists (trace st), (EvOpen name). split; [done|]. by left. }
  destruct (namei env (fs st) name) as [errno|i] eqn:Hn; [|done].
  intros [= <-]. exists (trace st), (EvOpen name). split; [done|].
  do 4 right. left. exists name. split; [done|].
  by destruct (namei_errno _ _ _ Hn) as [->| ->]; [left|right].
Qed.

Lemma Stops_unix_Renameat2 (fd1 : Z) (a : string) (fd2 : Z) (b : string) (flags : Z) :
  Stops env (unix_Renameat2 env fd1 a fd2 b flags).
Proof.
  intros st e. unfold unix_Renameat2.
  assert (Hsys : forall errno : Errno,
            errno = ENOENT \/ errno = EINVAL \/ errno = ENOTDIR \/ errno = EBADF ->
            (inl (SyscallErrno errno) : error + unit,
             log (EvRenameat2 fd1 a fd2 b flags) st).1 = inl e ->
            exists h ev,
              trace (inl (SyscallErrno errno) : error + unit,
                     log (EvRenameat2 fd1 a fd2 b flags) st).2 = h ++ [ev] /\
              failed env h ev e).
  { intros errno Hcase [= <-]. eexists _, _. split; [done|]. do 5 right.
    eexists _, _, _, _, _. split; [done|].
    destruct Hcase as [->|[->|[->| ->]]]; tauto. }
  assert (Hat : forall errno, errno = ENOENT \/ errno = ENOTDIR \/ errno = EBADF ->
                 errno = ENOENT \/ errno = EINVAL \/ errno = ENOTDIR \/ errno = EBADF)
    by tauto.
  assert (Hna : forall errno, errno = ENOENT \/ errno = ENOTDIR ->
                 errno = ENOENT \/ errno = EINVAL \/ errno = ENOTDIR \/ errno = EBADF)
    by tauto.
  destruct (negb (flags =? RENAME_EXCHANGE)%Z); [apply Hsys; tauto|].
  destruct (at_dir env st fd1 a) as [errno|a'] eqn:Ha.
  { apply Hsys, Hat. by eapply at_dir_errno. }
  destruct (at_dir env st fd2 b) as [errno|b'] eqn:Hb.
  { apply Hsys, Hat. by eapply at_dir_errno. }
  destruct (host_err env (trace st) _) as [e1|] eqn:He.
  { intros [= <-]. eexists _, _. split; [done|]. by left. }
  destruct (namei env (fs st) a') as [errno|i] eqn:Hi.
  { apply Hsys, Hna. by eapply namei_errno. }
  destruct (namei env (fs st) b') as [errno|j] eqn:Hj; [|done].
  apply Hsys, Hna. by eapply namei_errno.
Qed.

Lemma Stops_AtomicSwap_m (src dst : string) : Stops env (AtomicSwap_m env src dst).
Proof.
  unfold AtomicSwap_m. apply Stops_bind; [apply Stops_os_Open|]. intros fd1.
  apply Stops_bind; [apply Stops_os_Open|]. intros fd2. apply Stops_unix_Renameat2.
Qed.

Lemma Stops_AddToCleanUpQueue (name : string) (values : list Value) :
  Stops env (AddToCleanUpQueue name values).
Proof. apply Stops_never. intros st. by eexists. Qed.

(** Settles code made of host calls and binds. *)
Ltac stops :=
  repeat first
    [ apply Stops_ret
    | apply Stops_AddToCleanUpQueue
    | apply Stops_AtomicSwap_m
    | apply Stops_host_val
    | apply Stops_query
    | (apply Stops_forM; intros ?)
    | (apply Stops_bind; [|intros ?]) ].

Lemma Stops_Upgrade_S0 (s : ABSystem) : Stops env (Upgrade_S0 env s).
Proof.
  intros st e. unfold Upgrade_S0, CheckUpdate, bind, Registry_HasUpdate.
  destruct (negb _); [|done]. intros [= <-].
  exists (trace st), (EvHasUpdate (Digest (CurImage s))). split; [done|].
  right. left. by eexists.
Qed.

Lemma Stops_generateGrubRecipe (rootPath rootUuid entryName : string) :
  Stops env (generateGrubRecipe env rootPath rootUuid entryName).
Proof.
  intros st e. unfold generateGrubRecipe.
  assert (Hk : exists v, getKernelVersion env rootPath st =
                 (inr v, log (EvGlob (filepath_Join [rootPath; "boot"; "vmlinuz-*"])) st)).
  { unfold getKernelVersion. destruct (host_err env _ _); [by eexists|].
    destruct (length _ =? 0)%nat; by eexists. }
  destruct Hk as [v Hk]. rewrite (bind_inr _ _ _ _ _ Hk).
  destruct (String.eqb v "").
  - intros [= <-]. eexists _, _. split; [done|]. do 2 right. left. by eexists.
  - match goal with
    | |- (?m ?st0).1 = inl _ -> _ =>
        assert (Hs : Stops env m) by (unfold host; stops); exact (Hs st0 e)
    end.
Qed.

Lemma Stops_NewChroot (r u d : string) : Stops env (NewChroot env r u d).
Proof.
  intros st e. unfold NewChroot.
  set (r1 := strings_ReplaceAll r "//" "/").
  rewrite (bind_inr _ _ _ _ _ (os_Stat_eq env r1 st)).
  destruct (os_IsNotExist (stat_error env st r1)) eqn:Hne.
  - destruct (stat_error env st r1) as [e1|] eqn:Hs; [|done].
    unfold throw. intros [= <-]. exists (trace st), (EvStat r1). split; [done|].
    revert Hs. unfold stat_error.
    destruct (host_err env (trace st) (EvStat r1)) as [e2|] eqn:Hh.
    { intros [= <-]. by left. }
    destruct (namei env (fs st) r1) as [errno|i]; [|done]. intros [= <-].
    do 3 right. left. exists r1. split; [done|]. by destruct errno.
  - match goal with
    | |- (?m ?st0).1 = inl _ -> _ =>
        assert (Hs : Stops env m)
          by (unfold Chroot_Execute, exec_Run, host; stops);
        exact (Hs st0 e)
    end.
Qed.

Lemma Stops_Upgrade_m (s : ABSystem) : Stops env (Upgrade_m env s).
Proof.
  unfold Upgrade_m.
  apply Stops_bind; [apply Stops_never; intros st; by eexists|]. intros _.
  apply Stops_bind; [apply Stops_Upgrade_S0|]. intros _.
  apply Stops_bind.
  { unfold Upgrade_S1, Partition_Mount. stops. }
  intros parts.
  apply Stops_bind; [unfold Upgrade_S2; stops|]. intros img.
  apply Stops_bind; [unfold Upgrade_S3; stops|]. intros cf.
  apply Stops_bind; [unfold Upgrade_S4, host; stops|]. intros _.
  apply Stops_bind; [unfold Upgrade_S5, host; stops|]. intros _.
  apply Stops_bind; [unfold Upgrade_S6; stops|]. intros _.
  apply Stops_bind.
  { unfold Upgrade_S7. apply Stops_bind; [apply Stops_generateGrubRecipe|]. intros _.
    apply Stops_bind; [apply Stops_NewChroot|]. intros c.
    unfold Chroot_ExecuteCmds, Chroot_Execute, exec_Run, host. stops. }
  intros _.
  apply Stops_bind; [unfold Upgrade_S8, SyncEtc, host; stops|]. intros _.
  apply Stops_bind; [unfold Upgrade_S9, Partition_Mount, host; stops|]. intros uuid.
  unfold Upgrade_S10. stops.
Qed.

(** [Upgrade] stops where it fails and hands the error on as it is: when
    it returns an error, the last operation it asked for is the one that
    failed, nothing was attempted after it (no cleanup, no rollback), and
    the error returned is that operation's own: the answer of the host or
    collaborator, the [ENOENT] of a path that is missing, or one of the
    two errors the code makes itself, "no update available" right after
    the registry query and "could not get kernel version" right after the
    glob. *)
Theorem Upgrade_stops_at_failed_operation (s : ABSystem) (st st' : State) (e : error) :
  Upgrade env s st = (Some e, st') ->
  exists h ev, trace st' = h ++ [ev] /\ failed env h ev e.
Proof.
  unfold Upgrade, run. intros H.
  pose proof (Stops_Upgrade_m s st e) as Hs.
  destruct (Upgrade_m env s st) as [[e1|[]] st1]; cbn [fst snd as_error] in *;
    [|discriminate].
  injection H as -> ->. by apply Hs.
Qed.

End StopsCode.

Lemma Upgrade_stops_at_failed_operation_witness :
  Upgrade grub_fails_world demo_system empty_state =
    (Some (ExitError 1), (Upgrade grub_fails_world demo_system empty_state).2) /\
  exists h ev,
    trace (Upgrade grub_fails_world demo_system empty_state).2 = h ++ [ev] /\
    failed grub_fails_world h ev (ExitError 1).
Proof.
  assert (H : Upgrade grub_fails_world demo_system empty_state =
              (Some (ExitError 1), (Upgrade grub_fails_world demo_system empty_state).2))
    by (vm_compute; reflexivity).
  split; [exact H|].
  exact (Upgrade_stops_at_failed_operation grub_fails_world demo_system empty_state _ _ H).
Defined.
